(** * excel_agents: the tabular query engine (ColumnMapper, ExcelTools,
      EnhancedExcelAgent.validateData) embedded in Rocq.

    Strings are sequences of code units below 256 (Rocq's [string]); numbers
    are IEEE-754 binary64 values, through the Standard Library's executable
    specification [SpecFloat] instantiated at precision 53 and [emax] 1024. *)

From Stdlib Require Import ZArith List Bool Ascii String Lia Permutation Sorted.
From Stdlib Require Import Floats.SpecFloat.
Import ListNotations.

Local Open Scope string_scope.

(** ** Host strings *)

Module Str.

Definition code (c : ascii) : N := N_of_ascii c.

Definition inRange (lo hi : N) (c : ascii) : bool :=
  (N.leb lo (code c) && N.leb (code c) hi)%bool.

(** [String.prototype.toLowerCase] on code units below 256: the ASCII
    capitals and the Latin-1 capitals (U+00C0..U+00DE without the
    multiplication sign U+00D7) move up by 32. *)
Definition lowerChar (c : ascii) : ascii :=
  if (inRange 65 90 c || (inRange 192 222 c && negb (N.eqb (code c) 215)))%bool
  then ascii_of_N (code c + 32)
  else c.

Fixpoint toLowerCase (s : string) : string :=
  match s with
  | EmptyString => EmptyString
  | String c s' => String (lowerChar c) (toLowerCase s')
  end.

(** The class [\s] (and the characters [trim] strips) below 256. *)
Definition isSpace (c : ascii) : bool :=
  (inRange 9 13 c || N.eqb (code c) 32 || N.eqb (code c) 160)%bool.

(** The class [\w]: [A-Za-z0-9_]. *)
Definition isWord (c : ascii) : bool :=
  (inRange 48 57 c || inRange 65 90 c || inRange 97 122 c
   || N.eqb (code c) 95)%bool.

(** [s.includes(sub)]. *)
Fixpoint includes (s sub : string) : bool :=
  if String.prefix sub s then true
  else match s with
       | EmptyString => false
       | String _ s' => includes s' sub
       end.

Fixpoint trimStart (s : string) : string :=
  match s with
  | EmptyString => EmptyString
  | String c s' => if isSpace c then trimStart s' else s
  end.

Fixpoint allSpace (s : string) : bool :=
  match s with
  | EmptyString => true
  | String c s' => (isSpace c && allSpace s')%bool
  end.

Fixpoint trimEnd (s : string) : string :=
  match s with
  | EmptyString => EmptyString
  | String c s' => if allSpace s then EmptyString else String c (trimEnd s')
  end.

(** [s.trim()]. *)
Definition trim (s : string) : string := trimEnd (trimStart s).

(** [s.replace(/[^\w\s]/g, " ")]. *)
Fixpoint replaceNonWordNonSpace (s : string) : string :=
  match s with
  | EmptyString => EmptyString
  | String c s' =>
      String (if (isWord c || isSpace c)%bool then c else " "%char)
             (replaceNonWordNonSpace s')
  end.

(** [s.replace(/\s+/g, r)]: every maximal run of white space becomes [r].
    [inRun] tells that the previous character was white space, whose run
    has been replaced already. *)
Fixpoint replaceSpaceRunsFrom (r : string) (inRun : bool) (s : string)
  : string :=
  match s with
  | EmptyString => EmptyString
  | String c s' =>
      if isSpace c then
        if inRun then replaceSpaceRunsFrom r true s'
        else r ++ replaceSpaceRunsFrom r true s'
      else String c (replaceSpaceRunsFrom r false s')
  end.

Definition replaceSpaceRuns (r s : string) : string :=
  replaceSpaceRunsFrom r false s.

End Str.

(** ** ColumnMapper *)

Module ColumnMapper.

(** The [synonyms] table, in the key order of the object literal (the order
    [Object.entries] yields for keys that are not array indices). *)
Definition synonyms : list (string * list string) :=
  [ ("quantity", ["qty"; "amount"; "count"; "number"]);
    ("price",    ["cost"; "rate"; "value"; "amount"]);
    ("revenue",  ["sales"; "income"; "earnings"]);
    ("customer", ["client"; "buyer"; "user"]);
    ("date",     ["time"; "timestamp"; "created"]);
    ("product",  ["item"; "goods"; "merchandise"]);
    ("region",   ["area"; "location"; "territory"]);
    ("category", ["type"; "class"; "group"]) ].

(** The cleaning steps of [normalizeColumnName]: lower case, trim, special
    characters to spaces, white-space runs to one space, trim. *)
Definition clean (columnName : string) : string :=
  Str.trim
    (Str.replaceSpaceRuns " "
       (Str.replaceNonWordNonSpace (Str.trim (Str.toLowerCase columnName)))).

(** The [for ... of Object.entries(this.synonyms)] loop: the first standard
    name one of whose synonyms occurs in [normalized]. *)
Fixpoint firstSynonym (table : list (string * list string))
  (normalized : string) : option string :=
  match table with
  | [] => None
  | (standard, syns) :: rest =>
      if existsb (fun synonym => Str.includes normalized synonym) syns
      then Some standard
      else firstSynonym rest normalized
  end.

Definition normalizeColumnName (columnName : string) : string :=
  if String.eqb columnName "" then ""
  else
    let normalized := clean columnName in
    match firstSynonym synonyms normalized with
    | Some standard => standard
    | None => Str.replaceSpaceRuns "_" normalized
    end.

Definition mapColumns (headers : list string) : list string :=
  map normalizeColumnName headers.

(** One row of the matrix of [levenshteinDistance]: [prev] is row [j-1]
    (one entry per prefix of [str1]), [c2] is [str2[j-1]], and [left] is the
    entry just computed in the row under construction. *)
Fixpoint levRow (c2 : ascii) (str1 : string) (prev : list nat) (left : nat)
  : list nat :=
  match str1, prev with
  | String c1 rest, diag :: ((up :: _) as prev') =>
      let indicator := if Ascii.eqb c1 c2 then 0 else 1 in
      let cell := Nat.min (Nat.min (left + 1) (up + 1)) (diag + indicator) in
      cell :: levRow c2 rest prev' cell
  | _, _ => []
  end.

Fixpoint levRows (str1 str2 : string) (prev : list nat) (j : nat) : list nat :=
  match str2 with
  | EmptyString => prev
  | String c2 rest => levRows str1 rest (S j :: levRow c2 str1 prev (S j)) (S j)
  end.

Definition levenshteinDistance (str1 str2 : string) : nat :=
  last (levRows str1 str2 (seq 0 (S (String.length str1))) 0) 0.

(** JavaScript truthiness of a string. *)
Definition truthy (s : string) : bool := negb (String.eqb s "").

(** The fuzzy loop over [availableColumns]: [bestMatch] and [bestScore] are
    the two loop variables, [None] standing for the [undefined] of an empty
    list and for the initial [Number.POSITIVE_INFINITY]. *)
Fixpoint fuzzyLoop (normalizedSearch : string) (cols : list string)
  (bestMatch : option string) (bestScore : option nat) : option string :=
  match cols with
  | [] => bestMatch
  | col :: rest =>
      let score := levenshteinDistance normalizedSearch (normalizeColumnName col) in
      let better := match bestScore with
                    | None => true
                    | Some b => Nat.ltb score b
                    end in
      if better then fuzzyLoop normalizedSearch rest (Some col) (Some score)
      else fuzzyLoop normalizedSearch rest bestMatch bestScore
  end.

(** [if (m) return m], for the result [m] of an [Array.prototype.find]:
    [undefined] and the empty string are falsy. *)
Definition orElse (m : option string) (otherwise : option string)
  : option string :=
  match m with
  | Some col => if truthy col then Some col else otherwise
  | None => otherwise
  end.

(** [findBestMatch]; the result [None] is the [undefined] that
    [availableColumns[0]] yields on an empty list. *)
Definition findBestMatch (searchColumn : string)
  (availableColumns : list string) : option string :=
  let normalizedSearch := normalizeColumnName searchColumn in
  let exactMatch :=
    find (fun col => String.eqb (normalizeColumnName col) normalizedSearch)
         availableColumns in
  let partialMatch :=
    find (fun col =>
            (Str.includes (normalizeColumnName col) normalizedSearch
             || Str.includes normalizedSearch (normalizeColumnName col))%bool)
         availableColumns in
  orElse exactMatch
    (orElse partialMatch
       (fuzzyLoop normalizedSearch availableColumns
          (hd_error availableColumns) None)).

End ColumnMapper.

(** ** Host numbers: IEEE-754 binary64 *)

Module Num.

Definition num : Type := spec_float.

Definition prec : Z := 53.
Definition emax : Z := 1024.

Definition NaN : num := S754_nan.
Definition zero : num := S754_zero false.
Definition POSITIVE_INFINITY : num := S754_infinity false.
Definition NEGATIVE_INFINITY : num := S754_infinity true.

Definition add : num -> num -> num := SFadd prec emax.
Definition sub : num -> num -> num := SFsub prec emax.
Definition mul : num -> num -> num := SFmul prec emax.
Definition div : num -> num -> num := SFdiv prec emax.

(** The number nearest to an integer (exact below 2^53). *)
Definition ofZ (z : Z) : num := binary_normalize prec emax z 0 false.
Definition ofNat (n : nat) : num := ofZ (Z.of_nat n).

Definition isNaN (x : num) : bool :=
  match x with S754_nan => true | _ => false end.

(** [a < b], [a <= b], [a > b], [a >= b] and numeric [a == b]: all false
    when an operand is [NaN]. *)
Definition ltb (a b : num) : bool := SFltb a b.
Definition leb (a b : num) : bool := SFleb a b.
Definition gtb (a b : num) : bool := SFltb b a.
Definition geb (a b : num) : bool := SFleb b a.
Definition eqb (a b : num) : bool := SFeqb a b.

Definition isNegZero (x : num) : bool :=
  match x with S754_zero true => true | _ => false end.

(** One step of [Math.min]: [NaN] is contagious and [-0] is below [+0]. *)
Definition min2 (a b : num) : num :=
  if (isNaN a || isNaN b)%bool then NaN
  else if ltb b a then b
  else if ltb a b then a
  else if isNegZero b then b else a.

Definition max2 (a b : num) : num :=
  if (isNaN a || isNaN b)%bool then NaN
  else if ltb a b then b
  else if ltb b a then a
  else if isNegZero a then b else a.

(** [Math.min(...values)] and [Math.max(...values)]; without arguments they
    are [+Infinity] and [-Infinity]. (The engine's limit on the number of
    arguments of one call is not part of the model.) *)
Definition mathMin (values : list num) : num :=
  fold_left min2 values POSITIVE_INFINITY.
Definition mathMax (values : list num) : num :=
  fold_left max2 values NEGATIVE_INFINITY.

(** [values.reduce((a, b) => a + b, 0)]. *)
Definition sum (values : list num) : num := fold_left add values zero.

(** Exact integer sums, to state when the sums of numbers are exact. *)
Definition total (zs : list Z) : Z := fold_right Z.add 0%Z zs.
Definition magnitude (zs : list Z) : Z :=
  fold_right (fun z acc => (Z.abs z + acc)%Z) 0%Z zs.

(** The sign a comparator result has for [Array.prototype.sort]: [NaN] is
    read as [+0]. *)
Definition sign (v : num) : comparison :=
  match v with
  | S754_nan | S754_zero _ => Eq
  | S754_infinity s | S754_finite s _ _ => if s then Lt else Gt
  end.

(** [SameValueZero], the equality of [Set]: [NaN] equals itself and the two
    zeros are the same. *)
Definition sameNumber (a b : num) : bool :=
  ((isNaN a && isNaN b) || eqb a b)%bool.

End Num.

(** ** Cells, rows and the host's conversions *)

Module JS.

Import Num.

(** A cell of a row: [string | number | null | undefined]. *)
Inductive cell : Type :=
| CStr (s : string)
| CNum (n : num)
| CNull
| CUndefined.

Definition row : Type := list cell.

(** The conversions and the collation of the host that the source calls
    and does not define: [Number] applied to a string, [String] applied to
    a number, and [String.prototype.localeCompare]. *)
Record Host : Type := {
  StringToNumber : string -> num;
  NumberToString : num -> string;
  localeCompare : string -> string -> num
}.

(** What the source throws: [new Error(message)], and the [TypeError] of
    the engine when a value that is not callable is called. *)
Inductive exn : Type :=
| Error (message : string)
| TypeError.

(** How a call completes: it returns a value or it throws. *)
Inductive completion (A : Type) : Type :=
| Return (value : A)
| Throw (e : exn).
Arguments Return {A} value.
Arguments Throw {A} e.

(** [row[index]]: out of range reads [undefined]. *)
Definition cellAt (r : row) (index : nat) : cell := nth index r CUndefined.

Section Conversions.
Variable host : Host.

(** [Number(v)]. *)
Definition Number (v : cell) : num :=
  match v with
  | CStr s => StringToNumber host s
  | CNum n => n
  | CNull => zero
  | CUndefined => NaN
  end.

(** [String(v)]. *)
Definition String' (v : cell) : string :=
  match v with
  | CStr s => s
  | CNum n => NumberToString host n
  | CNull => "null"
  | CUndefined => "undefined"
  end.

(** [a == b], the loose equality. *)
Definition looseEq (a b : cell) : bool :=
  match a, b with
  | CNull, CNull | CNull, CUndefined
  | CUndefined, CNull | CUndefined, CUndefined => true
  | CNum x, CNum y => eqb x y
  | CStr s, CStr t => String.eqb s t
  | CNum x, CStr t => eqb x (StringToNumber host t)
  | CStr s, CNum y => eqb (StringToNumber host s) y
  | _, _ => false
  end.
End Conversions.

(** [SameValueZero] on cells. *)
Definition sameValueZero (a b : cell) : bool :=
  match a, b with
  | CStr s, CStr t => String.eqb s t
  | CNum x, CNum y => sameNumber x y
  | CNull, CNull | CUndefined, CUndefined => true
  | _, _ => false
  end.

(** [v === null || v === undefined || v === ''] *)
Definition isBlank (v : cell) : bool :=
  match v with
  | CNull | CUndefined => true
  | CStr s => String.eqb s ""
  | CNum _ => false
  end.

(** [array.findIndex(p)], with [None] for [-1]. *)
Fixpoint findIndexFrom {A : Type} (p : A -> bool) (l : list A) (i : nat)
  : option nat :=
  match l with
  | [] => None
  | x :: l' => if p x then Some i else findIndexFrom p l' (S i)
  end.

Definition findIndex {A : Type} (p : A -> bool) (l : list A) : option nat :=
  findIndexFrom p l 0.

(** The double quote of the error messages. *)
Definition dquote : string := String (ascii_of_nat 34) EmptyString.

(** ** Objects used as maps from strings to arrays of numbers

    [groups] and [pivot] are created by the literal [{}]: their own
    properties are kept in creation order, and a read of a name that is not
    an own property continues in [Object.prototype]. *)

Definition object : Type := list (string * list num).

(** The property names of [Object.prototype]; the value of each is a
    function, or for [__proto__] the prototype object itself: truthy, and
    without a [push] method. *)
Definition prototypeNames : list string :=
  [ "constructor"; "hasOwnProperty"; "isPrototypeOf"; "propertyIsEnumerable";
    "toLocaleString"; "toString"; "valueOf"; "__proto__";
    "__defineGetter__"; "__defineSetter__";
    "__lookupGetter__"; "__lookupSetter__" ].

Definition inPrototype (key : string) : bool :=
  existsb (String.eqb key) prototypeNames.

Fixpoint getOwn (o : object) (key : string) : option (list num) :=
  match o with
  | [] => None
  | (k, vs) :: o' => if String.eqb k key then Some vs else getOwn o' key
  end.

(** [o[key].push(value)] on an own property [key]. *)
Fixpoint pushOwn (o : object) (key : string) (value : num) : object :=
  match o with
  | [] => []
  | (k, vs) :: o' =>
      if String.eqb k key then (k, (vs ++ [value])%list) :: o'
      else (k, vs) :: pushOwn o' key value
  end.

(** [if (!o[key]) o[key] = []; o[key].push(value)]: an own array is truthy
    and receives the value; an absent name is created, unless the read finds
    it in the prototype, where the value found is truthy and calling its
    [push] throws. *)
Definition pushTo (o : object) (key : string) (value : num)
  : completion object :=
  match getOwn o key with
  | Some _ => Return (pushOwn o key value)
  | None =>
      if inPrototype key then Throw TypeError
      else Return (o ++ [(key, [value])])%list
  end.

(** The array indices among property names: the canonical decimal numerals
    of the integers from 0 to 2^32 - 2. *)
Definition isDigit (c : ascii) : bool := Str.inRange 48 57 c.

Fixpoint digitsValue (s : string) (acc : N) : N :=
  match s with
  | EmptyString => acc
  | String c s' => digitsValue s' (10 * acc + (Str.code c - 48))%N
  end.

Fixpoint allDigits (s : string) : bool :=
  match s with
  | EmptyString => true
  | String c s' => (isDigit c && allDigits s')%bool
  end.

Definition arrayIndex (key : string) : option N :=
  match key with
  | EmptyString => None
  | String c rest =>
      if (allDigits key
          && (negb (N.eqb (Str.code c) 48) || String.eqb rest "")
          && Nat.leb (String.length key) 10
          && N.leb (digitsValue key 0) 4294967294)%bool
      then Some (digitsValue key 0)
      else None
  end.

Definition isArrayIndex (key : string) : bool :=
  match arrayIndex key with Some _ => true | None => false end.

Definition indexOf (key : string) : N :=
  match arrayIndex key with Some n => n | None => 0%N end.

Fixpoint insertByIndex {V : Type} (e : string * V) (l : list (string * V))
  : list (string * V) :=
  match l with
  | [] => [e]
  | e' :: l' =>
      if N.leb (indexOf (fst e)) (indexOf (fst e')) then e :: l
      else e' :: insertByIndex e l'
  end.

(** [Object.entries(o)]: the array indices in ascending numeric order, then
    the other names in creation order. *)
Definition entries {V : Type} (o : list (string * V)) : list (string * V) :=
  (fold_right insertByIndex [] (filter (fun e => isArrayIndex (fst e)) o)
   ++ filter (fun e => negb (isArrayIndex (fst e))) o)%list.

(** The object whose arrays hold the numbers of the given integers. *)
Definition ofIntegers (o : list (string * list Z)) : object :=
  map (fun e => (fst e, map ofZ (snd e))) o.

End JS.

(** ** ExcelTools *)

Module ExcelTools.

Import Num JS.

Inductive order : Type := asc | desc.

Record FilterResult : Type := {
  filteredRows : list row;
  totalMatches : nat;
  filter : string * string * cell
}.

Record GroupResult : Type := {
  group : string;
  result : num;
  count : nat
}.

Inductive AggregateResult : Type :=
| Simple (operation column : string) (result : num) (count : nat)
| Grouped (operation column groupBy : string) (results : list GroupResult).

Record SortResult : Type := {
  sortedRows : list row;
  totalRows : nat;
  sortBy : string * order
}.

(** The values of the records of a pivot table: the group key or a number. *)
Inductive pvalue : Type :=
| PStr (s : string)
| PNum (n : num).

(** A record of the pivot table, an object literal with computed names:
    its properties in the order they are defined. *)
Definition record : Type := list (string * pvalue).

Record PivotResult : Type := {
  pivotTable : list record;
  rowField : string;
  valueField : string;
  pivotOperation : string;
  totalGroups : nat
}.

(** Defining property [key] in an object literal: a later definition of the
    same name replaces the value of the earlier one. *)
Fixpoint setProp (o : record) (key : string) (v : pvalue) : record :=
  match o with
  | [] => [(key, v)]
  | (k, v') :: o' =>
      if String.eqb k key then (k, v) :: o' else (k, v') :: setProp o' key v
  end.

Fixpoint getProp (o : record) (key : string) : option pvalue :=
  match o with
  | [] => None
  | (k, v) :: o' => if String.eqb k key then Some v else getProp o' key
  end.

(** [h.toLowerCase().includes(column.toLowerCase())], the test of
    [aggregateData], [sortData] and [createPivotTable]. *)
Definition headerContains (column h : string) : bool :=
  Str.includes (Str.toLowerCase h) (Str.toLowerCase column).

(** The test of [filterData]: containment either way. *)
Definition containsEitherWay (column h : string) : bool :=
  (Str.includes (Str.toLowerCase h) (Str.toLowerCase column)
   || Str.includes (Str.toLowerCase column) (Str.toLowerCase h))%bool.

(** The truthiness test of an optional string argument ([if (!groupBy)],
    [if (column)]): absent and the empty string are falsy. *)
Definition given (arg : option string) : option string :=
  match arg with
  | Some g => if String.eqb g "" then None else Some g
  | None => None
  end.

(** [new Error(`${what} "${name}" not found`)]. *)
Definition notFound (what name : string) : exn :=
  Error (what ++ " " ++ dquote ++ name ++ dquote ++ " not found").

(** [Array.prototype.sort(comparefn)]. The language fixes the result when
    [comparefn] is a consistent comparator on the elements: the one stable
    ordering, which this insertion sort computes; for other comparators the
    order is left to the engine. *)
Fixpoint insertSorted {A : Type} (cmp : A -> A -> num) (x : A) (l : list A)
  : list A :=
  match l with
  | [] => [x]
  | y :: l' =>
      match sign (cmp x y) with
      | Gt => y :: insertSorted cmp x l'
      | _ => x :: l
      end
  end.

Definition sort {A : Type} (cmp : A -> A -> num) (l : list A) : list A :=
  fold_right (insertSorted cmp) [] l.

(** [before cmp a b]: the comparator does not ask for [a] after [b]. *)
Definition before {A : Type} (cmp : A -> A -> num) (a b : A) : bool :=
  match sign (cmp a b) with Gt => false | _ => true end.

Definition sameSign (c d : comparison) : bool :=
  match c, d with
  | Lt, Lt | Eq, Eq | Gt, Gt => true
  | _, _ => false
  end.

(** A comparator is consistent on the elements of [l] when swapping its
    arguments flips its sign and the order it induces is transitive. *)
Definition consistentOn {A : Type} (cmp : A -> A -> num) (l : list A) : bool :=
  forallb (fun a =>
    forallb (fun b =>
      (sameSign (sign (cmp a b)) (CompOpp (sign (cmp b a)))
       && forallb (fun c =>
            implb (before cmp a b && before cmp b c) (before cmp a c)) l)%bool)
      l) l.

(** An error names a column when its message contains the column's name. *)
Definition names (e : exn) (name : string) : bool :=
  match e with
  | Error message => Str.includes message name
  | TypeError => false
  end.

(** A call fails naming a column: it throws an error that names it. *)
Definition failsNaming {A : Type} (c : completion A) (column : string) : Prop :=
  exists e, c = Throw e /\ names e column = true.

Section WithHost.
Variable host : Host.

(** The callback of [rows.filter] in [filterData]. *)
Definition keeps (operator : string) (value : cell) (columnIndex : nat)
  (r : row) : bool :=
  let cellValue := cellAt r columnIndex in
  if String.eqb operator ">" then
    gtb (Number host cellValue) (Number host value)
  else if String.eqb operator "<" then
    ltb (Number host cellValue) (Number host value)
  else if String.eqb operator ">=" then
    geb (Number host cellValue) (Number host value)
  else if String.eqb operator "<=" then
    leb (Number host cellValue) (Number host value)
  else if String.eqb operator "=" then
    looseEq host cellValue value
  else if String.eqb operator "!=" then
    negb (looseEq host cellValue value)
  else if String.eqb operator "contains" then
    Str.includes (Str.toLowerCase (String' host cellValue))
                 (Str.toLowerCase (String' host value))
  else true.

Definition filterData (headers : list string) (rows : list row)
  (column operator : string) (value : cell) : completion FilterResult :=
  match findIndex (containsEitherWay column) headers with
  | None => Throw (notFound "Column" column)
  | Some columnIndex =>
      let matching := List.filter (keeps operator value columnIndex) rows in
      Return {| filteredRows := firstn 100 matching;
                totalMatches := List.length matching;
                filter := (column, operator, value) |}
  end.

(** [rows.map((row) => Number(row[columnIndex])).filter((v) => !isNaN(v))] *)
Definition numericValues (columnIndex : nat) (rows : list row) : list num :=
  List.filter (fun v => negb (isNaN v))
    (map (fun r => Number host (cellAt r columnIndex)) rows).

(** The [switch (operation)] of [aggregateData]. *)
Definition reduce (operation : string) (values : list num) : num :=
  if String.eqb operation "sum" then sum values
  else if String.eqb operation "avg" then
    div (sum values) (ofNat (List.length values))
  else if String.eqb operation "count" then ofNat (List.length values)
  else if String.eqb operation "min" then mathMin values
  else if String.eqb operation "max" then mathMax values
  else zero.

(** The [switch (operation)] of [createPivotTable]. *)
Definition reducePivot (operation : string) (values : list num) : num :=
  if String.eqb operation "sum" then sum values
  else if String.eqb operation "count" then ofNat (List.length values)
  else if String.eqb operation "avg" then
    div (sum values) (ofNat (List.length values))
  else zero.

(** The [rows.forEach] loop that fills [groups] (and [pivot]): a row whose
    value is [NaN] is skipped, before its group is even looked at. *)
Fixpoint groupRows (keyIndex valueIndex : nat) (rows : list row)
  (groups : object) : completion object :=
  match rows with
  | [] => Return groups
  | r :: rest =>
      let groupValue := String' host (cellAt r keyIndex) in
      let value := Number host (cellAt r valueIndex) in
      if negb (isNaN value) then
        match pushTo groups groupValue value with
        | Return groups' => groupRows keyIndex valueIndex rest groups'
        | Throw e => Throw e
        end
      else groupRows keyIndex valueIndex rest groups
  end.

(** What the loop collects, read off the table: the group of a row, whether
    a row's value is a number, the values of one group in row order, and
    whether some row with a number belongs to a group named like a property
    of [Object.prototype]. *)
Definition keyOf (keyIndex : nat) (r : row) : string :=
  String' host (cellAt r keyIndex).

Definition numeric (valueIndex : nat) (r : row) : bool :=
  negb (isNaN (Number host (cellAt r valueIndex))).

Definition groupValues (keyIndex valueIndex : nat) (key : string)
  (rows : list row) : list num :=
  numericValues valueIndex
    (List.filter (fun r => String.eqb (keyOf keyIndex r) key) rows).

Definition collides (keyIndex valueIndex : nat) (rows : list row) : bool :=
  existsb (fun r => (numeric valueIndex r
                     && inPrototype (keyOf keyIndex r))%bool) rows.

Definition aggregateData (headers : list string) (rows : list row)
  (column operation : string) (groupBy : option string)
  : completion AggregateResult :=
  match findIndex (headerContains column) headers with
  | None => Throw (notFound "Column" column)
  | Some columnIndex =>
      match given groupBy with
      | None =>
          let values := numericValues columnIndex rows in
          Return (Simple operation column (reduce operation values)
                         (List.length values))
      | Some g =>
          match findIndex (headerContains g) headers with
          | None => Throw (notFound "Group by column" g)
          | Some groupByIndex =>
              match groupRows groupByIndex columnIndex rows [] with
              | Throw e => Throw e
              | Return groups =>
                  Return (Grouped operation column g
                    (map (fun e =>
                            {| group := fst e;
                               result := reduce operation (snd e);
                               count := List.length (snd e) |})
                         (entries groups)))
              end
          end
      end
  end.

(** The comparator of [sortData]. *)
Definition compareRows (o : order) (columnIndex : nat) (a b : row) : num :=
  let aVal := cellAt a columnIndex in
  let bVal := cellAt b columnIndex in
  let aNum := Number host aVal in
  let bNum := Number host bVal in
  if (negb (isNaN aNum) && negb (isNaN bNum))%bool then
    match o with asc => sub aNum bNum | desc => sub bNum aNum end
  else
    let aStr := Str.toLowerCase (String' host aVal) in
    let bStr := Str.toLowerCase (String' host bVal) in
    match o with
    | asc => localeCompare host aStr bStr
    | desc => localeCompare host bStr aStr
    end.

(** Two rows have equal sort keys: the comparator ties them. *)
Definition tied (columnIndex : nat) (a b : row) : Prop :=
  sign (compareRows asc columnIndex a b) = Eq.

Definition sortData (headers : list string) (rows : list row)
  (column : string) (o : order) : completion SortResult :=
  match findIndex (headerContains column) headers with
  | None => Throw (notFound "Column" column)
  | Some columnIndex =>
      let sorted := sort (compareRows o columnIndex) rows in
      Return {| sortedRows := firstn 100 sorted;
                totalRows := List.length sorted;
                sortBy := (column, o) |}
  end.

(** [{ [rowField]: row, [operation]: result, count: values.length }] *)
Definition pivotRecord (rowField operation row : string)
  (values : list num) : record :=
  setProp
    (setProp [(rowField, PStr row)] operation
       (PNum (reducePivot operation values)))
    "count" (PNum (ofNat (List.length values))).

Definition createPivotTable (headers : list string) (rows : list row)
  (rowField valueField operation : string) : completion PivotResult :=
  match findIndex (headerContains rowField) headers,
        findIndex (headerContains valueField) headers with
  | None, _ => Throw (notFound "Row field" rowField)
  | Some _, None => Throw (notFound "Value field" valueField)
  | Some rowIndex, Some valueIndex =>
      match groupRows rowIndex valueIndex rows [] with
      | Throw e => Throw e
      | Return pivot =>
          let results :=
            map (fun e => pivotRecord rowField operation (fst e) (snd e))
                (entries pivot) in
          Return {| pivotTable := results;
                    rowField := rowField;
                    valueField := valueField;
                    pivotOperation := operation;
                    totalGroups := List.length results |}
      end
  end.

End WithHost.

End ExcelTools.

(** ** EnhancedExcelAgent.validateData *)

Module EnhancedExcelAgent.

Import Num JS.

Inductive issue : Type :=
| ColumnReport (column : string) (nullCount uniqueCount totalCount : nat)
    (nullPercentage : num)
| NullReport (column : string) (nullCount : nat) (nullPercentage : num).

Record ValidationResult : Type := {
  validationIssues : list issue;
  totalIssues : nat
}.

(** [values.filter(v => v === null || v === undefined || v === '').length] *)
Definition nullCountOf (values : list cell) : nat :=
  List.length (List.filter isBlank values).

(** [new Set(values).size] *)
Fixpoint setOf (values : list cell) (seen : list cell) : list cell :=
  match values with
  | [] => seen
  | v :: rest =>
      if existsb (sameValueZero v) seen then setOf rest seen
      else setOf rest (seen ++ [v])%list
  end.

Definition uniqueCountOf (values : list cell) : nat :=
  List.length (setOf values []).

(** [(nullCount / values.length) * 100] *)
Definition percentage (nullCount total : nat) : num :=
  mul (div (ofNat nullCount) (ofNat total)) (ofZ 100).

(** The body of [headers.forEach((header, index) => ...)]. *)
Fixpoint scanHeaders (headers : list string) (index : nat) (rows : list row)
  : list issue :=
  match headers with
  | [] => []
  | header :: rest =>
      let values := map (fun r => cellAt r index) rows in
      let nullCount := nullCountOf values in
      if Nat.ltb 0 nullCount then
        NullReport header nullCount (percentage nullCount (List.length values))
        :: scanHeaders rest (S index) rows
      else scanHeaders rest (S index) rows
  end.

(** [column] is optional; [if (column)] also fails on the empty string. *)
Definition validateData (headers : list string) (rows : list row)
  (column : option string) : ValidationResult :=
  let issues :=
    match ExcelTools.given column with
    | Some c =>
        match findIndex (ExcelTools.headerContains c) headers with
        | Some colIndex =>
            let values := map (fun r => cellAt r colIndex) rows in
            let nullCount := nullCountOf values in
            [ColumnReport c nullCount (uniqueCountOf values)
               (List.length values)
               (percentage nullCount (List.length values))]
        | None => []
        end
    | None => scanHeaders headers 0 rows
    end in
  {| validationIssues := issues; totalIssues := List.length issues |}.

End EnhancedExcelAgent.

(** ** A reference host

    An executable host for running the embedding on concrete tables. It
    agrees with the engine on the fragment the examples use: numerals that
    are optionally signed runs of decimal digits, numbers that are integers
    of magnitude below 2^53, and strings compared by code units. *)

Module RefHost.

Import Num JS.

Fixpoint digitsOf (fuel : nat) (n : N) (acc : string) : string :=
  match fuel with
  | O => acc
  | S fuel' =>
      let acc' := String (ascii_of_N (48 + n mod 10)) acc in
      if N.ltb n 10 then acc' else digitsOf fuel' (n / 10) acc'
  end.

Definition decimal (n : N) : string := digitsOf (S (N.to_nat (N.log2 n))) n "".

(** The integer a number is, when it is one. *)
Definition toInteger (x : num) : option Z :=
  match x with
  | S754_zero _ => Some 0%Z
  | S754_finite s m e =>
      let v := if Z.leb 0 e then Some (Zpos m * 2 ^ e)%Z
               else if Z.eqb (Zpos m mod 2 ^ (- e)) 0
                    then Some (Zpos m / 2 ^ (- e))%Z else None in
      match v with
      | Some z => Some (if s then (- z)%Z else z)
      | None => None
      end
  | _ => None
  end.

Definition NumberToString (x : num) : string :=
  match x with
  | S754_nan => "NaN"
  | S754_infinity s => if s then "-Infinity" else "Infinity"
  | _ =>
      match toInteger x with
      | Some z =>
          if Z.ltb z 0 then "-" ++ decimal (Z.to_N (- z))
          else decimal (Z.to_N z)
      | None => "NaN"
      end
  end.

Definition unsignedNumeral (s : string) : option N :=
  match s with
  | EmptyString => None
  | _ => if allDigits s then Some (digitsValue s 0) else None
  end.

Definition StringToNumber (s : string) : num :=
  let t := Str.trim s in
  match t with
  | EmptyString => zero
  | String c rest =>
      if String.eqb t "Infinity" then POSITIVE_INFINITY
      else if String.eqb t "+Infinity" then POSITIVE_INFINITY
      else if String.eqb t "-Infinity" then NEGATIVE_INFINITY
      else if Ascii.eqb c "-"%char then
        match unsignedNumeral rest with
        | Some n => SFopp (ofZ (Z.of_N n))
        | None => NaN
        end
      else if Ascii.eqb c "+"%char then
        match unsignedNumeral rest with
        | Some n => ofZ (Z.of_N n)
        | None => NaN
        end
      else
        match unsignedNumeral t with
        | Some n => ofZ (Z.of_N n)
        | None => NaN
        end
  end.

Fixpoint compareCodeUnits (a b : string) : comparison :=
  match a, b with
  | EmptyString, EmptyString => Eq
  | EmptyString, String _ _ => Lt
  | String _ _, EmptyString => Gt
  | String x a', String y b' =>
      match N.compare (Str.code x) (Str.code y) with
      | Eq => compareCodeUnits a' b'
      | c => c
      end
  end.

Definition localeCompare (a b : string) : num :=
  match compareCodeUnits a b with
  | Lt => ofZ (-1)
  | Eq => zero
  | Gt => ofZ 1
  end.

Definition host : Host :=
  {| JS.StringToNumber := StringToNumber;
     JS.NumberToString := NumberToString;
     JS.localeCompare := localeCompare |}.

End RefHost.


(** ** Statements of the specification that the code does not satisfy as
    written *)

Module Spec.

Import Num JS ExcelTools.

(** No header passes the two-way containment test. *)
Definition unresolved (column : string) (headers : list string) : Prop :=
  existsb (containsEitherWay column) headers = false.

(** "Column lookup inside TableOps (filter/aggregate/sort/pivot) uses a
    single-stage containment check (header contains term or term contains
    header); an operation whose column argument matches no header by this
    rule fails with ColumnNotFound, naming the requested column": each of
    the four operations fails that way exactly when no header passes the
    two-way test. *)
Definition lookup_as_stated (host : Host) (headers : list string)
  (rows : list row) (column : string) : Prop :=
  (unresolved column headers <->
     failsNaming (filterData host headers rows column "=" CNull) column)
  /\ (unresolved column headers <->
        failsNaming (aggregateData host headers rows column "sum" None) column)
  /\ (unresolved column headers <->
        failsNaming (sortData host headers rows column asc) column)
  /\ (unresolved column headers <->
        failsNaming (createPivotTable host headers rows column column "sum")
                    column).



(** "With groupBy: ... returns one entry per distinct group value with its
    group's numeric count. Groups containing zero numeric target values are
    included with count: 0": every row's group has an entry, whose count is
    the number of numeric values of the group. *)
Definition groups_as_stated (host : Host) (headers : list string)
  (rows : list row) (column operation g : string) : Prop :=
  forall ci gi,
    findIndex (headerContains column) headers = Some ci ->
    findIndex (headerContains g) headers = Some gi ->
    exists results,
      aggregateData host headers rows column operation (Some g)
      = Return (Grouped operation column g results)
      /\ forall r, In r rows ->
           exists e, In e results
                     /\ group e = keyOf host gi r
                     /\ count e = List.length
                                    (groupValues host gi ci (keyOf host gi r)
                                                 rows).

(** "sort(..., asc) then sort(..., desc) on a column yields the reverse row
    order of each other (modulo tie ordering)": the rows one call returns
    are those the other returns, in reverse order up to the order of rows
    with equal sort keys. *)
Definition reverse_as_stated (host : Host) (headers : list string)
  (rows : list row) (column : string) : Prop :=
  forall ci ra rd,
    findIndex (headerContains column) headers = Some ci ->
    sortData host headers rows column asc = Return ra ->
    sortData host headers rows column desc = Return rd ->
    Permutation (sortedRows ra) (rev (sortedRows rd))
    /\ Forall2 (tied host ci) (sortedRows ra) (rev (sortedRows rd)).

(** "aggregate(col, sum) without grouping equals the sum of
    aggregate(col, sum, groupBy) results across all groups, for any
    grouping column, when all target values are numeric." *)
Definition sum_as_stated (host : Host) (headers : list string)
  (rows : list row) (column g : string) : Prop :=
  forall ci gi whole n results,
    findIndex (headerContains column) headers = Some ci ->
    findIndex (headerContains g) headers = Some gi ->
    (forall r, In r rows -> isNaN (Number host (cellAt r ci)) = false) ->
    aggregateData host headers rows column "sum" None
    = Return (Simple "sum" column whole n) ->
    aggregateData host headers rows column "sum" (Some g)
    = Return (Grouped "sum" column g results) ->
    eqb whole (sum (map result results)) = true.


End Spec.

(** ** Tables for the examples *)

Module Examples.

Import Num JS.

Definition numberRow (z : Z) : row := [CNum (ofZ z)].

(** The rows [[from], [from + 1], ..., [from + count - 1]]. *)
Definition numberRows (from : Z) (count : nat) : list row :=
  map (fun i => numberRow (from + Z.of_nat i)) (seq 0 count).

(** Four rows, two of which have the same amount. *)
Definition orders : list row :=
  [ [CStr "a"; CNum (ofZ 10)]; [CStr "b"; CNum (ofZ 2)];
    [CStr "c"; CNum (ofZ 1)];  [CStr "d"; CNum (ofZ 2)] ].

(** One large amount in one region and two small ones in another. *)
Definition ledger : list row :=
  [ [CStr "east"; CNum (ofZ 10000000000000000)];
    [CStr "west"; CNum (ofZ 1)];
    [CStr "west"; CNum (ofZ 1)] ].

(** Amounts that are integers, one of them [null] and one a numeral. *)
Definition sales : list row :=
  [ [CStr "east"; CNum (ofZ 5)]; [CStr "west"; CNum (ofZ (-2))];
    [CStr "east"; CNull];        [CStr "west"; CStr "7"] ].

End Examples.

(** ** The rest of the code around the operations: previews, merging *)

Module Numbers.

Import Num.

(** An integer or an infinity, the result of [ToIntegerOrInfinity]. *)
Inductive extended : Type :=
| Finite (z : Z)
| PlusInfinity
| MinusInfinity.

(** [ToIntegerOrInfinity(x)]: the fraction is cut off, [NaN] is 0. *)
Definition toIntegerOrInfinity (x : num) : extended :=
  match x with
  | S754_nan | S754_zero _ => Finite 0
  | S754_infinity s => if s then MinusInfinity else PlusInfinity
  | S754_finite s m e =>
      let whole := if Z.leb 0 e then (Zpos m * 2 ^ e)%Z
                   else (Zpos m / 2 ^ (- e))%Z in
      Finite (if s then (- whole)%Z else whole)
  end.

(** The truthiness of a number: [0], [-0] and [NaN] are falsy. *)
Definition truthy (x : num) : bool :=
  match x with
  | S754_nan | S754_zero _ => false
  | _ => true
  end.

(** [array.slice(0, end)]: a negative [end] counts from the end of the
    array. *)
Definition sliceTo {A : Type} (l : list A) (e : extended) : list A :=
  match e with
  | MinusInfinity => []
  | PlusInfinity => l
  | Finite z =>
      if Z.ltb z 0
      then firstn (Z.to_nat (Z.max (Z.of_nat (List.length l) + z) 0)) l
      else firstn (Z.to_nat (Z.min z (Z.of_nat (List.length l)))) l
  end.

End Numbers.

(** [ExcelTools.readWorksheet], in a module of its own because its result
    has a field [totalRows] as the result of [sortData] has; with it the
    callers that choose its limit: the [read_worksheet] tools of the two
    agents and the preview route. *)
Module ReadWorksheet.

Import Num JS Numbers.

Record Preview : Type := {
  headers : list string;
  preview : list row;
  totalRows : nat;
  previewRows : nat
}.

(** [readWorksheet(headers, rows, limit = 10)]; [None] is an argument left
    out (or [undefined]), for which the default stands in. *)
Definition readWorksheet (hs : list string) (rows : list row)
  (limit : option num) : Preview :=
  let limit' := match limit with Some l => l | None => ofZ 10 end in
  let shown := sliceTo rows (toIntegerOrInfinity limit') in
  {| headers := hs;
     preview := shown;
     totalRows := List.length rows;
     previewRows := List.length shown |}.

(** The tool of [ExcelAgent]: [({ limit = 10 }) => readWorksheet(headers,
    rows, limit)]. *)
Definition excelAgentTool (hs : list string) (rows : list row)
  (limit : option num) : Preview :=
  readWorksheet hs rows
    (Some (match limit with Some l => l | None => ofZ 10 end)).

(** The tool of [EnhancedExcelAgent]: [const limit = params.limit || 10]. *)
Definition enhancedAgentTool (hs : list string) (rows : list row)
  (limit : option num) : Preview :=
  readWorksheet hs rows
    (Some (match limit with
           | Some l => if truthy l then l else ofZ 10
           | None => ofZ 10
           end)).

(** The body of the preview route once the worksheet is fetched:
    [previewRows = Math.min(10, rows.length)] and
    [rows.slice(0, previewRows)]. *)
Definition routePreview (hs : list string) (rows : list row) : Preview :=
  let shown := Nat.min 10 (List.length rows) in
  {| headers := hs;
     preview := firstn shown rows;
     totalRows := List.length rows;
     previewRows := shown |}.

End ReadWorksheet.

(** [EnhancedExcelAgent.mergeWorksheets]; the database is the function that
    answers the query for one worksheet id. *)
Module MergeWorksheets.

Import JS.

Record Worksheet : Type := {
  name : string;
  headers : list string;
  data : list row
}.

Inductive mergeType : Type := union | intersection.

Record MergeResult : Type := {
  mergedHeaders : list string;
  mergedRows : list row;
  sourceWorksheets : list string;
  mergeTypeUsed : mergeType
}.

(** The [for (const id of worksheetIds)] loop: the worksheets found. *)
Fixpoint fetchAll (db : string -> option Worksheet) (ids : list string)
  : list Worksheet :=
  match ids with
  | [] => []
  | id :: rest =>
      match db id with
      | Some ws => ws :: fetchAll db rest
      | None => fetchAll db rest
      end
  end.

(** [allHeaders.add(h)] on a [Set] kept in insertion order. *)
Definition addHeader (seen : list string) (h : string) : list string :=
  if existsb (String.eqb h) seen then seen else (seen ++ [h])%list.

(** The [worksheets.forEach] loop: the set of headers and the rows. (The
    engine's limit on the number of arguments of one call, which
    [allRows.push(...ws.data)] is subject to, is not part of the model.) *)
Fixpoint collect (worksheets : list Worksheet) (allHeaders : list string)
  (allRows : list row) : list string * list row :=
  match worksheets with
  | [] => (allHeaders, allRows)
  | ws :: rest =>
      collect rest (fold_left addHeader (headers ws) allHeaders)
              (allRows ++ data ws)%list
  end.

Definition mergeWorksheets (db : string -> option Worksheet)
  (worksheetIds : list string) (mt : mergeType) : completion MergeResult :=
  let worksheets := fetchAll db worksheetIds in
  match worksheets with
  | [] => Throw (Error "No worksheets found")
  | _ =>
      let '(allHeaders, allRows) := collect worksheets [] [] in
      Return {| mergedHeaders := allHeaders;
                mergedRows := allRows;
                sourceWorksheets := map name worksheets;
                mergeTypeUsed := mt |}
  end.

End MergeWorksheets.

(** ** The edit distance by its recurrence

    The reference the matrix of [levenshteinDistance] is compared with: the
    distance of two strings given by their characters from the last to the
    first, so that a step of the recurrence drops the last character of a
    prefix, as a step of the matrix does. *)
Module EditDistance.

Fixpoint distance (s t : list ascii) : nat :=
  match s with
  | [] => List.length t
  | a :: s' =>
      (fix inner (t : list ascii) : nat :=
         match t with
         | [] => List.length s
         | b :: t' =>
             Nat.min (Nat.min (distance s' t + 1) (inner t' + 1))
                     (distance s' t' + if Ascii.eqb a b then 0 else 1)
         end) t
  end.

(** One row of the matrix: the distances to [t] of the prefixes of the
    first string from the one read so far, [acc], to the whole string. *)
Fixpoint rowFrom (acc : list ascii) (rest : string) (t : list ascii)
  : list nat :=
  distance acc t
  :: match rest with
     | EmptyString => []
     | String c r => rowFrom (c :: acc) r t
     end.

End EditDistance.

(** ** The alphabet of normalized names *)

Module Slug.

(** The characters of a slug: [a-z0-9_]. *)
Definition isSlugChar (c : ascii) : bool :=
  (Str.inRange 97 122 c || Str.inRange 48 57 c || N.eqb (Str.code c) 95)%bool.

(** A character that is neither white space nor the underscore. *)
Definition isPlain (c : ascii) : bool :=
  (negb (Str.isSpace c) && negb (N.eqb (Str.code c) 95))%bool.

Fixpoint allChars (p : ascii -> bool) (s : string) : bool :=
  match s with
  | EmptyString => true
  | String c s' => (p c && allChars p s')%bool
  end.

End Slug.

(** * Properties *)

(** ** Facts about strings and lookups *)

Module StrFacts.

Lemma prefix_nil (s : string) : String.prefix "" s = true.
Proof. destruct s; reflexivity. Qed.

Lemma prefix_append (c b : string) : String.prefix c (c ++ b) = true.
Proof.
  induction c as [|x c IH]; simpl.
  - apply prefix_nil.
  - destruct (ascii_dec x x) as [_|ne]; [exact IH | now elim ne].
Qed.

Lemma includes_nil (s : string) : Str.includes s "" = true.
Proof. destruct s; reflexivity. Qed.

Lemma includes_prefix (s sub : string) :
  String.prefix sub s = true -> Str.includes s sub = true.
Proof. intros H. destruct s; cbn [Str.includes]; rewrite H; reflexivity. Qed.

Lemma includes_tail (x : ascii) (s sub : string) :
  Str.includes s sub = true -> Str.includes (String x s) sub = true.
Proof.
  intros H. change (Str.includes (String x s) sub)
    with (if String.prefix sub (String x s) then true else Str.includes s sub).
  rewrite H. now destruct (String.prefix sub (String x s)).
Qed.

(** A string occurs in every string built around it. *)
Lemma includes_middle (a c b : string) : Str.includes (a ++ c ++ b) c = true.
Proof.
  induction a as [|x a IH]; simpl String.append.
  - apply includes_prefix, prefix_append.
  - apply includes_tail, IH.
Qed.

Lemma append_assoc (a b c : string) : (a ++ b) ++ c = a ++ b ++ c.
Proof. induction a as [|x a IH]; simpl; [reflexivity | now rewrite IH]. Qed.

End StrFacts.

(** ** Facts about binary64 arithmetic on integers *)

Module NumFacts.

Import Num.
Local Open Scope Z_scope.

Lemma iter_pos_nat {A : Type} (f : A -> A) (p : positive) (x : A) :
  iter_pos f p x = Nat.iter (Pos.to_nat p) f x.
Proof.
  revert x. induction p as [p IH|p IH|]; intros x; cbn [iter_pos].
  - rewrite !IH, Pos2Nat.inj_xI, <- Nat.iter_add, <- Nat.iter_succ_r.
    f_equal. lia.
  - rewrite !IH, Pos2Nat.inj_xO, <- Nat.iter_add. f_equal. lia.
  - reflexivity.
Qed.

Lemma pos_iter_shiftl (m : positive) (p : positive) :
  Pos.iter xO m p = Pos.shiftl_nat m (Pos.to_nat p).
Proof.
  unfold Pos.shiftl_nat. 
  rewrite Pos2Nat.inj_iter. reflexivity.
Qed.

Lemma shiftl_nat_Z (z : positive) (k : nat) :
  Zpos (Pos.shiftl_nat z k) = Zpos z * 2 ^ Z.of_nat k.
Proof.
  induction k as [|k IH].
  - simpl. lia.
  - change (Pos.shiftl_nat z (S k)) with (xO (Pos.shiftl_nat z k)).
    rewrite Pos2Z.inj_xO, IH, Nat2Z.inj_succ, Z.pow_succ_r by lia. lia.
Qed.

Lemma shiftl_nat_add (z : positive) (j k : nat) :
  Pos.shiftl_nat (Pos.shiftl_nat z j) k = Pos.shiftl_nat z (k + j).
Proof.
  induction k as [|k IH]; [reflexivity|].
  change (xO (Pos.shiftl_nat (Pos.shiftl_nat z j) k) = xO (Pos.shiftl_nat z (k + j))).
  now rewrite IH.
Qed.

Lemma digits_shiftl (z : positive) (k : nat) :
  Zpos (digits2_pos (Pos.shiftl_nat z k)) = Zpos (digits2_pos z) + Z.of_nat k.
Proof.
  induction k as [|k IH].
  - simpl. lia.
  - change (Pos.shiftl_nat z (S k)) with (xO (Pos.shiftl_nat z k)).
    cbn [digits2_pos]. rewrite Pos2Z.inj_succ, IH. lia.
Qed.

Lemma digits_lower (z : positive) :
  2 ^ (Zpos (digits2_pos z) - 1) <= Zpos z.
Proof.
  induction z as [z IH|z IH|]; cbn [digits2_pos].
  - rewrite Pos2Z.inj_succ, (Pos2Z.inj_xI z).
    replace (Z.succ (Z.pos (digits2_pos z)) - 1) with (Z.succ (Z.pos (digits2_pos z) - 1)) by lia.
    rewrite Z.pow_succ_r by lia.
    set (t := 2 ^ _) in *. lia.
  - rewrite Pos2Z.inj_succ, (Pos2Z.inj_xO z).
    replace (Z.succ (Z.pos (digits2_pos z)) - 1) with (Z.succ (Z.pos (digits2_pos z) - 1)) by lia.
    rewrite Z.pow_succ_r by lia.
    set (t := 2 ^ _) in *. lia.
  - simpl. lia.
Qed.

Lemma digits_le_53 (z : positive) :
  Zpos z < 2 ^ 53 -> Zpos (digits2_pos z) <= 53.
Proof.
  intros H. pose proof (digits_lower z) as L.
  destruct (Z.le_gt_cases (Zpos (digits2_pos z)) 53) as [|G]; [assumption|].
  assert (2 ^ 53 <= 2 ^ (Zpos (digits2_pos z) - 1)) by (apply Z.pow_le_mono_r; lia).
  lia.
Qed.

Lemma shr_exact (z : positive) (n : nat) :
  Nat.iter n shr_1 {| shr_m := Zpos (Pos.shiftl_nat z n); shr_r := false; shr_s := false |}
  = {| shr_m := Zpos z; shr_r := false; shr_s := false |}.
Proof.
  induction n as [|n IH]; [reflexivity|].
  rewrite Nat.iter_succ_r.
  change (Pos.shiftl_nat z (S n)) with (xO (Pos.shiftl_nat z n)).
  cbn [shr_1 orb]. exact IH.
Qed.


Lemma fexp_small (x : Z) : 1 <= x <= 53 -> fexp prec emax x = x - 53.
Proof. intros Hx. unfold fexp, emin, prec, emax. lia. Qed.

(** Rounding a mantissa that is an exact multiple: nothing is lost. *)
Lemma round_aux_exact (s : bool) (z : positive) (k : nat) :
  Zpos (digits2_pos z) <= 53 ->
  (Z.to_nat (53 - Zpos (digits2_pos z)) <= k)%nat ->
  binary_round_aux prec emax s (Zpos (Pos.shiftl_nat z k)) (- Z.of_nat k)
    loc_Exact
  = S754_finite s
      (Pos.shiftl_nat z (Z.to_nat (53 - Zpos (digits2_pos z))))
      (Zpos (digits2_pos z) - 53).
Proof.
  intros Hd Hk.
  set (d := Zpos (digits2_pos z)) in *.
  assert (Hd1 : 1 <= d) by (unfold d; lia).
  set (j := Z.to_nat (53 - d)) in *.
  assert (Hj : Z.of_nat j = 53 - d) by (unfold j; lia).
  assert (Hcanon : forall e,
            e = d - 53 ->
            (let '(mrs, e'') :=
               shr_fexp prec emax (Zpos (Pos.shiftl_nat z j)) e loc_Exact in
             match shr_m mrs with
             | 0 => S754_zero s
             | Zpos m =>
                 if e'' <=? emax - prec then S754_finite s m e''
                 else S754_infinity s
             | Zneg _ => S754_nan
             end)
            = S754_finite s (Pos.shiftl_nat z j) (d - 53)).
  { intros e ->. unfold shr_fexp. cbn [Zdigits2].
    rewrite digits_shiftl. fold d. rewrite Hj.
    replace (d + (53 - d) + (d - 53)) with d by lia.
    rewrite fexp_small by lia. rewrite Z.sub_diag.
    cbn [shr shr_record_of_loc shr_m].
    destruct (d - 53 <=? emax - prec) eqn:E; [reflexivity|].
    apply Z.leb_gt in E. unfold emax, prec in E. lia. }
  unfold binary_round_aux. unfold shr_fexp at 1. cbn [Zdigits2].
  rewrite digits_shiftl. fold d.
  replace (d + Z.of_nat k + - Z.of_nat k) with d by lia.
  rewrite fexp_small by lia.
  cbn [shr_record_of_loc].
  destruct (d - 53 - - Z.of_nat k) as [|p|p] eqn:E; cbn [shr].
  - cbn [shr_m loc_of_shr_record round_nearest_even].
    assert (k = j) as -> by lia.
    apply Hcanon. lia.
  - rewrite iter_pos_nat.
    assert (Hsplit : k = (Pos.to_nat p + j)%nat) by lia.
    rewrite Hsplit at 1 2. rewrite <- !shiftl_nat_add, !shr_exact.
    cbn [shr_m loc_of_shr_record round_nearest_even].
    apply Hcanon. lia.
  - lia.
Qed.

(** Rounding the exact multiple [z * 2^k] at exponent [-k], for an integer
    [z] below 2^53, gives the normal form of [z]: its 53-bit mantissa and
    the exponent that goes with it. *)
Lemma binary_round_exact (s : bool) (z : positive) (k : nat) :
  Zpos z < 2 ^ 53 ->
  binary_round prec emax s (Pos.shiftl_nat z k) (- Z.of_nat k)
  = S754_finite s
      (Pos.shiftl_nat z (Z.to_nat (53 - Zpos (digits2_pos z))))
      (Zpos (digits2_pos z) - 53).
Proof.
  intros Hz. pose proof (digits_le_53 z Hz) as Hd.
  set (d := Zpos (digits2_pos z)) in *.
  assert (Hd1 : 1 <= d) by (unfold d; lia).
  set (j := Z.to_nat (53 - d)).
  unfold binary_round.
  rewrite digits_shiftl. fold d.
  replace (d + Z.of_nat k + - Z.of_nat k) with d by lia.
  rewrite fexp_small by lia.
  unfold shl_align.
  destruct (d - 53 - - Z.of_nat k) as [|p|p] eqn:E.
  - apply round_aux_exact; fold d; lia.
  - apply round_aux_exact; fold d; lia.
  - rewrite pos_iter_shiftl, shiftl_nat_add.
    replace (Pos.to_nat p + k)%nat with j by (unfold j; lia).
    replace (d - 53) with (- Z.of_nat j) by (unfold j; lia).
    rewrite round_aux_exact; fold d; fold j; [|lia|lia].
    f_equal. unfold j. lia.
Qed.


Lemma ofZ_pos (z : positive) :
  Zpos z < 2 ^ 53 ->
  ofZ (Zpos z)
  = S754_finite false
      (Pos.shiftl_nat z (Z.to_nat (53 - Zpos (digits2_pos z))))
      (Zpos (digits2_pos z) - 53).
Proof. intros H. exact (binary_round_exact false z 0 H). Qed.

Lemma ofZ_neg (z : positive) :
  Zpos z < 2 ^ 53 ->
  ofZ (Zneg z)
  = S754_finite true
      (Pos.shiftl_nat z (Z.to_nat (53 - Zpos (digits2_pos z))))
      (Zpos (digits2_pos z) - 53).
Proof. intros H. exact (binary_round_exact true z 0 H). Qed.

(** Normalising an exact multiple of a power of two of a small integer
    yields the number of that integer. *)
Lemma normalize_exact (S t : Z) (k : nat) :
  S = t * 2 ^ Z.of_nat k -> Z.abs t < 2 ^ 53 ->
  binary_normalize prec emax S (- Z.of_nat k) false = ofZ t.
Proof.
  intros HS Ht. destruct t as [|z|z].
  - subst S. reflexivity.
  - rewrite <- shiftl_nat_Z in HS. subst S. cbn [binary_normalize].
    rewrite binary_round_exact, ofZ_pos by exact Ht. reflexivity.
  - assert (S = Zneg (Pos.shiftl_nat z k)) as ->.
    { rewrite HS. change (Zneg z) with (- Zpos z).
      rewrite Z.mul_opp_l, <- shiftl_nat_Z. reflexivity. }
    cbn [binary_normalize].
    rewrite binary_round_exact, ofZ_neg by exact Ht. reflexivity.
Qed.

Lemma shl_align_fst (mx : positive) (ex ez : Z) :
  ez <= ex ->
  Zpos (fst (shl_align mx ex ez)) = Zpos mx * 2 ^ (ex - ez).
Proof.
  intros H. unfold shl_align. destruct (ez - ex) as [|p|p] eqn:E.
  - replace (ex - ez) with 0 by lia. simpl. lia.
  - lia.
  - cbn [fst]. rewrite pos_iter_shiftl, shiftl_nat_Z.
    f_equal. f_equal. lia.
Qed.

Lemma add_finite (sa sb : bool) (za zb : positive) :
  Zpos za < 2 ^ 53 -> Zpos zb < 2 ^ 53 ->
  Z.abs (cond_Zopp sa (Zpos za) + cond_Zopp sb (Zpos zb)) < 2 ^ 53 ->
  add (ofZ (cond_Zopp sa (Zpos za))) (ofZ (cond_Zopp sb (Zpos zb)))
  = ofZ (cond_Zopp sa (Zpos za) + cond_Zopp sb (Zpos zb)).
Proof.
  intros Ha Hb Hab.
  assert (Hfa : ofZ (cond_Zopp sa (Zpos za))
                = S754_finite sa
                    (Pos.shiftl_nat za (Z.to_nat (53 - Zpos (digits2_pos za))))
                    (Zpos (digits2_pos za) - 53)).
  { destruct sa; [apply ofZ_neg | apply ofZ_pos]; exact Ha. }
  assert (Hfb : ofZ (cond_Zopp sb (Zpos zb))
                = S754_finite sb
                    (Pos.shiftl_nat zb (Z.to_nat (53 - Zpos (digits2_pos zb))))
                    (Zpos (digits2_pos zb) - 53)).
  { destruct sb; [apply ofZ_neg | apply ofZ_pos]; exact Hb. }
  rewrite Hfa, Hfb. unfold add. cbn [SFadd].
  pose proof (digits_le_53 za Ha) as Hda.
  pose proof (digits_le_53 zb Hb) as Hdb.
  set (da := Zpos (digits2_pos za)) in *.
  set (db := Zpos (digits2_pos zb)) in *.
  assert (1 <= da) by (unfold da; lia).
  assert (1 <= db) by (unfold db; lia).
  set (ez := Z.min (da - 53) (db - 53)).
  assert (Hez : ez = - Z.of_nat (Z.to_nat (- ez))) by lia.
  rewrite Hez at 3.
  apply normalize_exact; [|exact Hab].
  rewrite !shl_align_fst by lia.
  rewrite !shiftl_nat_Z.
  rewrite !Z2Nat.id by lia.
  assert (Hpa : 2 ^ (53 - da) * 2 ^ (da - 53 - ez) = 2 ^ (- ez)).
  { rewrite <- Z.pow_add_r by lia. f_equal. lia. }
  assert (Hpb : 2 ^ (53 - db) * 2 ^ (db - 53 - ez) = 2 ^ (- ez)).
  { rewrite <- Z.pow_add_r by lia. f_equal. lia. }
  rewrite <- !Z.mul_assoc, Hpa, Hpb.
  destruct sa, sb; cbn [cond_Zopp]; lia.
Qed.

Lemma cond_Zopp_split (t : Z) :
  t = 0 \/ exists s z, t = cond_Zopp s (Zpos z).
Proof.
  destruct t as [|z|z]; [now left | right; now exists false, z
                                  | right; now exists true, z].
Qed.

Lemma ofZ_finite (s : bool) (z : positive) :
  Zpos z < 2 ^ 53 ->
  ofZ (cond_Zopp s (Zpos z))
  = S754_finite s
      (Pos.shiftl_nat z (Z.to_nat (53 - Zpos (digits2_pos z))))
      (Zpos (digits2_pos z) - 53).
Proof. intros H. destruct s; [now apply ofZ_neg | now apply ofZ_pos]. Qed.

(** Addition is exact on integers whose sum stays below 2^53. *)
Lemma add_ofZ (a b : Z) :
  Z.abs a < 2 ^ 53 -> Z.abs b < 2 ^ 53 -> Z.abs (a + b) < 2 ^ 53 ->
  add (ofZ a) (ofZ b) = ofZ (a + b).
Proof.
  intros Ha Hb Hab.
  destruct (cond_Zopp_split a) as [->|(sa & za & ->)];
    destruct (cond_Zopp_split b) as [->|(sb & zb & ->)].
  - reflexivity.
  - rewrite Z.add_0_l.
    rewrite ofZ_finite by (destruct sb; simpl in Hb; lia). reflexivity.
  - rewrite Z.add_0_r.
    rewrite ofZ_finite by (destruct sa; simpl in Ha; lia). reflexivity.
  - apply add_finite; [destruct sa; simpl in Ha; lia
                      | destruct sb; simpl in Hb; lia | exact Hab].
Qed.

Lemma isNaN_ofZ (z : Z) : Z.abs z < 2 ^ 53 -> isNaN (ofZ z) = false.
Proof.
  intros H. destruct (cond_Zopp_split z) as [->|(s & p & ->)]; [reflexivity|].
  rewrite ofZ_finite by (destruct s; simpl in H; lia). reflexivity.
Qed.

Lemma sub_finite (sa sb : bool) (za zb : positive) :
  Zpos za < 2 ^ 53 -> Zpos zb < 2 ^ 53 ->
  Z.abs (cond_Zopp sa (Zpos za) - cond_Zopp sb (Zpos zb)) < 2 ^ 53 ->
  sub (ofZ (cond_Zopp sa (Zpos za))) (ofZ (cond_Zopp sb (Zpos zb)))
  = ofZ (cond_Zopp sa (Zpos za) - cond_Zopp sb (Zpos zb)).
Proof.
  intros Ha Hb Hab.
  rewrite !ofZ_finite by assumption. unfold sub. cbn [SFsub].
  pose proof (digits_le_53 za Ha) as Hda.
  pose proof (digits_le_53 zb Hb) as Hdb.
  set (da := Zpos (digits2_pos za)) in *.
  set (db := Zpos (digits2_pos zb)) in *.
  assert (1 <= da) by (unfold da; lia).
  assert (1 <= db) by (unfold db; lia).
  set (ez := Z.min (da - 53) (db - 53)).
  assert (Hez : ez = - Z.of_nat (Z.to_nat (- ez))) by lia.
  rewrite Hez at 3.
  apply normalize_exact; [|exact Hab].
  rewrite !shl_align_fst by lia.
  rewrite !shiftl_nat_Z.
  rewrite !Z2Nat.id by lia.
  assert (Hpa : 2 ^ (53 - da) * 2 ^ (da - 53 - ez) = 2 ^ (- ez)).
  { rewrite <- Z.pow_add_r by lia. f_equal. lia. }
  assert (Hpb : 2 ^ (53 - db) * 2 ^ (db - 53 - ez) = 2 ^ (- ez)).
  { rewrite <- Z.pow_add_r by lia. f_equal. lia. }
  rewrite <- !Z.mul_assoc, Hpa, Hpb.
  destruct sa, sb; cbn [cond_Zopp]; lia.
Qed.

(** Subtraction is exact on integers whose difference stays below 2^53. *)
Lemma sub_ofZ (a b : Z) :
  Z.abs a < 2 ^ 53 -> Z.abs b < 2 ^ 53 -> Z.abs (a - b) < 2 ^ 53 ->
  sub (ofZ a) (ofZ b) = ofZ (a - b).
Proof.
  intros Ha Hb Hab.
  destruct (cond_Zopp_split a) as [->|(sa & za & ->)];
    destruct (cond_Zopp_split b) as [->|(sb & zb & ->)].
  - reflexivity.
  - assert (Hz : Zpos zb < 2 ^ 53) by (destruct sb; simpl in Hb; lia).
    replace (0 - cond_Zopp sb (Zpos zb)) with (cond_Zopp (negb sb) (Zpos zb))
      by (destruct sb; simpl; lia).
    rewrite !ofZ_finite by exact Hz. reflexivity.
  - rewrite Z.sub_0_r.
    rewrite ofZ_finite by (destruct sa; simpl in Ha; lia). reflexivity.
  - apply sub_finite; [destruct sa; simpl in Ha; lia
                      | destruct sb; simpl in Hb; lia | exact Hab].
Qed.

(** The sign of the number of an integer is the sign of the integer. *)
Lemma sign_ofZ (z : Z) : Z.abs z < 2 ^ 53 -> sign (ofZ z) = (z ?= 0).
Proof.
  intros H. destruct (cond_Zopp_split z) as [->|(s & p & ->)]; [reflexivity|].
  rewrite ofZ_finite by (destruct s; simpl in H; lia).
  destruct s; reflexivity.
Qed.

Lemma magnitude_nonneg (zs : list Z) : 0 <= magnitude zs.
Proof. induction zs as [|z zs IH]; simpl; lia. Qed.

Lemma abs_total_le (zs : list Z) : Z.abs (total zs) <= magnitude zs.
Proof. induction zs as [|z zs IH]; simpl; lia. Qed.

Lemma total_app (l1 l2 : list Z) : total (l1 ++ l2) = total l1 + total l2.
Proof. induction l1 as [|z l1 IH]; simpl; lia. Qed.

Lemma magnitude_app (l1 l2 : list Z) :
  magnitude (l1 ++ l2) = magnitude l1 + magnitude l2.
Proof. induction l1 as [|z l1 IH]; simpl; lia. Qed.

Lemma total_perm (l1 l2 : list Z) : Permutation l1 l2 -> total l1 = total l2.
Proof. induction 1; simpl; lia. Qed.

Lemma magnitude_perm (l1 l2 : list Z) :
  Permutation l1 l2 -> magnitude l1 = magnitude l2.
Proof. induction 1; simpl; lia. Qed.

Lemma magnitude_In (z : Z) (zs : list Z) : In z zs -> Z.abs z <= magnitude zs.
Proof.
  induction zs as [|y zs IH]; simpl; [tauto|].
  pose proof (magnitude_nonneg zs).
  intros [->|H']; [lia | specialize (IH H'); lia].
Qed.

(** Summing the numbers of integers from the number of an integer is exact
    as long as the magnitudes add up to less than 2^53. *)
Lemma sum_from (zs : list Z) :
  forall acc,
    Z.abs acc + magnitude zs < 2 ^ 53 ->
    fold_left add (map ofZ zs) (ofZ acc) = ofZ (acc + total zs).
Proof.
  induction zs as [|z zs IH]; intros acc H; simpl in *.
  - now rewrite Z.add_0_r.
  - pose proof (magnitude_nonneg zs). pose proof (abs_total_le zs).
    rewrite add_ofZ by lia. rewrite IH by lia. f_equal. lia.
Qed.

Lemma sum_ofZ (zs : list Z) :
  magnitude zs < 2 ^ 53 -> sum (map ofZ zs) = ofZ (total zs).
Proof. intros H. apply (sum_from zs 0). simpl. exact H. Qed.

(** The number of an integer below 2^53 equals itself. *)
Lemma eqb_ofZ (z : Z) : Z.abs z < 2 ^ 53 -> eqb (ofZ z) (ofZ z) = true.
Proof.
  intros H. destruct (cond_Zopp_split z) as [->|(s & p & ->)]; [reflexivity|].
  rewrite ofZ_finite by (destruct s; simpl in H; lia).
  unfold eqb, SFeqb, SFcompare.
  rewrite Z.compare_refl, Pos.compare_cont_refl. now destruct s.
Qed.

End NumFacts.

Module LookupFacts.

Import JS.

Section FindIndex.
Context {A : Type} (p : A -> bool).

Lemma findIndexFrom_None (l : list A) (i : nat) :
  findIndexFrom p l i = None <-> existsb p l = false.
Proof.
  revert i. induction l as [|x l IH]; intros i; simpl.
  - tauto.
  - destruct (p x); simpl; [split; discriminate | apply IH].
Qed.

Lemma findIndex_None (l : list A) :
  findIndex p l = None <-> existsb p l = false.
Proof. apply findIndexFrom_None. Qed.

Lemma findIndexFrom_Some (l : list A) (i j : nat) :
  findIndexFrom p l i = Some j ->
  exists k x, j = i + k /\ nth_error l k = Some x /\ p x = true
              /\ existsb p (firstn k l) = false.
Proof.
  revert i. induction l as [|x l IH]; intros i; simpl; [discriminate|].
  destruct (p x) eqn:Hx.
  - intros [= <-]. exists 0, x. rewrite Nat.add_0_r. now simpl.
  - intros H. destruct (IH _ H) as (k & y & -> & Hn & Hy & Hf).
    exists (S k), y. simpl. rewrite Hx. repeat split; auto; lia.
Qed.

(** [findIndex] yields the position of the first element that passes. *)
Lemma findIndex_Some (l : list A) (j : nat) :
  findIndex p l = Some j ->
  exists x, nth_error l j = Some x /\ p x = true
            /\ existsb p (firstn j l) = false.
Proof.
  intros H. destruct (findIndexFrom_Some _ _ _ H) as (k & x & -> & ?).
  now exists x.
Qed.

Lemma findIndex_exists (l : list A) :
  existsb p l = true -> exists j, findIndex p l = Some j.
Proof.
  intros H. destruct (findIndex p l) as [j|] eqn:E; [now exists j|].
  apply findIndex_None in E. congruence.
Qed.
End FindIndex.

(** A header that contains the term also passes the test of [filterData]. *)
Lemma headerContains_eitherWay (column h : string) :
  ExcelTools.headerContains column h = true ->
  ExcelTools.containsEitherWay column h = true.
Proof.
  unfold ExcelTools.headerContains, ExcelTools.containsEitherWay.
  intros ->. reflexivity.
Qed.

Lemma no_eitherWay_no_headerContains (column : string) (headers : list string) :
  existsb (ExcelTools.containsEitherWay column) headers = false ->
  existsb (ExcelTools.headerContains column) headers = false.
Proof.
  induction headers as [|h hs IH]; simpl; [reflexivity|].
  intros H. apply orb_false_iff in H as [H1 H2].
  rewrite (IH H2), orb_false_r.
  destruct (ExcelTools.headerContains column h) eqn:E; [|reflexivity].
  apply headerContains_eitherWay in E. congruence.
Qed.

(** The message of a not-found error contains the name it was built from. *)
Lemma notFound_names (what name : string) :
  ExcelTools.names (ExcelTools.notFound what name) name = true.
Proof.
  unfold ExcelTools.notFound, ExcelTools.names.
  rewrite <- (StrFacts.append_assoc " " dquote).
  rewrite <- (StrFacts.append_assoc what).
  apply StrFacts.includes_middle.
Qed.

End LookupFacts.

(** ** Facts about the grouping loop *)

Module GroupFacts.

Import Num JS ExcelTools.
Local Open Scope list_scope.

Lemma pushTo_throws (o : object) (key : string) (value : num) (e : exn) :
  pushTo o key value = Throw e -> e = TypeError.
Proof.
  unfold pushTo. destruct (getOwn o key); [discriminate|].
  destruct (inPrototype key); [|discriminate]. now intros [= <-].
Qed.

(** The loop throws nothing but the [TypeError] of a [push] that is not a
    function. *)
Lemma groupRows_throws (host : Host) (keyIndex valueIndex : nat)
  (rows : list row) (groups : object) (e : exn) :
  groupRows host keyIndex valueIndex rows groups = Throw e -> e = TypeError.
Proof.
  revert groups. induction rows as [|r rows IH]; intros groups; simpl.
  - discriminate.
  - destruct (negb (isNaN _)); [|apply IH].
    destruct (pushTo groups _ _) as [groups'|e'] eqn:E.
    + apply IH.
    + intros [= <-]. eapply pushTo_throws, E.
Qed.

Lemma getOwn_None (o : object) (k : string) :
  getOwn o k = None <-> ~ In k (map fst o).
Proof.
  induction o as [|[k' vs] o IH]; simpl.
  - tauto.
  - destruct (String.eqb k' k) eqn:E.
    + apply String.eqb_eq in E. split; [discriminate | tauto].
    + apply String.eqb_neq in E. rewrite IH. tauto.
Qed.

Lemma getOwn_In (o : object) (k : string) (vs : list num) :
  NoDup (map fst o) -> In (k, vs) o <-> getOwn o k = Some vs.
Proof.
  induction o as [|[k' vs'] o IH]; simpl; intros Hnd.
  - split; [tauto | discriminate].
  - inversion Hnd as [|? ? Hnotin Hnd']; subst.
    destruct (String.eqb k' k) eqn:E.
    + apply String.eqb_eq in E. subst k'. split.
      * intros [[= ->]|Hin]; [reflexivity|].
        elim Hnotin. apply (in_map fst) in Hin. exact Hin.
      * intros [= ->]. now left.
    + apply String.eqb_neq in E. rewrite <- (IH Hnd'). split.
      * intros [[= ? ?]|Hin]; [contradiction | exact Hin].
      * intros Hin. now right.
Qed.

Lemma getOwn_app (o o2 : object) (k : string) :
  getOwn (o ++ o2) k
  = match getOwn o k with Some vs => Some vs | None => getOwn o2 k end.
Proof.
  induction o as [|[k' vs] o IH]; simpl; [reflexivity|].
  now destruct (String.eqb k' k).
Qed.

Lemma pushOwn_getOwn (o : object) (kr : string) (v : num) (k : string) :
  getOwn (pushOwn o kr v) k
  = if String.eqb kr k
    then option_map (fun vs => vs ++ [v])%list (getOwn o kr)
    else getOwn o k.
Proof.
  induction o as [|[k' vs] o IH]; simpl.
  - now destruct (String.eqb kr k).
  - destruct (String.eqb k' kr) eqn:E; simpl.
    + apply String.eqb_eq in E. subst k'.
      now destruct (String.eqb kr k).
    + rewrite IH. destruct (String.eqb kr k) eqn:E'; [|reflexivity].
      apply String.eqb_eq in E'. subst k. now rewrite E.
Qed.

Lemma pushOwn_keys (o : object) (kr : string) (v : num) :
  map fst (pushOwn o kr v) = map fst o.
Proof.
  induction o as [|[k' vs] o IH]; simpl; [reflexivity|].
  destruct (String.eqb k' kr); simpl; [reflexivity | now rewrite IH].
Qed.

(** After a [push] the group of the row has the value at its end and every
    other group is as before. *)
Lemma pushTo_getOwn (o : object) (kr : string) (v : num) (o1 : object) :
  pushTo o kr v = Return o1 ->
  forall k, getOwn o1 k
            = if String.eqb kr k
              then Some (match getOwn o kr with
                         | Some vs => vs ++ [v]
                         | None => [v]
                         end)%list
              else getOwn o k.
Proof.
  unfold pushTo. destruct (getOwn o kr) as [vs|] eqn:E.
  - intros [= <-] k. rewrite pushOwn_getOwn, E. reflexivity.
  - destruct (inPrototype kr); [discriminate|]. intros [= <-] k.
    rewrite getOwn_app. simpl.
    destruct (String.eqb kr k) eqn:E'.
    + apply String.eqb_eq in E'. subst k. now rewrite E.
    + now destruct (getOwn o k).
Qed.

Lemma pushTo_NoDup (o : object) (kr : string) (v : num) (o1 : object) :
  pushTo o kr v = Return o1 -> NoDup (map fst o) -> NoDup (map fst o1).
Proof.
  unfold pushTo. destruct (getOwn o kr) as [vs|] eqn:E.
  - intros [= <-]. now rewrite pushOwn_keys.
  - destruct (inPrototype kr); [discriminate|]. intros [= <-] Hnd.
    rewrite map_app. simpl. apply getOwn_None in E.
    apply NoDup_rev in Hnd. rewrite <- (rev_involutive (_ ++ _)).
    apply NoDup_rev. rewrite rev_app_distr. simpl.
    constructor; [now rewrite <- in_rev | exact Hnd].
Qed.

Section Loop.
Variable host : Host.
Variables keyIndex valueIndex : nat.

Lemma groupValues_cons (k : string) (r : row) (rows : list row) :
  groupValues host keyIndex valueIndex k (r :: rows)
  = if (String.eqb (keyOf host keyIndex r) k
        && numeric host valueIndex r)%bool
    then Number host (cellAt r valueIndex)
         :: groupValues host keyIndex valueIndex k rows
    else groupValues host keyIndex valueIndex k rows.
Proof.
  unfold groupValues, numericValues, numeric. simpl.
  destruct (String.eqb (keyOf host keyIndex r) k); simpl; [|reflexivity].
  now destruct (isNaN (Number host (cellAt r valueIndex))).
Qed.

(** A group has values exactly when some row with a number belongs to it. *)
Lemma groupValues_nonempty (k : string) (rows : list row) :
  groupValues host keyIndex valueIndex k rows <> []
  <-> exists r, In r rows /\ keyOf host keyIndex r = k
                /\ numeric host valueIndex r = true.
Proof.
  induction rows as [|r rows IH].
  - split; [intros H; now elim H | intros (r & [] & _)].
  - rewrite groupValues_cons.
    destruct (String.eqb (keyOf host keyIndex r) k) eqn:Ek;
      [destruct (numeric host valueIndex r) eqn:En|]; simpl.
    + apply String.eqb_eq in Ek. split; [|discriminate].
      intros _. exists r. simpl. auto.
    + rewrite IH. split; intros (r' & Hin & Hk & Hn).
      * exists r'. simpl. auto.
      * destruct Hin as [<-|Hin]; [congruence|]. now exists r'.
    + apply String.eqb_neq in Ek. rewrite IH.
      split; intros (r' & Hin & Hk & Hn).
      * exists r'. simpl. auto.
      * destruct Hin as [<-|Hin]; [contradiction|]. now exists r'.
Qed.

(** The loop completes when no row with a number belongs to a group named
    like a property of [Object.prototype]. *)
Lemma groupRows_returns (rows : list row) (groups : object) :
  collides host keyIndex valueIndex rows = false ->
  exists groups', groupRows host keyIndex valueIndex rows groups
                  = Return groups'.
Proof.
  revert groups. induction rows as [|r rows IH]; intros groups; simpl.
  - intros _. now exists groups.
  - intros H. apply orb_false_iff in H as [Hr Hrest].
    fold (numeric host valueIndex r). fold (keyOf host keyIndex r).
    destruct (numeric host valueIndex r); [|now apply IH].
    simpl in Hr. unfold pushTo. rewrite Hr.
    destruct (getOwn groups (keyOf host keyIndex r)); now apply IH.
Qed.

(** When the loop completes, each group holds the numbers of its rows, in
    row order, after what it held before. *)
Lemma groupRows_getOwn (rows : list row) (groups groups' : object) :
  groupRows host keyIndex valueIndex rows groups = Return groups' ->
  forall k,
    getOwn groups' k
    = match getOwn groups k with
      | Some vs =>
          Some (vs ++ groupValues host keyIndex valueIndex k rows)%list
      | None =>
          match groupValues host keyIndex valueIndex k rows with
          | [] => None
          | l => Some l
          end
      end.
Proof.
  revert groups. induction rows as [|r rows IH]; intros groups.
  - simpl. intros [= <-] k. destruct (getOwn groups k); [|reflexivity].
    now rewrite app_nil_r.
  - cbn [groupRows]. fold (numeric host valueIndex r).
    fold (keyOf host keyIndex r). intros H k. rewrite groupValues_cons.
    destruct (numeric host valueIndex r).
    + destruct (pushTo groups _ _) as [g1|] eqn:E; [|discriminate].
      rewrite (IH _ H k), (pushTo_getOwn _ _ _ _ E k).
      destruct (String.eqb (keyOf host keyIndex r) k) eqn:Ek; simpl.
      * apply String.eqb_eq in Ek. rewrite Ek.
        destruct (getOwn groups k); [|reflexivity].
        now rewrite <- app_assoc.
      * reflexivity.
    + rewrite andb_false_r. apply (IH _ H k).
Qed.

Lemma groupRows_NoDup (rows : list row) (groups groups' : object) :
  groupRows host keyIndex valueIndex rows groups = Return groups' ->
  NoDup (map fst groups) -> NoDup (map fst groups').
Proof.
  revert groups. induction rows as [|r rows IH]; intros groups; simpl.
  - now intros [= <-].
  - destruct (negb (isNaN _)); [|apply IH].
    destruct (pushTo groups _ _) as [g1|] eqn:E; [|discriminate].
    intros H Hnd. apply (IH _ H). eapply pushTo_NoDup; eassumption.
Qed.

End Loop.

Lemma insertByIndex_perm {V : Type} (e : string * V) (l : list (string * V)) :
  Permutation (insertByIndex e l) (e :: l).
Proof.
  induction l as [|e' l IH]; simpl; [reflexivity|].
  destruct (N.leb _ _); [reflexivity|].
  rewrite IH. apply perm_swap.
Qed.

Lemma filter_split_perm {A : Type} (p : A -> bool) (l : list A) :
  Permutation (List.filter p l ++ List.filter (fun x => negb (p x)) l) l.
Proof.
  induction l as [|x l IH]; simpl; [reflexivity|].
  destruct (p x); simpl.
  - now constructor.
  - rewrite <- Permutation_middle. now constructor.
Qed.

(** [Object.entries] lists every own property once. *)
Lemma entries_perm {V : Type} (o : list (string * V)) :
  Permutation (entries o) o.
Proof.
  unfold entries.
  rewrite <- (filter_split_perm (fun e => isArrayIndex (fst e)) o) at 3.
  apply Permutation_app_tail.
  induction (List.filter _ o) as [|e l IH]; simpl; [reflexivity|].
  rewrite insertByIndex_perm. now constructor.
Qed.

(** The entries of the object the loop builds from the empty object: one
    for each group that has a number, holding that group's numbers. *)
Lemma groupRows_entries (host : Host) (keyIndex valueIndex : nat)
  (rows : list row) (groups : object) :
  groupRows host keyIndex valueIndex rows [] = Return groups ->
  NoDup (map fst (entries groups))
  /\ forall k vs,
       In (k, vs) (entries groups)
       <-> vs = groupValues host keyIndex valueIndex k rows /\ vs <> [].
Proof.
  intros H.
  pose proof (groupRows_NoDup _ _ _ _ _ _ H (NoDup_nil _)) as Hnd.
  assert (Hp : Permutation (entries groups) groups) by apply entries_perm.
  split.
  - eapply Permutation_NoDup; [|exact Hnd].
    apply Permutation_map, Permutation_sym, Hp.
  - intros k vs. rewrite (Permutation_in' (eq_refl (k, vs)) Hp).
    rewrite (getOwn_In _ _ _ Hnd), (groupRows_getOwn _ _ _ _ _ _ H k).
    simpl. destruct (groupValues host keyIndex valueIndex k rows) as [|x l].
    + split; [discriminate | intros [-> Hne]; now elim Hne].
    + split; [intros [= <-]; split; [reflexivity | discriminate]
             | intros [-> _]; reflexivity].
Qed.

(** A row with a number contributes it to its own group. *)
Lemma groupValues_In (host : Host) (keyIndex valueIndex : nat) (r : row)
  (rows : list row) :
  In r rows -> numeric host valueIndex r = true ->
  In (Number host (cellAt r valueIndex))
     (groupValues host keyIndex valueIndex (keyOf host keyIndex r) rows).
Proof.
  intros Hin Hn. unfold groupValues, numericValues.
  apply filter_In. split; [|exact Hn].
  apply (in_map (fun r0 => Number host (cellAt r0 valueIndex))).
  apply filter_In. split; [exact Hin | apply String.eqb_refl].
Qed.

(** [Object.entries] looks at the names only. *)
Lemma entries_map {V W : Type} (f : V -> W) (o : list (string * V)) :
  entries (map (fun e => (fst e, f (snd e))) o)
  = map (fun e => (fst e, f (snd e))) (entries o).
Proof.
  set (F := fun e : string * V => (fst e, f (snd e))).
  assert (Hfilter : forall (p : string -> bool) l,
            List.filter (fun e => p (fst e)) (map F l)
            = map F (List.filter (fun e => p (fst e)) l)).
  { intros p l. induction l as [|e l IH]; simpl; [reflexivity|].
    destruct (p (fst e)); simpl; now rewrite IH. }
  assert (Hinsert : forall e l,
            insertByIndex (F e) (map F l) = map F (insertByIndex e l)).
  { intros e l. induction l as [|e' l IH]; simpl; [reflexivity|].
    destruct (N.leb _ _); simpl; [reflexivity | now rewrite IH]. }
  unfold entries. rewrite map_app.
  rewrite (Hfilter isArrayIndex). 
  rewrite (Hfilter (fun k => negb (isArrayIndex k))). f_equal.
  induction (List.filter _ o) as [|e l IH]; simpl; [reflexivity|].
  now rewrite IH, Hinsert.
Qed.

Lemma pushOwn_ofIntegers (gz : list (string * list Z)) (k : string) (z : Z)
  (vs : list num) :
  getOwn (ofIntegers gz) k = Some vs ->
  exists gz1,
    pushOwn (ofIntegers gz) k (ofZ z) = ofIntegers gz1
    /\ Permutation (flat_map snd gz1) (z :: flat_map snd gz).
Proof.
  induction gz as [|[k' l] gz IH]; simpl; [discriminate|].
  destruct (String.eqb k' k).
  - intros _. exists ((k', l ++ [z]) :: gz). simpl. rewrite map_app. split.
    + reflexivity.
    + rewrite <- app_assoc. simpl. apply Permutation_sym, Permutation_middle.
  - intros H. destruct (IH H) as (gz1 & E & Hp).
    exists ((k', l) :: gz1). simpl. rewrite E. split; [reflexivity|].
    rewrite Hp. apply Permutation_sym, Permutation_middle.
Qed.

Lemma pushTo_ofIntegers (gz : list (string * list Z)) (k : string) (z : Z)
  (g1 : object) :
  pushTo (ofIntegers gz) k (ofZ z) = Return g1 ->
  exists gz1,
    g1 = ofIntegers gz1
    /\ Permutation (flat_map snd gz1) (z :: flat_map snd gz).
Proof.
  unfold pushTo. destruct (getOwn (ofIntegers gz) k) as [vs|] eqn:E.
  - intros [= <-]. destruct (pushOwn_ofIntegers gz k z vs E) as (gz1 & H1 & H2).
    now exists gz1.
  - destruct (inPrototype k); [discriminate|]. intros [= <-].
    exists (gz ++ [(k, [z])]). unfold ofIntegers. rewrite map_app. split.
    + reflexivity.
    + rewrite flat_map_app. simpl.
      apply Permutation_sym, Permutation_cons_append.
Qed.

(** On a column of integers the loop keeps every value, each in one group. *)
Lemma groupRows_ofIntegers (host : Host) (ki vi : nat) (rows : list row)
  (zs : list Z) :
  Forall2 (fun r z => Number host (cellAt r vi) = ofZ z) rows zs ->
  (forall z, In z zs -> (Z.abs z < 2 ^ 53)%Z) ->
  forall gz g',
    groupRows host ki vi rows (ofIntegers gz) = Return g' ->
    exists gz',
      g' = ofIntegers gz'
      /\ Permutation (flat_map snd gz') (zs ++ flat_map snd gz).
Proof.
  induction 1 as [|r z rows zs Hr _ IH]; intros Hsmall gz g'.
  - simpl. intros [= <-]. now exists gz.
  - cbn [groupRows]. rewrite Hr.
    rewrite NumFacts.isNaN_ofZ by (apply Hsmall; now left). cbn [negb].
    destruct (pushTo (ofIntegers gz) _ (ofZ z)) as [g1|] eqn:E;
      [|discriminate].
    apply pushTo_ofIntegers in E as (gz1 & -> & Hp1). intros H.
    destruct (IH (fun y Hy => Hsmall y (or_intror Hy)) gz1 g' H)
      as (gz' & -> & Hp).
    exists gz'. split; [reflexivity|].
    rewrite Hp, Hp1. simpl. apply Permutation_sym, Permutation_middle.
Qed.

Lemma numericValues_integers (host : Host) (ci : nat) (rows : list row)
  (zs : list Z) :
  Forall2 (fun r z => Number host (cellAt r ci) = ofZ z) rows zs ->
  (forall z, In z zs -> (Z.abs z < 2 ^ 53)%Z) ->
  numericValues host ci rows = map ofZ zs.
Proof.
  unfold numericValues.
  induction 1 as [|r z rows zs Hr _ IH]; intros Hsmall; [reflexivity|].
  simpl. rewrite Hr, NumFacts.isNaN_ofZ by (apply Hsmall; now left).
  simpl. f_equal. apply IH. intros y Hy. apply Hsmall. now right.
Qed.

(** The sum of the sums of the groups is exact as well. *)
Lemma sum_groups (gz : list (string * list Z)) :
  forall acc,
    (Z.abs acc + magnitude (flat_map snd gz) < 2 ^ 53)%Z ->
    fold_left add (map (fun e => sum (snd e)) (ofIntegers gz)) (ofZ acc)
    = ofZ (acc + total (flat_map snd gz)).
Proof.
  induction gz as [|[k l] gz IH]; intros acc H; simpl in *.
  - now rewrite Z.add_0_r.
  - rewrite NumFacts.magnitude_app in H.
    pose proof (NumFacts.magnitude_nonneg l).
    pose proof (NumFacts.magnitude_nonneg (flat_map snd gz)).
    pose proof (NumFacts.abs_total_le l).
    rewrite NumFacts.sum_ofZ by lia.
    rewrite NumFacts.add_ofZ by lia.
    rewrite IH by lia. rewrite NumFacts.total_app. f_equal. lia.
Qed.

End GroupFacts.

(** ** Facts about sorting *)

Module SortFacts.

Import Num JS ExcelTools.
Local Open Scope list_scope.

Section Comparator.
Context {A : Type}.
Variable cmp : A -> A -> num.

Lemma insertSorted_perm (x : A) (l : list A) :
  Permutation (insertSorted cmp x l) (x :: l).
Proof.
  induction l as [|y l IH]; simpl; [reflexivity|].
  destruct (sign (cmp x y)); try reflexivity.
  rewrite IH. apply perm_swap.
Qed.

(** Sorting rearranges the rows and loses or adds none. *)
Lemma sort_perm (l : list A) : Permutation (sort cmp l) l.
Proof.
  induction l as [|x l IH]; simpl; [reflexivity|].
  unfold sort in *. simpl. rewrite insertSorted_perm. now constructor.
Qed.

Lemma sort_length (l : list A) : List.length (sort cmp l) = List.length l.
Proof. apply Permutation_length, sort_perm. Qed.

(** The elements sorted, and the consistency of the comparator on them. *)
Variable P : A -> Prop.
Hypothesis flips :
  forall a b, P a -> P b -> sign (cmp a b) = CompOpp (sign (cmp b a)).
Hypothesis transitive :
  forall a b c, P a -> P b -> P c ->
    before cmp a b = true -> before cmp b c = true -> before cmp a c = true.

Lemma before_self (a : A) : P a -> before cmp a a = true.
Proof.
  intros Ha. unfold before. pose proof (flips a a Ha Ha) as H.
  destruct (sign (cmp a a)); try reflexivity. discriminate.
Qed.

Lemma before_total (a b : A) :
  P a -> P b -> before cmp a b = false -> before cmp b a = true.
Proof.
  intros Ha Hb. unfold before. rewrite (flips a b Ha Hb).
  now destruct (sign (cmp b a)).
Qed.

Lemma tie_before (a b : A) :
  P a -> P b ->
  sign (cmp a b) = Eq <-> before cmp a b = true /\ before cmp b a = true.
Proof.
  intros Ha Hb. unfold before. rewrite (flips a b Ha Hb).
  destruct (sign (cmp b a)); simpl; intuition discriminate.
Qed.

Lemma tie_refl (a : A) : P a -> sign (cmp a a) = Eq.
Proof.
  intros Ha. pose proof (flips a a Ha Ha) as H.
  destruct (sign (cmp a a)); try reflexivity; discriminate.
Qed.

Lemma ties_refl (l : list A) :
  Forall P l -> Forall2 (fun a b => sign (cmp a b) = Eq) l l.
Proof.
  induction 1 as [|x l Hx Hl IH]; constructor; [now apply tie_refl | exact IH].
Qed.

Lemma tie_sym (a b : A) :
  P a -> P b -> sign (cmp a b) = Eq -> sign (cmp b a) = Eq.
Proof. intros Ha Hb. rewrite !tie_before by assumption. tauto. Qed.

Lemma tie_trans (a b c : A) :
  P a -> P b -> P c ->
  sign (cmp a b) = Eq -> sign (cmp b c) = Eq -> sign (cmp a c) = Eq.
Proof.
  intros Ha Hb Hc. rewrite !tie_before by assumption.
  intros [H1 H2] [H3 H4]. split; eapply transitive; eauto.
Qed.

Lemma insertSorted_sorted (x : A) (l : list A) :
  P x -> Forall P l ->
  StronglySorted (fun a b => before cmp a b = true) l ->
  StronglySorted (fun a b => before cmp a b = true) (insertSorted cmp x l).
Proof.
  intros Hx Hl Hs. induction Hs as [|y l Hs IH Hy]; simpl.
  - repeat constructor.
  - inversion Hl as [|? ? Py Pl]; subst.
    destruct (sign (cmp x y)) eqn:E.
    + assert (Hxy : before cmp x y = true) by (unfold before; now rewrite E).
      constructor; [now constructor|]. constructor; [exact Hxy|].
      rewrite Forall_forall in Hy, Pl |- *. intros z Hz.
      apply (transitive x y z); auto.
    + assert (Hxy : before cmp x y = true) by (unfold before; now rewrite E).
      constructor; [now constructor|]. constructor; [exact Hxy|].
      rewrite Forall_forall in Hy, Pl |- *. intros z Hz.
      apply (transitive x y z); auto.
    + assert (Hyx : before cmp y x = true).
      { apply before_total; auto. unfold before. now rewrite E. }
      constructor; [now apply IH|].
      eapply Permutation_Forall;
        [apply Permutation_sym, insertSorted_perm|].
      now constructor.
Qed.

(** On a consistent comparator the result of [sort] is in order. *)
Lemma sort_sorted (l : list A) :
  Forall P l -> StronglySorted (fun a b => before cmp a b = true) (sort cmp l).
Proof.
  induction 1 as [|x l Hx Hl IH]; [constructor|].
  unfold sort in *. simpl. apply insertSorted_sorted; auto.
  eapply Permutation_Forall; [apply Permutation_sym, (sort_perm l)|].
  exact Hl.
Qed.

(** Two orderings of the same rows agree position by position, up to ties.
    [Z] is [X] rearranged, and [Y] is [Z] up to ties. *)
Lemma sorted_tied (X : list A) :
  forall Y Z,
    Forall P X -> Forall P Y ->
    StronglySorted (fun a b => before cmp a b = true) X ->
    StronglySorted (fun a b => before cmp a b = true) Y ->
    Permutation X Z ->
    Forall2 (fun a b => sign (cmp a b) = Eq) Z Y ->
    Forall2 (fun a b => sign (cmp a b) = Eq) X Y.
Proof.
  induction X as [|a X IH]; intros Y Z PX PY SX SY Hperm Hties.
  - apply Permutation_nil in Hperm. subst Z. inversion Hties. constructor.
  - assert (PZ : Forall P Z) by (eapply Permutation_Forall; eassumption).
    inversion PX as [|? ? Pa PX']; subst.
    inversion SX as [|? ? SX' Ha]; subst.
    assert (Hin : In a Z) by (eapply Permutation_in; [exact Hperm | now left]).
    apply in_split in Hin as (l1 & l2 & ->).
    apply Permutation_cons_app_inv in Hperm.
    apply Forall2_app_inv_l in Hties as (Y1 & Y2' & H1 & H2 & ->).
    inversion H2 as [|? ya ? Y2 Hya H2']; subst. clear H2.
    apply Forall_app in PZ as [Pl1 Pl2].
    inversion Pl2 as [|? ? _ Pl2']; subst.
    destruct l1 as [|b0 l1].
    + inversion H1; subst. simpl in *.
      inversion PY; subst. inversion SY; subst.
      constructor; [exact Hya|]. eapply IH; eauto.
    + inversion H1 as [|? b ? Y1' Hb H1']; subst. clear H1. simpl in *.
      inversion PY as [|? ? Pb PY']; subst.
      inversion SY as [|? ? SY' Hbmin]; subst.
      inversion Pl1 as [|? ? Pb0 Pl1']; subst.
      assert (Pya : P ya).
      { rewrite Forall_forall in PY'. apply PY'.
        apply in_or_app. right. now left. }
      assert (Hab0 : before cmp a b0 = true).
      { rewrite Forall_forall in Ha. apply Ha.
        eapply Permutation_in; [apply Permutation_sym, Hperm | now left]. }
      assert (Hbya : before cmp b ya = true).
      { rewrite Forall_forall in Hbmin. apply Hbmin.
        apply in_or_app. right. now left. }
      assert (Hab : sign (cmp a b) = Eq).
      { apply tie_before; auto. apply tie_before in Hb, Hya; auto. split.
        - apply (transitive a b0 b); tauto.
        - apply (transitive b ya a); tauto. }
      constructor; [exact Hab|].
      apply (IH _ (l1 ++ b0 :: l2)); auto.
      * rewrite <- Permutation_middle. exact Hperm.
      * apply Forall2_app; [exact H1'|]. constructor; [|exact H2'].
        apply (tie_trans b0 b ya); auto.
        apply (tie_trans b a ya); auto. now apply tie_sym.
Qed.

End Comparator.

Lemma Forall2_hd {A : Type} (R : A -> A -> Prop) (l1 l2 : list A) :
  Forall2 R l1 l2 ->
  forall a b, hd_error l1 = Some a -> hd_error l2 = Some b -> R a b.
Proof.
  intros [|x y l1' l2' Hxy _] a b; simpl; [discriminate|].
  now intros [= <-] [= <-].
Qed.

Lemma insertSorted_ext {A : Type} (c1 c2 : A -> A -> num) (x : A)
  (l : list A) :
  (forall a b, c1 a b = c2 a b) -> insertSorted c1 x l = insertSorted c2 x l.
Proof.
  intros H. induction l as [|y l IH]; simpl; [reflexivity|].
  rewrite H, IH. reflexivity.
Qed.

Lemma sort_ext {A : Type} (c1 c2 : A -> A -> num) (l : list A) :
  (forall a b, c1 a b = c2 a b) -> sort c1 l = sort c2 l.
Proof.
  intros H. induction l as [|x l IH]; [reflexivity|].
  unfold sort in *. simpl. rewrite IH. now apply insertSorted_ext.
Qed.

Lemma sorted_snoc {A : Type} (R : A -> A -> Prop) (l : list A) (a : A) :
  StronglySorted R l -> Forall (fun x => R x a) l ->
  StronglySorted R (l ++ [a]).
Proof.
  induction 1 as [|y l Hs IH Hy]; intros Hl; simpl.
  - repeat constructor.
  - inversion Hl; subst. constructor; [now apply IH|].
    apply Forall_app. split; [exact Hy | now repeat constructor].
Qed.

(** A list in descending order, reversed, is in ascending order. *)
Lemma sorted_rev {A : Type} (R : A -> A -> Prop) (l : list A) :
  StronglySorted (fun a b => R b a) l -> StronglySorted R (rev l).
Proof.
  induction 1 as [|y l Hs IH Hy]; simpl; [constructor|].
  apply sorted_snoc; [exact IH|]. now apply Forall_rev.
Qed.

(** What the executable test of consistency establishes. *)
Lemma consistentOn_spec {A : Type} (cmp : A -> A -> num) (l : list A) :
  consistentOn cmp l = true ->
  (forall a b, In a l -> In b l ->
     sign (cmp a b) = CompOpp (sign (cmp b a)))
  /\ (forall a b c, In a l -> In b l -> In c l ->
        before cmp a b = true -> before cmp b c = true ->
        before cmp a c = true).
Proof.
  unfold consistentOn. intros H. rewrite forallb_forall in H. split.
  - intros a b Ha Hb. specialize (H a Ha). rewrite forallb_forall in H.
    specialize (H b Hb). apply andb_true_iff in H as [H _].
    destruct (sign (cmp a b)), (sign (cmp b a)); simpl in *;
      congruence.
  - intros a b c Ha Hb Hc Hab Hbc. specialize (H a Ha).
    rewrite forallb_forall in H. specialize (H b Hb).
    apply andb_true_iff in H as [_ H]. rewrite forallb_forall in H.
    specialize (H c Hc). rewrite Hab, Hbc in H. exact H.
Qed.

(** The descending comparator is the ascending one with its arguments
    exchanged. *)
Lemma compareRows_desc (host : Host) (ci : nat) (a b : row) :
  compareRows host desc ci a b = compareRows host asc ci b a.
Proof.
  unfold compareRows. rewrite andb_comm. reflexivity.
Qed.

(** Without the cap: on a consistent comparator the ascending order is the
    descending order reversed, up to ties. *)
Lemma sort_asc_desc (host : Host) (ci : nat) (rows : list row) :
  consistentOn (compareRows host asc ci) rows = true ->
  Permutation (sort (compareRows host asc ci) rows)
              (rev (sort (compareRows host desc ci) rows))
  /\ Forall2 (tied host ci)
       (sort (compareRows host asc ci) rows)
       (rev (sort (compareRows host desc ci) rows)).
Proof.
  intros Hc. apply consistentOn_spec in Hc as [Hflip Htrans].
  set (cA := compareRows host asc ci) in *.
  set (cD := fun a b => cA b a).
  rewrite (sort_ext (compareRows host desc ci) cD)
    by (intros a b; apply compareRows_desc).
  assert (Prows : Forall (fun r => In r rows) rows)
    by (apply Forall_forall; auto).
  assert (Hperm : Permutation (sort cA rows) (rev (sort cD rows))).
  { rewrite <- Permutation_rev, !sort_perm. reflexivity. }
  assert (PA : Forall (fun r => In r rows) (sort cA rows)).
  { eapply Permutation_Forall; [apply Permutation_sym, sort_perm|].
    exact Prows. }
  assert (PD : Forall (fun r => In r rows) (rev (sort cD rows))).
  { eapply Permutation_Forall; [exact Hperm | exact PA]. }
  split; [exact Hperm|].
  apply (sorted_tied cA (fun r => In r rows) Hflip Htrans _ _
           (rev (sort cD rows))); auto.
  - apply (sort_sorted cA (fun r => In r rows)); auto.
  - apply sorted_rev.
    apply (sort_sorted cD (fun r => In r rows)); auto.
    + intros a b Ha Hb. unfold cD. auto.
    + intros a b c Ha Hb Hc. unfold before, cD.
      intros H1 H2. apply (Htrans c b a); auto.
  - apply (ties_refl cA (fun r => In r rows) Hflip). exact PD.
Qed.

(** On rows whose cells are integers below 2^52 the comparator is the
    comparison of the integers. *)
Lemma compareRows_integers (host : Host) (ci : nat) (a b : row) (za zb : Z) :
  Number host (cellAt a ci) = ofZ za ->
  Number host (cellAt b ci) = ofZ zb ->
  (Z.abs za < 2 ^ 52)%Z -> (Z.abs zb < 2 ^ 52)%Z ->
  sign (compareRows host asc ci a b) = (za ?= zb)%Z.
Proof.
  intros Ha Hb Hza Hzb. unfold compareRows. rewrite Ha, Hb.
  assert (H52 : (2 ^ 53 = 2 * 2 ^ 52)%Z) by reflexivity.
  rewrite !NumFacts.isNaN_ofZ by lia. cbn [negb andb].
  rewrite NumFacts.sub_ofZ, NumFacts.sign_ofZ by lia.
  symmetry. apply Z.compare_sub.
Qed.

(** So it is consistent on every table whose column holds such integers. *)
Lemma integers_consistent (host : Host) (ci : nat) (rows : list row) :
  (forall r, In r rows ->
     exists z, Number host (cellAt r ci) = ofZ z /\ (Z.abs z < 2 ^ 52)%Z) ->
  consistentOn (compareRows host asc ci) rows = true.
Proof.
  intros H. unfold consistentOn.
  apply forallb_forall. intros a Ha. destruct (H a Ha) as (za & Ea & Hza).
  apply forallb_forall. intros b Hb. destruct (H b Hb) as (zb & Eb & Hzb).
  apply andb_true_iff. split.
  - rewrite (compareRows_integers host ci a b za zb),
            (compareRows_integers host ci b a zb za) by assumption.
    rewrite (Z.compare_antisym za zb). now destruct (za ?= zb)%Z.
  - apply forallb_forall. intros c Hc. destruct (H c Hc) as (zc & Ec & Hzc).
    unfold before.
    rewrite (compareRows_integers host ci a b za zb),
            (compareRows_integers host ci b c zb zc),
            (compareRows_integers host ci a c za zc) by assumption.
    destruct (Z.compare_spec za zb), (Z.compare_spec zb zc),
             (Z.compare_spec za zc); simpl; try reflexivity; lia.
Qed.

(** The rows [[from], ..., [from + count - 1]] hold such integers. *)
Lemma numberRows_consistent (host : Host) (from : Z) (count : nat) :
  (Z.abs from + Z.of_nat count < 2 ^ 52)%Z ->
  consistentOn (compareRows host asc 0) (Examples.numberRows from count)
  = true.
Proof.
  intros Hb. apply integers_consistent. intros r Hr.
  unfold Examples.numberRows in Hr. apply in_map_iff in Hr as (i & <- & Hi).
  apply in_seq in Hi. exists (from + Z.of_nat i)%Z. split; [reflexivity|lia].
Qed.

End SortFacts.

(** ** Facts about the stages of [findBestMatch] *)

Module MatchFacts.

Import ColumnMapper.
Local Open Scope list_scope.

Lemma prefix_refl (s : string) : String.prefix s s = true.
Proof.
  induction s as [|c s IH]; [reflexivity|]. simpl.
  destruct (ascii_dec c c) as [_|ne]; [exact IH | now elim ne].
Qed.

Lemma includes_refl (s : string) : Str.includes s s = true.
Proof. apply StrFacts.includes_prefix, prefix_refl. Qed.

Lemma find_none_all {A : Type} (p : A -> bool) (l : list A) :
  (forall x, In x l -> p x = false) -> find p l = None.
Proof.
  induction l as [|x l IH]; intros H; simpl; [reflexivity|].
  rewrite (H x (or_introl eq_refl)). apply IH. intros y Hy. apply H. now right.
Qed.

Lemma orElse_Some (m other : option string) (h : string) :
  orElse m other = Some h -> m = Some h \/ other = Some h.
Proof.
  unfold orElse. destruct m as [col|]; [|now right].
  destruct (truthy col); [now left | now right].
Qed.

Lemma orElse_None (m other : option string) :
  orElse m other = None -> other = None.
Proof.
  unfold orElse. destruct m as [col|]; [|easy].
  destruct (truthy col); [discriminate | easy].
Qed.

Section Fuzzy.
Variable nq : string.

Lemma fuzzyLoop_In (cols : list string) :
  forall bm bs r,
    fuzzyLoop nq cols bm bs = Some r -> bm = Some r \/ In r cols.
Proof.
  induction cols as [|c cols IH]; intros bm bs r; simpl.
  - now left.
  - destruct (match bs with None => true | Some b => _ end).
    + intros H. apply IH in H as [[= ->]|H]; auto.
    + intros H. apply IH in H as [H|H]; auto.
Qed.

Lemma fuzzyLoop_started (cols : list string) :
  forall b bs, exists r, fuzzyLoop nq cols (Some b) bs = Some r.
Proof.
  induction cols as [|c cols IH]; intros b bs; simpl.
  - now exists b.
  - destruct (match bs with None => true | Some b0 => _ end); apply IH.
Qed.

(** The loop keeps the first column of least distance. *)
Lemma fuzzyLoop_best (cols : list string) :
  forall b,
    exists r pre post,
      fuzzyLoop nq cols (Some b)
        (Some (levenshteinDistance nq (normalizeColumnName b))) = Some r
      /\ b :: cols = pre ++ r :: post
      /\ Forall (fun c => levenshteinDistance nq (normalizeColumnName r)
                          < levenshteinDistance nq (normalizeColumnName c)) pre
      /\ Forall (fun c => levenshteinDistance nq (normalizeColumnName r)
                          <= levenshteinDistance nq (normalizeColumnName c))
                post.
Proof.
  set (d := fun c => levenshteinDistance nq (normalizeColumnName c)).
  induction cols as [|c cols IH]; intros b.
  - exists b, [], []. simpl. repeat split; constructor.
  - cbn [fuzzyLoop]. fold (d c). fold (d b).
    destruct (Nat.ltb (d c) (d b)) eqn:E.
    + apply Nat.ltb_lt in E.
      destruct (IH c) as (r & pre & post & Hr & Hsplit & Hpre & Hpost).
      exists r, (b :: pre), post. fold (d c) in Hr. fold (d r) in *.
      split; [exact Hr|]. split; [simpl; now rewrite <- Hsplit|].
      split; [|exact Hpost].
      constructor; [|exact Hpre].
      destruct pre as [|x pre].
      * injection Hsplit as -> _. unfold d in *. exact E.
      * injection Hsplit as <- _. inversion Hpre; subst.
        cbv beta in *. unfold d in *. lia.
    + apply Nat.ltb_ge in E.
      destruct (IH b) as (r & pre & post & Hr & Hsplit & Hpre & Hpost).
      fold (d b) in Hr. fold (d r) in *.
      destruct pre as [|x pre].
      * injection Hsplit as <- <-.
        exists b, [], (c :: cols). repeat split; auto.
      * injection Hsplit as <- ->.
        exists r, (b :: c :: pre), post.
        split; [exact Hr|]. split; [reflexivity|]. split; [|exact Hpost].
        inversion Hpre; subst.
        constructor; [assumption|].
        constructor; [cbv beta in *; unfold d in *; lia | assumption].
Qed.

End Fuzzy.

End MatchFacts.

(** ** The stages of [findBestMatch] *)

Module StageFacts.

Local Open Scope list_scope.

(** [find] returns the first element that passes the test. *)
Lemma find_first {A : Type} (p : A -> bool) (before after : list A) (h : A) :
  (forall c, In c before -> p c = false) -> p h = true ->
  find p (before ++ h :: after) = Some h.
Proof.
  intros Hb Hh. induction before as [|c before IH]; simpl.
  - now rewrite Hh.
  - rewrite (Hb c (or_introl eq_refl)). apply IH.
    intros c' Hc'. apply Hb. now right.
Qed.




End StageFacts.

(** ** The first header that passes the test *)

Module FirstFacts.

Import Num JS ExcelTools.
Local Open Scope list_scope.

Section FindIndex.
Context {A : Type}.
Variable p : A -> bool.

(** [findIndex] returns the first position that passes the test. *)
Lemma findIndexFrom_first (l : list A) (base i : nat) (x : A) :
  nth_error l i = Some x -> p x = true ->
  exists j, j <= i /\ findIndexFrom p l base = Some (base + j)
            /\ (existsb p (firstn i l) = false -> j = i).
Proof.
  revert base i. induction l as [|y l IH]; intros base i Hi Hx.
  - destruct i; discriminate.
  - simpl. destruct (p y) eqn:Hy.
    + exists 0. split; [lia|]. split; [f_equal; lia|].
      destruct i; [reflexivity|]. simpl. rewrite Hy. discriminate.
    + destruct i as [|i]; [simpl in Hi; congruence|].
      simpl in Hi. destruct (IH (S base) i Hi Hx) as (j & Hj & E & Hfirst).
      exists (S j). split; [lia|]. split.
      * rewrite E. f_equal. lia.
      * simpl. rewrite Hy. simpl. intros H. f_equal. now apply Hfirst.
Qed.

Lemma findIndex_first (l : list A) (i : nat) (x : A) :
  nth_error l i = Some x -> p x = true ->
  exists j, j <= i /\ findIndex p l = Some j
            /\ (existsb p (firstn i l) = false -> j = i).
Proof.
  intros Hi Hx.
  destruct (findIndexFrom_first l 0 i x Hi Hx) as (j & Hj & E & Hf).
  exists j. now repeat split.
Qed.
End FindIndex.

Lemma headerContains_nil (h : string) : headerContains "" h = true.
Proof. unfold headerContains. apply StrFacts.includes_nil. Qed.

Lemma containsEitherWay_nil (h : string) : containsEitherWay "" h = true.
Proof.
  unfold containsEitherWay.
  change (Str.toLowerCase "") with "".
  now rewrite StrFacts.includes_nil.
Qed.

(** The first position that passes the test is what [findIndex] returns,
    and [findIndex] returns nothing else. *)
Lemma findIndex_at {A : Type} (p : A -> bool) (l : list A) (j : nat) (x : A) :
  nth_error l j = Some x -> p x = true ->
  existsb p (firstn j l) = false ->
  findIndex p l = Some j.
Proof.
  intros Hj Hx Hfirst.
  destruct (findIndex_first p l j x Hj Hx) as (j' & _ & E & Hsame).
  now rewrite E, (Hsame Hfirst).
Qed.

Lemma first_exists {A : Type} (p : A -> bool) (l : list A) :
  existsb p l = true ->
  exists j x, nth_error l j = Some x /\ p x = true
              /\ existsb p (firstn j l) = false.
Proof.
  intros H. apply LookupFacts.findIndex_exists in H as [j Hj].
  destruct (LookupFacts.findIndex_Some p l j Hj) as (x & Hx).
  now exists j, x.
Qed.

End FirstFacts.

(** ** The order of the numbers of integers *)

Module OrderFacts.

Import Num.
Local Open Scope Z_scope.

Lemma digits_upper (z : positive) : Zpos z < 2 ^ Zpos (digits2_pos z).
Proof.
  induction z as [z IH|z IH|]; cbn [digits2_pos].
  - rewrite Pos2Z.inj_succ, (Pos2Z.inj_xI z), Z.pow_succ_r by lia. lia.
  - rewrite Pos2Z.inj_succ, (Pos2Z.inj_xO z), Z.pow_succ_r by lia. lia.
  - reflexivity.
Qed.

Lemma compare_shiftl (a b : positive) (k : nat) :
  Pos.compare_cont Eq (Pos.shiftl_nat a k) (Pos.shiftl_nat b k)
  = Pos.compare a b.
Proof.
  induction k as [|k IH]; [reflexivity|].
  change (Pos.shiftl_nat a (S k)) with (xO (Pos.shiftl_nat a k)).
  change (Pos.shiftl_nat b (S k)) with (xO (Pos.shiftl_nat b k)).
  exact IH.
Qed.

(** Fewer binary digits, smaller number. *)
Lemma digits_lt (a b : positive) :
  Zpos (digits2_pos a) < Zpos (digits2_pos b) -> Zpos a < Zpos b.
Proof.
  intros H. pose proof (digits_upper a) as Ua.
  pose proof (NumFacts.digits_lower b) as Lb.
  assert (2 ^ Zpos (digits2_pos a) <= 2 ^ (Zpos (digits2_pos b) - 1))
    by (apply Z.pow_le_mono_r; lia).
  lia.
Qed.

Lemma compare_finite (sa sb : bool) (a b : positive) :
  Zpos a < 2 ^ 53 -> Zpos b < 2 ^ 53 ->
  SFcompare (ofZ (cond_Zopp sa (Zpos a))) (ofZ (cond_Zopp sb (Zpos b)))
  = Some (cond_Zopp sa (Zpos a) ?= cond_Zopp sb (Zpos b)).
Proof.
  intros Ha Hb. rewrite !NumFacts.ofZ_finite by assumption.
  cbn [SFcompare].
  destruct sa, sb; cbn [cond_Zopp]; try reflexivity.
  - (* both negative *)
    destruct (Z.compare_spec (Zpos (digits2_pos a) - 53)
                             (Zpos (digits2_pos b) - 53)) as [E|L|G].
    + assert (Ed : digits2_pos a = digits2_pos b) by lia.
      rewrite Ed, compare_shiftl. reflexivity.
    + assert (Zpos a < Zpos b) by (apply digits_lt; lia).
      f_equal. symmetry. apply Z.compare_gt_iff. lia.
    + assert (Zpos b < Zpos a) by (apply digits_lt; lia).
      f_equal. symmetry. apply Z.compare_lt_iff. lia.
  - destruct (Z.compare_spec (Zpos (digits2_pos a) - 53)
                             (Zpos (digits2_pos b) - 53)) as [E|L|G].
    + assert (Ed : digits2_pos a = digits2_pos b) by lia.
      rewrite Ed, compare_shiftl. reflexivity.
    + assert (Zpos a < Zpos b) by (apply digits_lt; lia).
      f_equal. symmetry. apply Z.compare_lt_iff. lia.
    + assert (Zpos b < Zpos a) by (apply digits_lt; lia).
      f_equal. symmetry. apply Z.compare_gt_iff. lia.
Qed.

(** Numbers of integers below 2^53 compare as the integers do. *)
Lemma compare_ofZ (a b : Z) :
  Z.abs a < 2 ^ 53 -> Z.abs b < 2 ^ 53 ->
  SFcompare (ofZ a) (ofZ b) = Some (a ?= b).
Proof.
  intros Ha Hb.
  destruct (NumFacts.cond_Zopp_split a) as [->|(sa & za & ->)];
    destruct (NumFacts.cond_Zopp_split b) as [->|(sb & zb & ->)].
  - reflexivity.
  - rewrite NumFacts.ofZ_finite by (destruct sb; simpl in Hb; lia).
    destruct sb; reflexivity.
  - rewrite NumFacts.ofZ_finite by (destruct sa; simpl in Ha; lia).
    destruct sa; reflexivity.
  - apply compare_finite; [destruct sa | destruct sb]; simpl in *; lia.
Qed.

Lemma ltb_ofZ (a b : Z) :
  Z.abs a < 2 ^ 53 -> Z.abs b < 2 ^ 53 -> ltb (ofZ a) (ofZ b) = (a <? b).
Proof.
  intros Ha Hb. unfold ltb, SFltb. rewrite compare_ofZ by assumption.
  unfold Z.ltb. now destruct (a ?= b).
Qed.

Lemma isNegZero_ofZ (a : Z) : Z.abs a < 2 ^ 53 -> isNegZero (ofZ a) = false.
Proof.
  intros Ha. destruct (NumFacts.cond_Zopp_split a) as [->|(sa & za & ->)];
    [reflexivity|].
  now rewrite NumFacts.ofZ_finite by (destruct sa; simpl in Ha; lia).
Qed.

Lemma min2_ofZ (a b : Z) :
  Z.abs a < 2 ^ 53 -> Z.abs b < 2 ^ 53 ->
  min2 (ofZ a) (ofZ b) = ofZ (Z.min a b).
Proof.
  intros Ha Hb. unfold min2.
  rewrite !NumFacts.isNaN_ofZ, !ltb_ofZ, isNegZero_ofZ by assumption.
  cbn [orb].
  destruct (Z.ltb_spec b a); [now rewrite Z.min_r by lia|].
  destruct (Z.ltb_spec a b); now rewrite Z.min_l by lia.
Qed.

Lemma max2_ofZ (a b : Z) :
  Z.abs a < 2 ^ 53 -> Z.abs b < 2 ^ 53 ->
  max2 (ofZ a) (ofZ b) = ofZ (Z.max a b).
Proof.
  intros Ha Hb. unfold max2.
  rewrite !NumFacts.isNaN_ofZ, !ltb_ofZ, isNegZero_ofZ by assumption.
  cbn [orb].
  destruct (Z.ltb_spec a b); [now rewrite Z.max_r by lia|].
  destruct (Z.ltb_spec b a); [now rewrite Z.max_l by lia|].
  replace b with a by lia. now rewrite Z.max_id.
Qed.

(** The least and the greatest of a list of integers. *)
Lemma least_spec (zs : list Z) (z : Z) :
  In (fold_left Z.min zs z) (z :: zs)
  /\ forall y, In y (z :: zs) -> fold_left Z.min zs z <= y.
Proof.
  revert z. induction zs as [|x zs IH]; intros z; simpl.
  - split; [now left | intros y [<-|[]]; lia].
  - destruct (IH (Z.min z x)) as [Hin Hle]. split.
    + destruct Hin as [Hin|Hin]; [|now right; right].
      rewrite <- Hin. destruct (Z.min_spec z x) as [[_ ->]|[_ ->]]; auto.
    + intros y [<-|[<-|Hy]].
      * specialize (Hle (Z.min z x) (or_introl eq_refl)). lia.
      * specialize (Hle (Z.min z x) (or_introl eq_refl)). lia.
      * apply Hle. now right.
Qed.

Lemma greatest_spec (zs : list Z) (z : Z) :
  In (fold_left Z.max zs z) (z :: zs)
  /\ forall y, In y (z :: zs) -> y <= fold_left Z.max zs z.
Proof.
  revert z. induction zs as [|x zs IH]; intros z; simpl.
  - split; [now left | intros y [<-|[]]; lia].
  - destruct (IH (Z.max z x)) as [Hin Hle]. split.
    + destruct Hin as [Hin|Hin]; [|now right; right].
      rewrite <- Hin. destruct (Z.max_spec z x) as [[_ ->]|[_ ->]]; auto.
    + intros y [<-|[<-|Hy]].
      * specialize (Hle (Z.max z x) (or_introl eq_refl)). lia.
      * specialize (Hle (Z.max z x) (or_introl eq_refl)). lia.
      * apply Hle. now right.
Qed.

Lemma fold_min_ofZ (zs : list Z) (z : Z) :
  Z.abs z < 2 ^ 53 -> (forall y, In y zs -> Z.abs y < 2 ^ 53) ->
  fold_left min2 (map ofZ zs) (ofZ z) = ofZ (fold_left Z.min zs z).
Proof.
  revert z. induction zs as [|x zs IH]; intros z Hz Hs; [reflexivity|].
  simpl. rewrite min2_ofZ by (auto; apply Hs; now left).
  apply IH.
  - pose proof (Hs x (or_introl eq_refl)). lia.
  - intros y Hy. apply Hs. now right.
Qed.

Lemma fold_max_ofZ (zs : list Z) (z : Z) :
  Z.abs z < 2 ^ 53 -> (forall y, In y zs -> Z.abs y < 2 ^ 53) ->
  fold_left max2 (map ofZ zs) (ofZ z) = ofZ (fold_left Z.max zs z).
Proof.
  revert z. induction zs as [|x zs IH]; intros z Hz Hs; [reflexivity|].
  simpl. rewrite max2_ofZ by (auto; apply Hs; now left).
  apply IH.
  - pose proof (Hs x (or_introl eq_refl)). lia.
  - intros y Hy. apply Hs. now right.
Qed.

(** The first step of [Math.min] and [Math.max], from the infinities. *)
Lemma min2_first (z : Z) :
  Z.abs z < 2 ^ 53 -> min2 POSITIVE_INFINITY (ofZ z) = ofZ z.
Proof.
  intros Hz. destruct (NumFacts.cond_Zopp_split z) as [->|(s & p & ->)];
    [reflexivity|].
  rewrite NumFacts.ofZ_finite by (destruct s; simpl in Hz; lia).
  now destruct s.
Qed.

Lemma max2_first (z : Z) :
  Z.abs z < 2 ^ 53 -> max2 NEGATIVE_INFINITY (ofZ z) = ofZ z.
Proof.
  intros Hz. destruct (NumFacts.cond_Zopp_split z) as [->|(s & p & ->)];
    [reflexivity|].
  rewrite NumFacts.ofZ_finite by (destruct s; simpl in Hz; lia).
  now destruct s.
Qed.

Lemma mathMin_ofZ (z : Z) (zs : list Z) :
  (forall y, In y (z :: zs) -> Z.abs y < 2 ^ 53) ->
  mathMin (map ofZ (z :: zs)) = ofZ (fold_left Z.min zs z).
Proof.
  intros H. unfold mathMin. cbn [map fold_left].
  rewrite min2_first by (apply H; now left).
  apply fold_min_ofZ; [apply H; now left | intros y Hy; apply H; now right].
Qed.

Lemma mathMax_ofZ (z : Z) (zs : list Z) :
  (forall y, In y (z :: zs) -> Z.abs y < 2 ^ 53) ->
  mathMax (map ofZ (z :: zs)) = ofZ (fold_left Z.max zs z).
Proof.
  intros H. unfold mathMax. cbn [map fold_left].
  rewrite max2_first by (apply H; now left).
  apply fold_max_ofZ; [apply H; now left | intros y Hy; apply H; now right].
Qed.

End OrderFacts.

(** ** The sizes of the groups and the records of a pivot table *)

Module CountFacts.

Import Num JS ExcelTools.
Local Open Scope list_scope.

(** The number of values an object holds in all its arrays. *)
Lemma pushOwn_size (o : object) (k : string) (v : num) (vs : list num) :
  getOwn o k = Some vs ->
  List.length (flat_map snd (pushOwn o k v))
  = S (List.length (flat_map snd o)).
Proof.
  induction o as [|[k' vs'] o IH]; simpl; [discriminate|].
  destruct (String.eqb k' k).
  - intros _. simpl. rewrite !length_app. simpl. lia.
  - intros H. simpl. rewrite !length_app, (IH H). lia.
Qed.

Lemma pushTo_size (o : object) (k : string) (v : num) (o1 : object) :
  pushTo o k v = Return o1 ->
  List.length (flat_map snd o1) = S (List.length (flat_map snd o)).
Proof.
  unfold pushTo. destruct (getOwn o k) as [vs|] eqn:E.
  - intros [= <-]. eapply pushOwn_size, E.
  - destruct (inPrototype k); [discriminate|]. intros [= <-].
    rewrite flat_map_app, length_app. simpl. lia.
Qed.

(** The loop stores every number of the column, once. *)
Lemma groupRows_size (host : Host) (ki vi : nat) (rows : list row) :
  forall groups groups',
    groupRows host ki vi rows groups = Return groups' ->
    List.length (flat_map snd groups')
    = List.length (numericValues host vi rows)
      + List.length (flat_map snd groups).
Proof.
  unfold numericValues.
  induction rows as [|r rows IH]; intros groups groups'; simpl.
  - now intros [= <-].
  - destruct (isNaN (Number host (cellAt r vi))); simpl; [apply IH|].
    destruct (pushTo groups _ _) as [g1|] eqn:E; [|discriminate].
    intros H. rewrite (IH _ _ H), (pushTo_size _ _ _ _ E). lia.
Qed.

Lemma list_sum_lengths {K V : Type} (l : list (K * list V)) :
  list_sum (map (fun e => List.length (snd e)) l)
  = List.length (flat_map snd l).
Proof.
  induction l as [|e l IH]; [reflexivity|].
  simpl. now rewrite length_app, IH.
Qed.

(** No own property of the object the loop builds is named like a property
    of [Object.prototype]. *)
Lemma pushTo_ownOnly (o : object) (k : string) (v : num) (o1 : object) :
  (forall k, inPrototype k = true -> getOwn o k = None) ->
  pushTo o k v = Return o1 ->
  forall k, inPrototype k = true -> getOwn o1 k = None.
Proof.
  intros Ho H k' Hk'. rewrite (GroupFacts.pushTo_getOwn _ _ _ _ H).
  destruct (String.eqb_spec k k') as [<-|_]; [|now apply Ho].
  unfold pushTo in H. rewrite (Ho k Hk'), Hk' in H. discriminate.
Qed.

(** The loop throws when a row with a number belongs to such a group. *)
Lemma groupRows_collides (host : Host) (ki vi : nat) (rows : list row) :
  forall groups,
    (forall k, inPrototype k = true -> getOwn groups k = None) ->
    collides host ki vi rows = true ->
    groupRows host ki vi rows groups = Throw TypeError.
Proof.
  induction rows as [|r rows IH]; intros groups Ho; simpl; [discriminate|].
  fold (numeric host vi r). fold (keyOf host ki r).
  destruct (numeric host vi r) eqn:En; simpl.
  - destruct (inPrototype (keyOf host ki r)) eqn:Ep; simpl.
    + intros _. unfold pushTo. now rewrite (Ho _ Ep), Ep.
    + intros H. destruct (pushTo groups _ _) as [g1|e] eqn:E.
      * apply IH; [eapply pushTo_ownOnly; eassumption | exact H].
      * unfold pushTo in E. rewrite Ep in E.
        destruct (getOwn groups _); discriminate.
  - now apply IH.
Qed.

Lemma getProp_setProp_same (o : record) (k : string) (v : pvalue) :
  getProp (setProp o k v) k = Some v.
Proof.
  induction o as [|[k' v'] o IH]; simpl.
  - now rewrite String.eqb_refl.
  - destruct (String.eqb k' k) eqn:E; simpl; rewrite E; [reflexivity|exact IH].
Qed.

Lemma getProp_setProp_other (o : record) (k k2 : string) (v : pvalue) :
  k <> k2 -> getProp (setProp o k v) k2 = getProp o k2.
Proof.
  intros Hne. induction o as [|[k' v'] o IH]; simpl.
  - destruct (String.eqb_spec k k2); [contradiction | reflexivity].
  - destruct (String.eqb_spec k' k) as [->|Hk]; simpl.
    + destruct (String.eqb_spec k k2); [contradiction | reflexivity].
    + destruct (String.eqb k' k2); [reflexivity | exact IH].
Qed.

End CountFacts.

(** ** Rows whose value is [null] *)

Module NullFacts.
Import Num JS ExcelTools.
Local Open Scope list_scope.




End NullFacts.

(** ** The claims *)

Module Claims.

Import Num JS ExcelTools.

(** C9. [normalizeColumnName("Unit Price")] meets no synonym of the table,
    in which the synonyms of [price] are cost, rate, value and amount, and
    so returns the slug [unit_price] and not a standard name. *)
Theorem C9_unit_price_slug :
  ColumnMapper.normalizeColumnName "Unit Price" = "unit_price"
  /\ ColumnMapper.clean "Unit Price" = "unit price"
  /\ ColumnMapper.firstSynonym ColumnMapper.synonyms "unit price" = None
  /\ In ("price", ["cost"; "rate"; "value"; "amount"]) ColumnMapper.synonyms
  /\ forallb (fun entry =>
                forallb (fun synonym => negb (Str.includes "unit price" synonym))
                        (snd entry))
             ColumnMapper.synonyms = true
  /\ existsb (fun entry => String.eqb (fst entry) "unit_price")
             ColumnMapper.synonyms = false.
Proof.
  repeat split; try reflexivity.
  simpl. right. left. reflexivity.
Qed.

(** C1. When the column resolves, [filterData] returns in [filteredRows]
    the first min(100, n) of the n rows that pass the operator's test, in
    the order of the table, and [totalMatches] is n; with 150 matching rows
    that is 100 rows and a total of 150. *)
Theorem C1_filterData_cap (host : Host) (headers : list string)
  (rows : list row) (column operator : string) (value : cell)
  (columnIndex : nat) :
  findIndex (containsEitherWay column) headers = Some columnIndex ->
  exists r,
    filterData host headers rows column operator value = Return r
    /\ filteredRows r =
         firstn (Nat.min 100 (List.length
                   (List.filter (keeps host operator value columnIndex) rows)))
                (List.filter (keeps host operator value columnIndex) rows)
    /\ List.length (filteredRows r) =
         Nat.min 100 (List.length
           (List.filter (keeps host operator value columnIndex) rows))
    /\ totalMatches r =
         List.length (List.filter (keeps host operator value columnIndex) rows)
    /\ (List.length (List.filter (keeps host operator value columnIndex) rows)
          = 150 ->
        List.length (filteredRows r) = 100 /\ totalMatches r = 150).
Proof.
  intros Hidx. unfold filterData. rewrite Hidx.
  set (matching := List.filter (keeps host operator value columnIndex) rows).
  eexists. split; [reflexivity|]. cbn [filteredRows totalMatches].
  assert (Hcap : firstn 100 matching
                 = firstn (Nat.min 100 (List.length matching)) matching).
  { destruct (Nat.le_ge_cases 100 (List.length matching)) as [Hle|Hle].
    - now rewrite Nat.min_l.
    - rewrite Nat.min_r by exact Hle.
      now rewrite firstn_all, firstn_all2. }
  split; [exact Hcap|].
  split; [rewrite length_firstn; reflexivity|].
  split; [reflexivity|].
  intros H150. rewrite length_firstn, H150. split; reflexivity.
Qed.

(** A table of 200 rows of which the 150 rows with a value of at least 50
    match: 100 rows come back and the total is 150. *)
Lemma C1_filterData_cap_witness :
  findIndex (containsEitherWay "amount") ["Amount"] = Some 0
  /\ exists r,
       filterData RefHost.host ["Amount"] (Examples.numberRows 0 200)
                  "amount" ">=" (CNum (ofZ 50)) = Return r
       /\ List.length (filteredRows r) = 100
       /\ hd_error (filteredRows r) = Some (Examples.numberRow 50)
       /\ totalMatches r = 150.
Proof.
  split; [reflexivity|].
  destruct (C1_filterData_cap RefHost.host ["Amount"]
              (Examples.numberRows 0 200) "amount" ">=" (CNum (ofZ 50)) 0
              eq_refl) as (r & Hr & Hrows & _ & _ & H150).
  exists r. split; [exact Hr|].
  destruct (H150 ltac:(vm_compute; reflexivity)) as [Hlen Htot].
  repeat split; try assumption.
  rewrite Hrows. vm_compute. reflexivity.
Defined.

(** C3, as stated, fails: the header [Qty] passes the two-way test for the
    term [Qty Ordered] (the term contains the header), and [filterData]
    finds it, but [aggregateData], [sortData] and [createPivotTable] fail
    with a not-found error. *)
Lemma C3_counterexample :
  ~ Spec.lookup_as_stated RefHost.host ["Qty"] [Examples.numberRow 1]
      "Qty Ordered".
Proof.
  intros (_ & [_ Hagg] & _).
  assert (Hfail : failsNaming
            (aggregateData RefHost.host ["Qty"] [Examples.numberRow 1]
               "Qty Ordered" "sum" None) "Qty Ordered").
  { exists (notFound "Column" "Qty Ordered"). split; reflexivity. }
  specialize (Hagg Hfail). unfold Spec.unresolved in Hagg.
  vm_compute in Hagg. discriminate.
Qed.

(** C3, amended. [filterData] looks its column up by the two-way test: it
    works on the first header that contains the lower-cased term or is
    contained in it. [aggregateData], [sortData] and [createPivotTable] look
    every column up by the one-way test: they work on the first header that
    contains the lower-cased term, also for [groupBy] and for the value field
    of the pivot table. Each fails, with an error whose message names the
    requested column, exactly when no header passes its own test. *)
Theorem C3_lookup_per_operation (host : Host) (headers : list string)
  (rows : list row) (column operator : string) (value : cell)
  (operation : string) (groupBy : option string) (o : order)
  (valueField g : string) :
  (existsb (containsEitherWay column) headers = false ->
     filterData host headers rows column operator value
     = Throw (notFound "Column" column))
  /\ (existsb (containsEitherWay column) headers = true ->
        exists r, filterData host headers rows column operator value = Return r)
  /\ (existsb (headerContains column) headers = false ->
        aggregateData host headers rows column operation groupBy
        = Throw (notFound "Column" column)
        /\ sortData host headers rows column o
           = Throw (notFound "Column" column)
        /\ createPivotTable host headers rows column valueField operation
           = Throw (notFound "Row field" column))
  /\ (existsb (headerContains column) headers = true ->
        aggregateData host headers rows column operation groupBy
        <> Throw (notFound "Column" column)
        /\ (exists r, sortData host headers rows column o = Return r)
        /\ createPivotTable host headers rows column valueField operation
           <> Throw (notFound "Row field" column))
  /\ (existsb (headerContains column) headers = true ->
      existsb (headerContains g) headers = false ->
        (g <> "" ->
         aggregateData host headers rows column operation (Some g)
         = Throw (notFound "Group by column" g))
        /\ createPivotTable host headers rows column g operation
           = Throw (notFound "Value field" g))
  /\ (existsb (containsEitherWay column) headers = true ->
      exists j h,
        nth_error headers j = Some h /\ containsEitherWay column h = true
        /\ existsb (containsEitherWay column) (firstn j headers) = false)
  /\ (existsb (headerContains column) headers = true ->
      exists j h,
        nth_error headers j = Some h /\ headerContains column h = true
        /\ existsb (headerContains column) (firstn j headers) = false)
  /\ (forall j h,
        nth_error headers j = Some h ->
        containsEitherWay column h = true ->
        existsb (containsEitherWay column) (firstn j headers) = false ->
        filterData host headers rows column operator value
        = Return {| filteredRows :=
                      firstn 100
                        (List.filter (keeps host operator value j) rows);
                    totalMatches :=
                      List.length
                        (List.filter (keeps host operator value j) rows);
                    ExcelTools.filter := (column, operator, value) |})
  /\ (forall j h,
        nth_error headers j = Some h ->
        headerContains column h = true ->
        existsb (headerContains column) (firstn j headers) = false ->
        aggregateData host headers rows column operation None
        = Return (Simple operation column
                    (reduce operation (numericValues host j rows))
                    (List.length (numericValues host j rows)))
        /\ sortData host headers rows column o
           = Return {| sortedRows :=
                         firstn 100 (sort (compareRows host o j) rows);
                       totalRows :=
                         List.length (sort (compareRows host o j) rows);
                       sortBy := (column, o) |}
        /\ forall k hk,
             nth_error headers k = Some hk ->
             headerContains g hk = true ->
             existsb (headerContains g) (firstn k headers) = false ->
             (g <> "" ->
              aggregateData host headers rows column operation (Some g)
              = match groupRows host k j rows [] with
                | Throw e => Throw e
                | Return groups =>
                    Return (Grouped operation column g
                      (map (fun e =>
                              {| group := fst e;
                                 result := reduce operation (snd e);
                                 count := List.length (snd e) |})
                           (entries groups)))
                end)
             /\ createPivotTable host headers rows column g operation
                = match groupRows host j k rows [] with
                  | Throw e => Throw e
                  | Return pivot =>
                      Return {| pivotTable :=
                                  map (fun e =>
                                         pivotRecord column operation
                                           (fst e) (snd e))
                                      (entries pivot);
                                rowField := column;
                                ExcelTools.valueField := g;
                                pivotOperation := operation;
                                totalGroups := List.length (entries pivot) |}
                  end)
  /\ names (notFound "Column" column) column = true
  /\ names (notFound "Row field" column) column = true
  /\ names (notFound "Group by column" g) g = true
  /\ names (notFound "Value field" g) g = true.
Proof.
  repeat match goal with |- _ /\ _ => split end;
    try apply LookupFacts.notFound_names.
  - intros H. apply LookupFacts.findIndex_None in H.
    unfold filterData. now rewrite H.
  - intros H. apply LookupFacts.findIndex_exists in H as [j Hj].
    unfold filterData. rewrite Hj. eexists. reflexivity.
  - intros H. apply LookupFacts.findIndex_None in H.
    unfold aggregateData, sortData, createPivotTable. now rewrite H.
  - intros H. apply LookupFacts.findIndex_exists in H as [j Hj].
    unfold aggregateData, sortData, createPivotTable. rewrite Hj.
    split; [|split].
    + destruct (given groupBy) as [g'|]; [|discriminate].
      destruct (findIndex (headerContains g') headers) as [gi|];
        [|cbn; discriminate].
      destruct (groupRows host gi j rows []) as [gs|e] eqn:E; [discriminate|].
      apply GroupFacts.groupRows_throws in E as ->. discriminate.
    + eexists. reflexivity.
    + destruct (findIndex (headerContains valueField) headers) as [vi|];
        [|cbn; discriminate].
      destruct (groupRows host j vi rows []) as [gs|e] eqn:E; [discriminate|].
      apply GroupFacts.groupRows_throws in E as ->. discriminate.
  - intros H Hg. apply LookupFacts.findIndex_exists in H as [j Hj].
    apply LookupFacts.findIndex_None in Hg.
    unfold aggregateData, createPivotTable. rewrite Hj, Hg. split.
    + intros Hne. unfold given.
      destruct (String.eqb g "") eqn:E;
        [apply String.eqb_eq in E; contradiction|].
      now rewrite Hg.
    + reflexivity.
  - apply FirstFacts.first_exists.
  - apply FirstFacts.first_exists.
  - intros j h Hj Hh Hfirst.
    unfold filterData.
    now rewrite (FirstFacts.findIndex_at _ _ _ _ Hj Hh Hfirst).
  - intros j h Hj Hh Hfirst.
    pose proof (FirstFacts.findIndex_at _ _ _ _ Hj Hh Hfirst) as E.
    unfold aggregateData, sortData, createPivotTable. rewrite E.
    split; [reflexivity|]. split; [reflexivity|].
    intros k hk Hk Hhk Hkfirst.
    pose proof (FirstFacts.findIndex_at _ _ _ _ Hk Hhk Hkfirst) as Eg.
    split.
    + intros Hne. unfold given.
      destruct (String.eqb_spec g ""); [contradiction|].
      now rewrite Eg.
    + rewrite Eg. destruct (groupRows host j k rows []); [|reflexivity].
      now rewrite length_map.
Qed.

(** The term [Qty Ordered] against the one header [Qty]: [filterData]
    resolves it to that header and filters by its column, [aggregateData]
    does not resolve it. *)
Lemma C3_lookup_per_operation_witness :
  existsb (containsEitherWay "Qty Ordered") ["Qty"] = true
  /\ existsb (headerContains "Qty Ordered") ["Qty"] = false
  /\ filterData RefHost.host ["Qty"] [Examples.numberRow 1]
       "Qty Ordered" ">" (CNum zero)
     = Return {| filteredRows := [Examples.numberRow 1];
                 totalMatches := 1;
                 ExcelTools.filter := ("Qty Ordered", ">", CNum zero) |}
  /\ aggregateData RefHost.host ["Qty"] [Examples.numberRow 1]
       "Qty Ordered" "sum" None
     = Throw (notFound "Column" "Qty Ordered").
Proof.
  destruct (C3_lookup_per_operation RefHost.host ["Qty"]
              [Examples.numberRow 1] "Qty Ordered" ">" (CNum zero) "sum" None
              asc "Qty" "Qty")
    as (_ & _ & Hfail & _ & _ & _ & _ & Hfilter & _).
  split; [reflexivity|]. split; [reflexivity|].
  split; [rewrite (Hfilter 0 "Qty" eq_refl eq_refl eq_refl); reflexivity|].
  apply Hfail. reflexivity.
Defined.

(** With a column that no header contains, [validateData] reports nothing. *)
Lemma validateData_unresolved (headers : list string) (rows : list row)
  (column : string) :
  existsb (headerContains column) headers = false ->
  EnhancedExcelAgent.validateData headers rows (Some column)
  = {| EnhancedExcelAgent.validationIssues := [];
       EnhancedExcelAgent.totalIssues := 0 |}.
Proof.
  intros H. unfold EnhancedExcelAgent.validateData, given.
  destruct (String.eqb column "") eqn:E.
  - apply String.eqb_eq in E. subst column.
    destruct headers as [|h hs]; [reflexivity|].
    simpl in H. unfold headerContains in H at 1.
    change (Str.toLowerCase "") with "" in H.
    rewrite StrFacts.includes_nil in H. discriminate.
  - apply LookupFacts.findIndex_None in H. now rewrite H.
Qed.

(** C8. With a column name that no header matches under the containment
    rule (either way), [validateData] returns an empty list of issues and a
    total of 0 and throws nothing, while [filterData], [aggregateData],
    [sortData] and [createPivotTable] fail with an error that names the
    column. *)
Theorem C8_validate_silent (host : Host) (headers : list string)
  (rows : list row) (column operator : string) (value : cell)
  (operation : string) (groupBy : option string) (o : order)
  (valueField : string) :
  existsb (containsEitherWay column) headers = false ->
  EnhancedExcelAgent.validateData headers rows (Some column)
  = {| EnhancedExcelAgent.validationIssues := [];
       EnhancedExcelAgent.totalIssues := 0 |}
  /\ failsNaming (filterData host headers rows column operator value) column
  /\ failsNaming (aggregateData host headers rows column operation groupBy)
       column
  /\ failsNaming (sortData host headers rows column o) column
  /\ failsNaming
       (createPivotTable host headers rows column valueField operation) column.
Proof.
  intros H.
  pose proof (LookupFacts.no_eitherWay_no_headerContains _ _ H) as H1.
  split; [now apply validateData_unresolved|].
  apply LookupFacts.findIndex_None in H, H1.
  unfold failsNaming, filterData, aggregateData, sortData, createPivotTable.
  rewrite H, H1.
  repeat split; eexists; (split; [reflexivity|]);
    apply LookupFacts.notFound_names.
Qed.

Lemma C8_validate_silent_witness :
  existsb (containsEitherWay "Discount") ["Order Date"; "Qty"] = false
  /\ EnhancedExcelAgent.validateData ["Order Date"; "Qty"]
       [[CStr "2024-01-01"; CNull]] (Some "Discount")
     = {| EnhancedExcelAgent.validationIssues := [];
          EnhancedExcelAgent.totalIssues := 0 |}
  /\ failsNaming
       (sortData RefHost.host ["Order Date"; "Qty"]
          [[CStr "2024-01-01"; CNull]] "Discount" asc) "Discount".
Proof.
  destruct (C8_validate_silent RefHost.host ["Order Date"; "Qty"]
              [[CStr "2024-01-01"; CNull]] "Discount" "=" CNull "sum" None
              asc "Qty" eq_refl) as (Hv & _ & _ & Hs & _).
  split; [reflexivity|]. split; assumption.
Defined.



Section FirstMatch.
Local Open Scope list_scope.



End FirstMatch.

(** C2, as stated, fails: the group [south] has only the value [n/a], which
    is not a number, and gets no entry at all, with count 0 or otherwise. *)
Lemma C2_counterexample :
  ~ Spec.groups_as_stated RefHost.host ["Region"; "Sales"]
      [[CStr "north"; CNum (ofZ 5)]; [CStr "south"; CStr "n/a"]]
      "Sales" "min" "Region".
Proof.
  intros H. destruct (H 1 0 eq_refl eq_refl) as (results & Hres & Hall).
  vm_compute in Hres. injection Hres as <-.
  destruct (Hall [CStr "south"; CStr "n/a"]) as (e & Hin & Hgroup & _).
  - right. left. reflexivity.
  - destruct Hin as [<-|[]]. vm_compute in Hgroup. discriminate.
Qed.

(** C2, amended. When both columns resolve and no row with a number
    belongs to a group named like a property of [Object.prototype], the
    grouped result of [aggregateData] has exactly one entry for each group
    value that occurs in a row whose target value is a number, and no entry
    for the other group values; the entry's result reduces the group's
    numbers and its count, their number, is at least 1 (so [min] and [max]
    are never taken of an empty group). *)
Theorem C2_groups_with_numbers (host : Host) (headers : list string)
  (rows : list row) (column operation g : string) (ci gi : nat) :
  findIndex (headerContains column) headers = Some ci ->
  findIndex (headerContains g) headers = Some gi ->
  g <> "" ->
  collides host gi ci rows = false ->
  exists results,
    aggregateData host headers rows column operation (Some g)
    = Return (Grouped operation column g results)
    /\ NoDup (map group results)
    /\ (forall k, In k (map group results)
                  <-> exists r, In r rows /\ keyOf host gi r = k
                                /\ numeric host ci r = true)
    /\ (forall e, In e results ->
          result e = reduce operation (groupValues host gi ci (group e) rows)
          /\ count e = List.length (groupValues host gi ci (group e) rows)
          /\ 1 <= count e).
Proof.
  intros Hci Hgi Hg Hcol.
  destruct (GroupFacts.groupRows_returns host gi ci rows [] Hcol)
    as [groups Hgroups].
  destruct (GroupFacts.groupRows_entries _ _ _ _ _ Hgroups) as [Hnd Hent].
  unfold aggregateData, given. rewrite Hci.
  destruct (String.eqb g "") eqn:E;
    [apply String.eqb_eq in E; contradiction|].
  rewrite Hgi, Hgroups. eexists. split; [reflexivity|].
  rewrite map_map. cbn [group].
  split; [exact Hnd|]. split.
  - intros k. rewrite <- GroupFacts.groupValues_nonempty. split.
    + intros Hin. apply in_map_iff in Hin as ([k' vs] & <- & Hin).
      apply Hent in Hin as [-> Hne]. exact Hne.
    + intros Hne. apply in_map_iff.
      exists (k, groupValues host gi ci k rows). split; [reflexivity|].
      apply Hent. now split.
  - intros e Hin. apply in_map_iff in Hin as ([k vs] & <- & Hin).
    apply Hent in Hin as [-> Hne]. cbn.
    repeat split.
    destruct (groupValues host gi ci k rows); [now elim Hne | simpl; lia].
Qed.

Lemma C2_groups_with_numbers_witness :
  collides RefHost.host 0 1
    [[CStr "north"; CNum (ofZ 5)]; [CStr "south"; CStr "n/a"];
     [CStr "north"; CNull]] = false
  /\ aggregateData RefHost.host ["Region"; "Sales"]
       [[CStr "north"; CNum (ofZ 5)]; [CStr "south"; CStr "n/a"];
        [CStr "north"; CNull]] "Sales" "min" (Some "Region")
     = Return (Grouped "min" "Sales" "Region"
                 [{| group := "north"; result := zero; count := 2 |}]).
Proof.
  split; [reflexivity|].
  destruct (C2_groups_with_numbers RefHost.host ["Region"; "Sales"]
              [[CStr "north"; CNum (ofZ 5)]; [CStr "south"; CStr "n/a"];
               [CStr "north"; CNull]] "Sales" "min" "Region" 1 0
              eq_refl eq_refl ltac:(discriminate) eq_refl)
    as (results & Hres & _).
  rewrite Hres. vm_compute in Hres. injection Hres as <-. reflexivity.
Defined.

(** When [createPivotTable] meets no group named like a property of
    [Object.prototype], and the row field is named neither like the
    operation nor [count], the group keys of its records are exactly the
    distinct group values of the rows whose value is a number, one record
    each, however many there are. *)
Lemma createPivotTable_keys (host : Host) (headers : list string)
  (rows : list row) (rowField valueField operation : string) (ri vi : nat) :
  findIndex (headerContains rowField) headers = Some ri ->
  findIndex (headerContains valueField) headers = Some vi ->
  collides host ri vi rows = false ->
  rowField <> operation -> rowField <> "count" ->
  exists res keys,
    createPivotTable host headers rows rowField valueField operation
    = Return res
    /\ map (fun rec => getProp rec rowField) (pivotTable res)
       = map (fun k => Some (PStr k)) keys
    /\ NoDup keys
    /\ (forall k, In k keys
                  <-> exists r, In r rows /\ keyOf host ri r = k
                                /\ numeric host vi r = true)
    /\ totalGroups res = List.length keys.
Proof.
  intros Hri Hvi Hcol Hop Hcount.
  destruct (GroupFacts.groupRows_returns host ri vi rows [] Hcol)
    as [pivot Hpivot].
  destruct (GroupFacts.groupRows_entries _ _ _ _ _ Hpivot) as [Hnd Hent].
  unfold createPivotTable. rewrite Hri, Hvi, Hpivot.
  eexists. exists (map fst (entries pivot)). split; [reflexivity|].
  cbn [pivotTable totalGroups]. rewrite !map_map, !length_map.
  split; [|split; [exact Hnd | split; [|reflexivity]]].
  - apply map_ext. intros [k vs]. unfold pivotRecord. cbn [fst snd setProp].
    apply String.eqb_neq in Hop, Hcount. rewrite Hop. cbn [setProp].
    rewrite Hcount. cbn [setProp getProp]. now rewrite String.eqb_refl.
  - intros k. rewrite <- GroupFacts.groupValues_nonempty. split.
    + intros Hin. apply in_map_iff in Hin as ([k' vs] & <- & Hin).
      apply Hent in Hin as [-> Hne]. exact Hne.
    + intros Hne. apply in_map_iff.
      exists (k, groupValues host ri vi k rows). split; [reflexivity|].
      apply Hent. now split.
Qed.

(** C6: the code at two tables on which it fails the claim. A group value
    named like a property of [Object.prototype] makes [createPivotTable]
    throw a [TypeError] instead of returning the group; and with a row
    field named [count] the group key of every record is overwritten by the
    count. *)
Theorem C6_pivot_loses_group_keys (host : Host) :
  createPivotTable host ["Category"; "Amount"]
    [[CStr "constructor"; CNum (ofZ 1)]] "Category" "Amount" "sum"
  = Throw TypeError
  /\ createPivotTable host ["Count"; "Amount"]
       [[CStr "a"; CNum (ofZ 1)]] "count" "Amount" "sum"
     = Return {| pivotTable := [[("count", PNum (ofZ 1));
                                 ("sum", PNum (ofZ 1))]];
                 rowField := "count";
                 valueField := "Amount";
                 pivotOperation := "sum";
                 totalGroups := 1 |}.
Proof. split; reflexivity. Qed.



Section NullRows.
Local Open Scope list_scope.



End NullRows.

(** C7, as stated, fails on a table of more than 100 rows: of the 101 rows
    [0], ..., [100] (on which the comparator is consistent, see
    [SortFacts.numberRows_consistent]) the ascending call returns
    [0], ..., [99] and the descending call [100], ..., [1], which reversed
    starts with [1]. *)
Lemma C7_counterexample :
  ~ Spec.reverse_as_stated RefHost.host ["Amount"]
      (Examples.numberRows 0 101) "amount".
Proof.
  intros H.
  assert (Ha : sortData RefHost.host ["Amount"] (Examples.numberRows 0 101)
                 "amount" asc
               = Return {| sortedRows := Examples.numberRows 0 100;
                           totalRows := 101;
                           sortBy := ("amount", asc) |})
    by (vm_compute; reflexivity).
  assert (Hd : sortData RefHost.host ["Amount"] (Examples.numberRows 0 101)
                 "amount" desc
               = Return {| sortedRows := rev (Examples.numberRows 1 100);
                           totalRows := 101;
                           sortBy := ("amount", desc) |})
    by (vm_compute; reflexivity).
  destruct (H 0 _ _ eq_refl Ha Hd) as [_ Hties].
  cbn [sortedRows] in Hties. rewrite rev_involutive in Hties.
  assert (Hhead : tied RefHost.host 0 (Examples.numberRow 0)
                       (Examples.numberRow 1)).
  { apply (SortFacts.Forall2_hd _ _ _ Hties); vm_compute; reflexivity. }
  vm_compute in Hhead. discriminate.
Qed.

(** C7, amended. When the column resolves and the comparator is consistent
    on the rows, the ascending order of all rows is the reverse of their
    descending order up to the order of tied rows; each call returns the
    first 100 rows of its order, so the rows returned are reverses of each
    other, up to ties, when the table has at most 100 rows. *)
Theorem C7_sort_reverse_within_cap (host : Host) (headers : list string)
  (rows : list row) (column : string) (ci : nat) :
  findIndex (headerContains column) headers = Some ci ->
  consistentOn (compareRows host asc ci) rows = true ->
  exists ra rd,
    sortData host headers rows column asc = Return ra
    /\ sortData host headers rows column desc = Return rd
    /\ sortedRows ra = firstn 100 (sort (compareRows host asc ci) rows)
    /\ sortedRows rd = firstn 100 (sort (compareRows host desc ci) rows)
    /\ totalRows ra = List.length rows
    /\ totalRows rd = List.length rows
    /\ Permutation (sort (compareRows host asc ci) rows)
                   (rev (sort (compareRows host desc ci) rows))
    /\ Forall2 (tied host ci)
         (sort (compareRows host asc ci) rows)
         (rev (sort (compareRows host desc ci) rows))
    /\ (List.length rows <= 100 ->
        Permutation (sortedRows ra) (rev (sortedRows rd))
        /\ Forall2 (tied host ci) (sortedRows ra) (rev (sortedRows rd))).
Proof.
  intros Hci Hc. unfold sortData. rewrite Hci.
  destruct (SortFacts.sort_asc_desc host ci rows Hc) as [Hperm Hties].
  do 2 eexists. split; [reflexivity|]. split; [reflexivity|].
  cbn [sortedRows totalRows]. rewrite !SortFacts.sort_length.
  repeat (split; [first [reflexivity | assumption]|]).
  intros Hlen.
  rewrite !firstn_all2 by (rewrite SortFacts.sort_length; exact Hlen).
  now split.
Qed.

Lemma C7_sort_reverse_within_cap_witness :
  consistentOn (compareRows RefHost.host asc 1) Examples.orders = true
  /\ exists ra rd,
       sortData RefHost.host ["Customer"; "Amount"] Examples.orders
                "amount" asc = Return ra
       /\ sortData RefHost.host ["Customer"; "Amount"] Examples.orders
                   "amount" desc = Return rd
       /\ map (fun r => cellAt r 0) (sortedRows ra)
          = [CStr "c"; CStr "b"; CStr "d"; CStr "a"]
       /\ map (fun r => cellAt r 0) (sortedRows rd)
          = [CStr "a"; CStr "b"; CStr "d"; CStr "c"]
       /\ Forall2 (tied RefHost.host 1) (sortedRows ra) (rev (sortedRows rd)).
Proof.
  split; [reflexivity|].
  destruct (C7_sort_reverse_within_cap RefHost.host ["Customer"; "Amount"]
              Examples.orders "amount" 1 eq_refl eq_refl)
    as (ra & rd & Ha & Hd & Hra & Hrd & _ & _ & _ & _ & Hcap).
  exists ra, rd. split; [exact Ha|]. split; [exact Hd|].
  split; [rewrite Hra; reflexivity|].
  split; [rewrite Hrd; reflexivity|].
  apply Hcap. simpl. lia.
Defined.

(** C5, as stated, fails: every amount of the ledger is a number, and the
    sum of all of them is 10000000000000000, the two additions of 1 being
    rounded away, while the sums of the groups, 10000000000000000 and 2, add
    up to 10000000000000002. *)
Lemma C5_counterexample :
  ~ Spec.sum_as_stated RefHost.host ["Region"; "Amount"] Examples.ledger
      "amount" "region".
Proof.
  intros H.
  assert (Ea : aggregateData RefHost.host ["Region"; "Amount"]
                 Examples.ledger "amount" "sum" None
               = Return (Simple "sum" "amount" (ofZ 10000000000000000) 3))
    by (vm_compute; reflexivity).
  assert (Eg : aggregateData RefHost.host ["Region"; "Amount"]
                 Examples.ledger "amount" "sum" (Some "region")
               = Return (Grouped "sum" "amount" "region"
                   [{| group := "east"; result := ofZ 10000000000000000;
                       count := 1 |};
                    {| group := "west"; result := ofZ 2; count := 2 |}]))
    by (vm_compute; reflexivity).
  assert (Hnum : forall r, In r Examples.ledger ->
                   isNaN (Number RefHost.host (cellAt r 1)) = false).
  { intros r [<-|[<-|[<-|[]]]]; reflexivity. }
  pose proof (H 1 0 _ _ _ eq_refl eq_refl Hnum Ea Eg) as Heq.
  vm_compute in Heq. discriminate.
Qed.

(** C5, amended. When every target value is an integer, the magnitudes of
    these integers add up to less than 2^53 (so that no addition rounds),
    the group-by column resolves and no group is named like a property of
    [Object.prototype], the sum [aggregateData] returns without grouping
    equals the sum of the sums it returns for the groups: both are the
    number of the integer total. *)
Theorem C5_sum_of_group_sums (host : Host) (headers : list string)
  (rows : list row) (column g : string) (ci gi : nat) (zs : list Z) :
  findIndex (headerContains column) headers = Some ci ->
  findIndex (headerContains g) headers = Some gi ->
  g <> "" ->
  collides host gi ci rows = false ->
  Forall2 (fun r z => Number host (cellAt r ci) = ofZ z) rows zs ->
  (magnitude zs < 2 ^ 53)%Z ->
  exists whole results,
    aggregateData host headers rows column "sum" None
    = Return (Simple "sum" column whole (List.length rows))
    /\ aggregateData host headers rows column "sum" (Some g)
       = Return (Grouped "sum" column g results)
    /\ whole = ofZ (total zs)
    /\ sum (map result results) = ofZ (total zs)
    /\ eqb whole (sum (map result results)) = true.
Proof.
  intros Hci Hgi Hg Hcol Hz Hmag.
  assert (Hsmall : forall z, In z zs -> (Z.abs z < 2 ^ 53)%Z).
  { intros z Hin. pose proof (NumFacts.magnitude_In z zs Hin). lia. }
  pose proof (GroupFacts.numericValues_integers host ci rows zs Hz Hsmall)
    as Hvals.
  destruct (GroupFacts.groupRows_returns host gi ci rows [] Hcol)
    as [groups Hgroups].
  destruct (GroupFacts.groupRows_ofIntegers host gi ci rows zs Hz Hsmall
              [] groups Hgroups) as (gz & -> & Hperm).
  simpl in Hperm. rewrite app_nil_r in Hperm.
  unfold aggregateData, given. rewrite Hci.
  destruct (String.eqb g "") eqn:E;
    [apply String.eqb_eq in E; contradiction|].
  rewrite Hgi, Hgroups, Hvals.
  do 2 eexists. split.
  { rewrite length_map, (Forall2_length Hz). reflexivity. }
  split; [reflexivity|].
  assert (Hwhole : reduce "sum" (map ofZ zs) = ofZ (total zs))
    by (apply NumFacts.sum_ofZ; exact Hmag).
  assert (Hparts :
            sum (map result
                   (map (fun e => {| group := fst e;
                                     result := reduce "sum" (snd e);
                                     count := List.length (snd e) |})
                        (entries (ofIntegers gz))))
            = ofZ (total zs)).
  { rewrite map_map. cbn [result].
    change (fun x : string * list num => reduce "sum" (snd x))
      with (fun e : string * list num => sum (snd e)).
    unfold ofIntegers. rewrite GroupFacts.entries_map.
    fold (ofIntegers (entries gz)).
    assert (Hp : Permutation (flat_map snd (entries gz)) zs).
    { rewrite <- Hperm. apply Permutation_flat_map, GroupFacts.entries_perm. }
    pose proof (GroupFacts.sum_groups (entries gz) 0) as Hsum.
    rewrite (NumFacts.magnitude_perm _ _ Hp),
            (NumFacts.total_perm _ _ Hp) in Hsum.
    apply Hsum. simpl. exact Hmag. }
  split; [exact Hwhole|]. split; [exact Hparts|].
  rewrite Hwhole, Hparts. apply NumFacts.eqb_ofZ.
  pose proof (NumFacts.abs_total_le zs). lia.
Qed.

Lemma C5_sum_of_group_sums_witness :
  Forall2 (fun r z => Number RefHost.host (cellAt r 1) = ofZ z)
    Examples.sales [5; -2; 0; 7]%Z
  /\ exists results,
       aggregateData RefHost.host ["Region"; "Amount"] Examples.sales
         "amount" "sum" None
       = Return (Simple "sum" "amount" (ofZ 10) 4)
       /\ aggregateData RefHost.host ["Region"; "Amount"] Examples.sales
            "amount" "sum" (Some "region")
          = Return (Grouped "sum" "amount" "region" results)
       /\ sum (map result results) = ofZ 10.
Proof.
  assert (Hz : Forall2 (fun r z => Number RefHost.host (cellAt r 1) = ofZ z)
                 Examples.sales [5; -2; 0; 7]%Z)
    by (repeat constructor).
  split; [exact Hz|].
  destruct (C5_sum_of_group_sums RefHost.host ["Region"; "Amount"]
              Examples.sales "amount" "region" 1 0 [5; -2; 0; 7]%Z
              eq_refl eq_refl ltac:(discriminate) eq_refl Hz eq_refl)
    as (whole & results & Ha & Hg & Hw & Hs & _).
  exists results. rewrite Ha, Hw. repeat split; assumption.
Defined.

End Claims.

(** * Further properties of the code *)

(** ** The matrix of [levenshteinDistance] and the recurrence *)

Module LevenshteinFacts.

Import ColumnMapper EditDistance.
Local Open Scope list_scope.

Lemma distance_nil_r (s : list ascii) : distance s [] = List.length s.
Proof. destruct s; reflexivity. Qed.

Lemma distance_cons (a b : ascii) (s t : list ascii) :
  distance (a :: s) (b :: t)
  = Nat.min (Nat.min (distance s (b :: t) + 1) (distance (a :: s) t + 1))
            (distance s t + if Ascii.eqb a b then 0 else 1).
Proof. reflexivity. Qed.

Lemma rowFrom_nil (rest : string) :
  forall acc,
    rowFrom acc rest [] = seq (List.length acc) (S (String.length rest)).
Proof.
  induction rest as [|c r IH]; intros acc.
  - simpl. now rewrite distance_nil_r.
  - cbn [rowFrom String.length]. rewrite IH, distance_nil_r. reflexivity.
Qed.

(** A row of the matrix, computed from the row above it. *)
Lemma levRow_rowFrom (c2 : ascii) (t : list ascii) (rest : string) :
  forall acc,
    levRow c2 rest (rowFrom acc rest t) (distance acc (c2 :: t))
    = tl (rowFrom acc rest (c2 :: t)).
Proof.
  induction rest as [|c1 r IH]; intros acc.
  - reflexivity.
  - cbn [rowFrom tl].
    destruct r as [|c r'] eqn:Er.
    + cbn [rowFrom levRow]. rewrite distance_cons. reflexivity.
    + rewrite <- Er in *.
      assert (Hrow : forall u, rowFrom (c1 :: acc) r u
                = distance (c1 :: acc) u :: tl (rowFrom (c1 :: acc) r u)).
      { intros u. destruct r; reflexivity. }
      rewrite (Hrow t). cbn [levRow].
      rewrite <- (Hrow t), <- distance_cons, IH, <- Hrow. reflexivity.
Qed.

Lemma levRows_rowFrom (str1 str2 : string) :
  forall t,
    levRows str1 str2 (rowFrom [] str1 t) (List.length t)
    = rowFrom [] str1 (rev (list_ascii_of_string str2) ++ t).
Proof.
  induction str2 as [|c2 r IH]; intros t.
  - reflexivity.
  - cbn [levRows list_ascii_of_string rev].
    change (S (List.length t)) with (distance [] (c2 :: t)) at 2.
    rewrite levRow_rowFrom.
    assert (Hrow : distance [] (c2 :: t) :: tl (rowFrom [] str1 (c2 :: t))
                   = rowFrom [] str1 (c2 :: t)) by (destruct str1; reflexivity).
    change (S (List.length t) :: tl (rowFrom [] str1 (c2 :: t)))
      with (distance [] (c2 :: t) :: tl (rowFrom [] str1 (c2 :: t))).
    rewrite Hrow.
    change (S (List.length t)) with (List.length (c2 :: t)).
    rewrite IH, <- app_assoc. reflexivity.
Qed.

Lemma last_rowFrom (rest : string) (t : list ascii) :
  forall acc d,
    last (rowFrom acc rest t) d
    = distance (rev (list_ascii_of_string rest) ++ acc) t.
Proof.
  induction rest as [|c r IH]; intros acc d.
  - reflexivity.
  - cbn [rowFrom list_ascii_of_string rev].
    assert (Hne : rowFrom (c :: acc) r t <> []) by (destruct r; discriminate).
    destruct (rowFrom (c :: acc) r t) as [|x l] eqn:E; [now elim Hne|].
    rewrite <- E.
    assert (Hl : last (distance acc t :: rowFrom (c :: acc) r t) d
                 = last (rowFrom (c :: acc) r t) d).
    { rewrite E. reflexivity. }
    rewrite Hl, IH, <- app_assoc. reflexivity.
Qed.

(** [levenshteinDistance] computes the recurrence. *)
Lemma levenshtein_distance (str1 str2 : string) :
  levenshteinDistance str1 str2
  = distance (rev (list_ascii_of_string str1))
             (rev (list_ascii_of_string str2)).
Proof.
  unfold levenshteinDistance.
  pose proof (rowFrom_nil str1 []) as H0. cbn [List.length] in H0.
  rewrite <- H0.
  pose proof (levRows_rowFrom str1 str2 []) as H1. cbn [List.length] in H1.
  rewrite H1, last_rowFrom, !app_nil_r. reflexivity.
Qed.

Lemma distance_nil_l (t : list ascii) : distance [] t = List.length t.
Proof. reflexivity. Qed.

Lemma distance_refl (s : list ascii) : distance s s = 0.
Proof.
  induction s as [|a s IH]; [reflexivity|].
  rewrite distance_cons, IH, Ascii.eqb_refl. lia.
Qed.

Lemma distance_sym (s : list ascii) : forall t, distance s t = distance t s.
Proof.
  induction s as [|a s IHs]; intros t.
  - now rewrite distance_nil_r.
  - induction t as [|b t IHt].
    + reflexivity.
    + rewrite !distance_cons, (IHs (b :: t)), IHt, (IHs t), (Ascii.eqb_sym a b).
      lia.
Qed.

Lemma distance_upper (s : list ascii) :
  forall t, distance s t <= Nat.max (List.length s) (List.length t).
Proof.
  induction s as [|a s IHs]; intros t.
  - simpl. lia.
  - destruct t as [|b t].
    + simpl. lia.
    + rewrite distance_cons. specialize (IHs t). cbn [List.length].
      destruct (Ascii.eqb a b); lia.
Qed.

Lemma distance_lower (s : list ascii) :
  forall t, List.length s - List.length t <= distance s t
            /\ List.length t - List.length s <= distance s t.
Proof.
  induction s as [|a s IHs]; intros t.
  - simpl. lia.
  - induction t as [|b t IHt].
    + simpl. lia.
    + rewrite distance_cons. cbn [List.length].
      pose proof (IHs (b :: t)) as H1. pose proof (IHs t) as H2.
      cbn [List.length] in *. destruct (Ascii.eqb a b); lia.
Qed.

Lemma distance_zero (s : list ascii) : forall t, distance s t = 0 -> s = t.
Proof.
  induction s as [|a s IHs]; intros t.
  - simpl. destruct t; [reflexivity | discriminate].
  - destruct t as [|b t]; [discriminate|].
    rewrite distance_cons. intros H.
    destruct (Ascii.eqb a b) eqn:E.
    + apply Ascii.eqb_eq in E. subst b. f_equal. apply IHs. lia.
    + lia.
Qed.

Lemma distance_step (a c : ascii) (s u : list ascii) :
  distance (a :: s) (c :: u) <= distance s (c :: u) + 1
  /\ distance (a :: s) (c :: u) <= distance (a :: s) u + 1
  /\ distance (a :: s) (c :: u)
     <= distance s u + (if Ascii.eqb a c then 0 else 1).
Proof. rewrite distance_cons. lia. Qed.

Lemma distance_triangle_bounded (n : nat) :
  forall s t u,
    List.length s + List.length t + List.length u <= n ->
    distance s u <= distance s t + distance t u.
Proof.
  induction n as [|n IH]; intros s t u Hn.
  - destruct s, t, u; simpl in *; lia.
  - destruct s as [|a s].
    + rewrite !distance_nil_l. pose proof (distance_lower t u). lia.
    + destruct u as [|c u].
      * rewrite !distance_nil_r. pose proof (distance_lower (a :: s) t).
        lia.
      * destruct t as [|b t].
        { rewrite distance_nil_r, distance_nil_l.
          pose proof (distance_upper (a :: s) (c :: u)). lia. }
        cbn [List.length] in Hn.
        destruct (distance_step a c s u) as (S1 & S2 & S3).
        pose proof (IH s (b :: t) (c :: u)) as T1.
        pose proof (IH (a :: s) (b :: t) u) as T2.
        pose proof (IH (a :: s) t (c :: u)) as T3.
        pose proof (IH s t u) as T4.
        pose proof (IH (a :: s) t u) as T5.
        pose proof (IH s t (c :: u)) as T6.
        cbn [List.length] in T1, T2, T3, T4, T5, T6.
        specialize (T1 ltac:(lia)). specialize (T2 ltac:(lia)).
        specialize (T3 ltac:(lia)). specialize (T4 ltac:(lia)).
        specialize (T5 ltac:(lia)). specialize (T6 ltac:(lia)).
        pose proof (distance_cons a b s t) as EX.
        pose proof (distance_cons b c t u) as EY.
        assert (Hind : (if Ascii.eqb a c then 0 else 1)
                       <= (if Ascii.eqb a b then 0 else 1)
                          + (if Ascii.eqb b c then 0 else 1)).
        { destruct (Ascii.eqb a b) eqn:E1, (Ascii.eqb b c) eqn:E2,
                   (Ascii.eqb a c) eqn:E3; try lia.
          apply Ascii.eqb_eq in E1, E2. subst.
          rewrite Ascii.eqb_refl in E3. discriminate. }
        lia.
Qed.

Lemma distance_triangle (s t u : list ascii) :
  distance s u <= distance s t + distance t u.
Proof. eapply distance_triangle_bounded. reflexivity. Qed.

Lemma chars_length (s : string) :
  List.length (rev (list_ascii_of_string s)) = String.length s.
Proof.
  rewrite length_rev. induction s as [|c s IH]; simpl; [reflexivity|].
  now rewrite IH.
Qed.

Lemma chars_inj (a b : string) :
  rev (list_ascii_of_string a) = rev (list_ascii_of_string b) -> a = b.
Proof.
  intros H. apply (f_equal (@rev ascii)) in H. rewrite !rev_involutive in H.
  apply (f_equal string_of_list_ascii) in H.
  now rewrite !string_of_list_ascii_of_string in H.
Qed.

End LevenshteinFacts.

(** ** Facts about the alphabet of normalized names *)

Module SlugFacts.

Import Str ColumnMapper Slug.

(** Facts about one character are settled by running through all 256. *)
Ltac each_char c :=
  destruct c as [[] [] [] [] [] [] [] []]; vm_compute; intros;
  try reflexivity; try discriminate.

Lemma lower_word_slug (c : ascii) :
  isWord (lowerChar c) = true -> isSlugChar (lowerChar c) = true.
Proof. each_char c. Qed.

Lemma replaced_slug_or_space (c : ascii) :
  implb (isWord c) (isSlugChar c) = true ->
  (isSlugChar (if (isWord c || isSpace c)%bool then c else " "%char)
   || isSpace (if (isWord c || isSpace c)%bool then c else " "%char))%bool
  = true.
Proof. each_char c. Qed.

Lemma slug_not_space (c : ascii) : isSlugChar c = true -> isSpace c = false.
Proof. each_char c. Qed.

Lemma slug_lower (c : ascii) : isSlugChar c = true -> lowerChar c = c.
Proof. each_char c. Qed.

Lemma slug_word (c : ascii) : isSlugChar c = true -> isWord c = true.
Proof. each_char c. Qed.

Lemma space_not_plain (c : ascii) : isSpace c = true -> isPlain c = false.
Proof. each_char c. Qed.

Lemma underscore_not_plain : isPlain "_"%char = false.
Proof. reflexivity. Qed.

Lemma allChars_impl (p q : ascii -> bool) (s : string) :
  (forall c, p c = true -> q c = true) ->
  allChars p s = true -> allChars q s = true.
Proof.
  intros Hpq. induction s as [|c s IH]; simpl; [easy|].
  intros H. apply andb_true_iff in H as [Hc Hs].
  now rewrite (Hpq c Hc), IH.
Qed.

Lemma allChars_append (p : ascii -> bool) (a b : string) :
  allChars p (a ++ b) = (allChars p a && allChars p b)%bool.
Proof.
  induction a as [|c a IH]; simpl; [reflexivity|].
  now rewrite IH, andb_assoc.
Qed.

Lemma allChars_trimStart (p : ascii -> bool) (s : string) :
  allChars p s = true -> allChars p (trimStart s) = true.
Proof.
  induction s as [|c s IH]; simpl; [easy|].
  intros H. destruct (isSpace c); [|exact H].
  apply andb_true_iff in H as [_ Hs]. now apply IH.
Qed.

Lemma allChars_trimEnd (p : ascii -> bool) (s : string) :
  allChars p s = true -> allChars p (trimEnd s) = true.
Proof.
  induction s as [|c s IH]; [easy|].
  intros H. cbn [trimEnd]. destruct (allSpace (String c s)); [reflexivity|].
  simpl in *. apply andb_true_iff in H as [Hc Hs]. now rewrite Hc, IH.
Qed.

Lemma allChars_trim (p : ascii -> bool) (s : string) :
  allChars p s = true -> allChars p (trim s) = true.
Proof. intros H. now apply allChars_trimEnd, allChars_trimStart. Qed.

Lemma allChars_lower (s : string) :
  allChars (fun c => implb (isWord c) (isSlugChar c)) (toLowerCase s) = true.
Proof.
  induction s as [|c s IH]; simpl; [reflexivity|]. rewrite IH, andb_true_r.
  destruct (isWord (lowerChar c)) eqn:E; [|reflexivity].
  now rewrite lower_word_slug.
Qed.

Lemma allChars_replaced (s : string) :
  allChars (fun c => implb (isWord c) (isSlugChar c)) s = true ->
  allChars (fun c => (isSlugChar c || isSpace c)%bool)
           (replaceNonWordNonSpace s) = true.
Proof.
  induction s as [|c s IH]; simpl; [easy|].
  intros H. apply andb_true_iff in H as [Hc Hs].
  now rewrite (replaced_slug_or_space c Hc), IH.
Qed.

Lemma allChars_runs (p : ascii -> bool) (r : string) (s : string) :
  allChars p r = true ->
  (forall c, isSpace c = false -> In c (list_ascii_of_string s) ->
             p c = true) ->
  forall b, allChars p (replaceSpaceRunsFrom r b s) = true.
Proof.
  intros Hr. induction s as [|c s IH]; intros Hs b; simpl; [reflexivity|].
  assert (Hs' : forall c0, isSpace c0 = false ->
                  In c0 (list_ascii_of_string s) -> p c0 = true).
  { intros c0 H0 Hin. apply Hs; [exact H0 | now right]. }
  destruct (isSpace c) eqn:E.
  - destruct b; [now apply IH|].
    rewrite allChars_append, Hr. now apply IH.
  - simpl. rewrite (Hs c E (or_introl eq_refl)). now apply IH.
Qed.

Lemma allChars_In (p : ascii -> bool) (s : string) (c : ascii) :
  allChars p s = true -> In c (list_ascii_of_string s) -> p c = true.
Proof.
  induction s as [|x s IH]; simpl; [tauto|].
  intros H [<-|Hin]; apply andb_true_iff in H as [Hx Hs]; auto.
Qed.

(** The cleaned name consists of slug characters and white space. *)
Lemma clean_chars (x : string) :
  allChars (fun c => (isSlugChar c || isSpace c)%bool) (clean x) = true.
Proof.
  unfold clean. apply allChars_trim.
  apply allChars_runs; [reflexivity|].
  intros c _ Hin.
  apply (allChars_In (fun c0 => (isSlugChar c0 || isSpace c0)%bool) _ c) in Hin;
    [exact Hin|].
  apply allChars_replaced, allChars_trim, allChars_lower.
Qed.

(** The slug of a cleaned name consists of slug characters. *)
Lemma slug_chars (x : string) :
  allChars isSlugChar (replaceSpaceRuns "_" (clean x)) = true.
Proof.
  apply allChars_runs; [reflexivity|].
  intros c Hc Hin.
  pose proof (allChars_In _ _ _ (clean_chars x) Hin) as H.
  cbv beta in H. rewrite Hc, orb_false_r in H. exact H.
Qed.

Lemma firstSynonym_In (table : list (string * list string)) (s st : string) :
  firstSynonym table s = Some st -> In st (map fst table).
Proof.
  induction table as [|[k syns] table IH]; simpl; [discriminate|].
  destruct (existsb _ syns); [intros [= <-]; now left | auto].
Qed.

Lemma firstSynonym_None (table : list (string * list string)) (s : string) :
  firstSynonym table s = None
  <-> forall k syns syn, In (k, syns) table -> In syn syns ->
                         includes s syn = false.
Proof.
  induction table as [|[k syns] table IH]; simpl.
  - split; [intros _ ? ? ? [] | reflexivity].
  - destruct (existsb (fun synonym => includes s synonym) syns) eqn:E.
    + split; [discriminate|]. intros H.
      apply existsb_exists in E as (syn & Hin & Hinc).
      rewrite (H k syns syn (or_introl eq_refl) Hin) in Hinc. discriminate.
    + rewrite IH. split.
      * intros H k' syns' syn [[= <- <-]|Hin] Hsyn;
          [|exact (H k' syns' syn Hin Hsyn)].
        destruct (includes s syn) eqn:Ei; [|reflexivity].
        assert (existsb (fun synonym => includes s synonym) syns = true)
          by (apply existsb_exists; eauto).
        congruence.
      * intros H k' syns' syn Hin. apply (H k' syns' syn). now right.
Qed.

(** Replacing white space by underscores creates no occurrence of a word
    that has neither. *)
Lemma prefix_runs (s : string) :
  forall syn,
    allChars isPlain syn = true ->
    String.prefix syn (replaceSpaceRunsFrom "_" false s) = true ->
    String.prefix syn s = true.
Proof.
  induction s as [|c s IH]; intros syn Hsyn; [easy|].
  destruct syn as [|d syn]; [reflexivity|].
  simpl in Hsyn. apply andb_true_iff in Hsyn as [Hd Hsyn].
  cbn [replaceSpaceRunsFrom]. destruct (isSpace c) eqn:E.
  - simpl. destruct (ascii_dec d "_") as [->|_]; [|discriminate].
    rewrite underscore_not_plain in Hd. discriminate.
  - simpl. destruct (ascii_dec d c); [|discriminate]. now apply IH.
Qed.

Lemma includes_runs (syn : string) (s : string) :
  allChars isPlain syn = true -> syn <> "" ->
  forall b,
    includes (replaceSpaceRunsFrom "_" b s) syn = true ->
    includes s syn = true.
Proof.
  intros Hsyn Hne. induction s as [|c s IH]; intros b; [easy|].
  cbn [replaceSpaceRunsFrom]. destruct (isSpace c) eqn:E.
  - destruct b.
    + intros H. apply StrFacts.includes_tail, (IH true), H.
    + change ("_" ++ replaceSpaceRunsFrom "_" true s)
        with (String "_" (replaceSpaceRunsFrom "_" true s)).
      intros H. cbn [includes] in H.
      destruct (String.prefix syn (String "_" _)) eqn:P.
      * destruct syn as [|d syn]; [now elim Hne|].
        simpl in P, Hsyn. destruct (ascii_dec d "_") as [->|_];
          [|discriminate].
        rewrite underscore_not_plain in Hsyn. discriminate.
      * apply StrFacts.includes_tail, (IH true), H.
  - intros H. cbn [includes] in H.
    destruct (String.prefix syn (String c (replaceSpaceRunsFrom "_" false s)))
      eqn:P.
    + apply StrFacts.includes_prefix.
      apply prefix_runs; [exact Hsyn|].
      cbn [replaceSpaceRunsFrom]. now rewrite E.
    + apply StrFacts.includes_tail, (IH false), H.
Qed.

(** A string of slug characters is left as it is by the cleaning steps and
    by the replacement of white space. *)
Lemma slug_trimStart (s : string) :
  allChars isSlugChar s = true -> trimStart s = s.
Proof.
  destruct s as [|c s]; [reflexivity|]. simpl. intros H.
  apply andb_true_iff in H as [Hc _]. now rewrite (slug_not_space c Hc).
Qed.

Lemma slug_trimEnd (s : string) :
  allChars isSlugChar s = true -> trimEnd s = s.
Proof.
  induction s as [|c s IH]; [reflexivity|]. intros H.
  simpl in H. apply andb_true_iff in H as [Hc Hs].
  cbn [trimEnd allSpace]. rewrite (slug_not_space c Hc). simpl.
  now rewrite IH.
Qed.

Lemma slug_toLowerCase (s : string) :
  allChars isSlugChar s = true -> toLowerCase s = s.
Proof.
  induction s as [|c s IH]; [reflexivity|]. simpl. intros H.
  apply andb_true_iff in H as [Hc Hs]. now rewrite (slug_lower c Hc), IH.
Qed.

Lemma slug_replaced (s : string) :
  allChars isSlugChar s = true -> replaceNonWordNonSpace s = s.
Proof.
  induction s as [|c s IH]; [reflexivity|]. simpl. intros H.
  apply andb_true_iff in H as [Hc Hs]. now rewrite (slug_word c Hc), IH.
Qed.

Lemma slug_runs (r : string) (s : string) :
  allChars isSlugChar s = true -> replaceSpaceRunsFrom r false s = s.
Proof.
  induction s as [|c s IH]; [reflexivity|]. simpl. intros H.
  apply andb_true_iff in H as [Hc Hs]. now rewrite (slug_not_space c Hc), IH.
Qed.

Lemma slug_clean (s : string) : allChars isSlugChar s = true -> clean s = s.
Proof.
  intros H. unfold clean, trim, replaceSpaceRuns.
  rewrite (slug_toLowerCase s H), (slug_trimStart s H), (slug_trimEnd s H),
          (slug_replaced s H), (slug_runs " " s H),
          (slug_trimStart s H), (slug_trimEnd s H).
  reflexivity.
Qed.

(** What holds of the table: every standard name normalizes to itself and
    consists of slug characters, and every synonym is a non-empty word
    without white space and underscores. *)
Lemma table_standard :
  forallb (fun e => (String.eqb (normalizeColumnName (fst e)) (fst e)
                     && allChars isSlugChar (fst e))%bool) synonyms = true.
Proof. reflexivity. Qed.

Lemma table_synonyms :
  forallb (fun e => forallb (fun syn => (allChars isPlain syn
                                         && negb (String.eqb syn ""))%bool)
                            (snd e)) synonyms = true.
Proof. reflexivity. Qed.

End SlugFacts.

(** ** Integer limits and [slice] *)

Module PreviewFacts.

Import Num JS Numbers ReadWorksheet.
Local Open Scope list_scope.

(** Cutting the fraction off the number of an integer gives the integer. *)
Lemma toInteger_ofZ (z : Z) :
  (Z.abs z < 2 ^ 53)%Z -> toIntegerOrInfinity (ofZ z) = Finite z.
Proof.
  intros H. destruct (NumFacts.cond_Zopp_split z) as [->|(s & p & ->)];
    [reflexivity|].
  assert (Hp : (Zpos p < 2 ^ 53)%Z) by (destruct s; simpl in H; lia).
  rewrite NumFacts.ofZ_finite by exact Hp.
  pose proof (NumFacts.digits_le_53 p Hp) as Hd.
  set (d := Zpos (digits2_pos p)) in *.
  assert (1 <= d)%Z by (unfold d; lia).
  clearbody d. clear H Hp.
  unfold toIntegerOrInfinity. rewrite NumFacts.shiftl_nat_Z.
  rewrite Z2Nat.id by lia.
  assert (Hwhole : (if (0 <=? d - 53)%Z
                    then (Zpos p * 2 ^ (53 - d) * 2 ^ (d - 53))%Z
                    else (Zpos p * 2 ^ (53 - d) / 2 ^ (- (d - 53)))%Z)
                   = Zpos p).
  { destruct (0 <=? d - 53)%Z eqn:E.
    - apply Z.leb_le in E. assert (Hd53 : d = 53%Z) by lia.
      rewrite Hd53. simpl. lia.
    - replace (- (d - 53))%Z with (53 - d)%Z by lia.
      apply Z.div_mul. apply Z.pow_nonzero; lia. }
  rewrite Hwhole. destruct s; reflexivity.
Qed.

Lemma sliceTo_firstn {A : Type} (l : list A) (e : extended) :
  exists k, k <= List.length l /\ sliceTo l e = firstn k l.
Proof.
  destruct e as [z| |]; cbn [sliceTo].
  - destruct (Z.ltb z 0) eqn:E; eexists; (split; [|reflexivity]);
      [apply Z.ltb_lt in E | apply Z.ltb_ge in E]; lia.
  - exists (List.length l). split; [lia | now rewrite firstn_all].
  - exists 0. split; [lia | reflexivity].
Qed.

Lemma sliceTo_nonneg {A : Type} (l : list A) (z : Z) :
  (0 <= z)%Z -> sliceTo l (Finite z) = firstn (Z.to_nat z) l.
Proof.
  intros H. cbn [sliceTo]. destruct (Z.ltb z 0) eqn:E;
    [apply Z.ltb_lt in E; lia|].
  destruct (Z.le_ge_cases z (Z.of_nat (List.length l))) as [Hle|Hge].
  - now rewrite Z.min_l.
  - rewrite Z.min_r by lia. rewrite Nat2Z.id, firstn_all.
    symmetry. apply firstn_all2. lia.
Qed.

Lemma sliceTo_negative {A : Type} (l : list A) (z : Z) :
  (z < 0)%Z ->
  sliceTo l (Finite z) = firstn (List.length l - Z.to_nat (- z)) l.
Proof.
  intros H. cbn [sliceTo]. destruct (Z.ltb z 0) eqn:E;
    [|apply Z.ltb_ge in E; lia].
  f_equal. lia.
Qed.

End PreviewFacts.

(** ** Filters and comparisons of numbers *)

Module FilterFacts.

Import Num JS ExcelTools.
Local Open Scope list_scope.

Section Lists.
Context {A : Type}.
Variable p : A -> bool.

Lemma In_firstn (n : nat) (l : list A) (x : A) :
  In x (firstn n l) -> In x l.
Proof.
  intros H. rewrite <- (firstn_skipn n l). apply in_or_app. now left.
Qed.

Lemma filter_firstn_filter (n : nat) (l : list A) :
  List.filter p (firstn n (List.filter p l)) = firstn n (List.filter p l).
Proof.
  assert (H : forall m, Forall (fun x => p x = true) m ->
                        List.filter p m = m).
  { induction m as [|x m IH]; intros Hm; [reflexivity|].
    inversion Hm; subst. simpl. rewrite H1. f_equal. now apply IH. }
  apply H. apply Forall_forall. intros x Hx.
  apply In_firstn in Hx.
  now apply filter_In in Hx.
Qed.

Lemma filter_split_length (l : list A) :
  List.length (List.filter p l)
  + List.length (List.filter (fun x => negb (p x)) l)
  = List.length l.
Proof.
  induction l as [|x l IH]; [reflexivity|].
  simpl. destruct (p x); simpl; lia.
Qed.

Lemma firstn_firstn_same (n : nat) (l : list A) :
  firstn n (firstn n l) = firstn n l.
Proof. rewrite firstn_firstn. now rewrite Nat.min_id. Qed.

Lemma filter_all (l : list A) :
  (forall x, In x l -> p x = true) -> List.filter p l = l.
Proof.
  induction l as [|x l IH]; intros H; [reflexivity|].
  simpl. rewrite (H x (or_introl eq_refl)). f_equal.
  apply IH. intros y Hy. apply H. now right.
Qed.

Lemma filter_none (l : list A) :
  (forall x, In x l -> p x = false) -> List.filter p l = [].
Proof.
  induction l as [|x l IH]; intros H; [reflexivity|].
  simpl. rewrite (H x (or_introl eq_refl)).
  apply IH. intros y Hy. apply H. now right.
Qed.
Lemma filter_split_within (q n : A -> bool) (l : list A) :
  (forall x, n x = true -> p x = negb (q x)) ->
  (forall x, n x = false -> p x = false /\ q x = false) ->
  List.length (List.filter p l) + List.length (List.filter q l)
  = List.length (List.filter n l).
Proof.
  intros Hn Hf. induction l as [|x l IH]; [reflexivity|].
  simpl. destruct (n x) eqn:E.
  - rewrite (Hn x E). destruct (q x); simpl; lia.
  - destruct (Hf x E) as [-> ->]. exact IH.
Qed.
End Lists.

(** An ordering comparison with [NaN] is false. *)
Lemma ltb_numbers (a b : num) :
  ltb a b = true -> isNaN a = false /\ isNaN b = false.
Proof. destruct a, b; simpl; try discriminate; now split. Qed.

Lemma leb_numbers (a b : num) :
  leb a b = true -> isNaN a = false /\ isNaN b = false.
Proof. destruct a, b; simpl; try discriminate; now split. Qed.

(** Comparing the other way round gives the opposite answer. *)
Lemma compare_antisym (a b : num) :
  SFcompare b a = option_map CompOpp (SFcompare a b).
Proof.
  destruct a as [sa|sa| |sa ma ea], b as [sb|sb| |sb mb eb];
    try reflexivity;
    try (destruct sa; reflexivity);
    try (destruct sb; reflexivity);
    try (destruct sa, sb; reflexivity).
  simpl. destruct sa, sb; try reflexivity.
  - rewrite (Z.compare_antisym ea eb).
    destruct (ea ?= eb)%Z eqn:E; simpl; try reflexivity.
    change (Pos.compare_cont Eq mb ma) with (Pos.compare mb ma).
    change (Pos.compare_cont Eq ma mb) with (Pos.compare ma mb).
    rewrite (Pos.compare_antisym ma mb).
    destruct (ma ?= mb)%positive; reflexivity.
  - rewrite (Z.compare_antisym ea eb).
    destruct (ea ?= eb)%Z eqn:E; simpl; try reflexivity.
    change (Pos.compare_cont Eq mb ma) with (Pos.compare mb ma).
    change (Pos.compare_cont Eq ma mb) with (Pos.compare ma mb).
    rewrite (Pos.compare_antisym ma mb).
    destruct (ma ?= mb)%positive; reflexivity.
Qed.

(** On numbers, [a > b] holds exactly when [a <= b] does not. *)
Lemma gtb_not_leb (a b : num) :
  isNaN a = false -> isNaN b = false -> gtb a b = negb (leb a b).
Proof.
  intros Ha Hb. unfold gtb, leb, SFltb, SFleb.
  rewrite (compare_antisym a b).
  destruct (SFcompare a b) as [[]|] eqn:E; try reflexivity.
  destruct a, b; simpl in *; try discriminate.
Qed.

Lemma ltb_not_geb (a b : num) :
  isNaN a = false -> isNaN b = false -> ltb a b = negb (geb a b).
Proof.
  intros Ha Hb. unfold geb, ltb, SFltb, SFleb.
  rewrite (compare_antisym a b).
  destruct (SFcompare a b) as [[]|] eqn:E; try reflexivity.
  destruct a, b; simpl in *; try discriminate.
Qed.

(** What [filterData] returns, when it returns. *)
Lemma filterData_returns (host : Host) (headers : list string)
  (rows : list row) (column operator : string) (value : cell)
  (r : FilterResult) :
  filterData host headers rows column operator value = Return r ->
  exists ci,
    findIndex (containsEitherWay column) headers = Some ci
    /\ r = {| filteredRows :=
                firstn 100
                  (List.filter (keeps host operator value ci) rows);
              totalMatches :=
                List.length
                  (List.filter (keeps host operator value ci) rows);
              filter := (column, operator, value) |}.
Proof.
  unfold filterData.
  destruct (findIndex (containsEitherWay column) headers) as [ci|];
    [|discriminate].
  intros H. exists ci. split; [reflexivity | congruence].
Qed.

(** A numeric operator keeps a row only if the cell and the value are
    numbers. *)
Lemma keeps_numbers (host : Host) (operator : string) (value : cell)
  (ci : nat) :
  In operator [">"; "<"; ">="; "<="] ->
  forall x, keeps host operator value ci x = true ->
    isNaN (Number host (cellAt x ci)) = false
    /\ isNaN (Number host value) = false.
Proof.
  intros Hop x. unfold keeps.
  destruct Hop as [<-|[<-|[<-|[<-|[]]]]]; cbn -[ltb leb gtb geb]; intros H.
  - now apply ltb_numbers in H.
  - now apply ltb_numbers in H.
  - now apply leb_numbers in H.
  - now apply leb_numbers in H.
Qed.

Lemma numericValues_length (host : Host) (ci : nat) (rows : list row) :
  List.length (numericValues host ci rows)
  = List.length (List.filter (numeric host ci) rows).
Proof.
  unfold numericValues, numeric. induction rows as [|r rows IH];
    [reflexivity|].
  simpl. destruct (isNaN (Number host (cellAt r ci))); simpl; now rewrite IH.
Qed.

End FilterFacts.

(** ** Stability of the sort *)

Module StableFacts.

Import Num JS ExcelTools.
Local Open Scope list_scope.

Lemma sorted_firstn {A : Type} (R : A -> A -> Prop) (n : nat) (l : list A) :
  StronglySorted R l -> StronglySorted R (firstn n l).
Proof.
  intros H. revert n. induction H as [|x l Hs IH Hx]; intros n.
  - rewrite firstn_nil. constructor.
  - destruct n as [|n]; simpl; [constructor|].
    constructor; [apply IH|].
    rewrite Forall_forall in Hx |- *. intros y Hy. apply Hx.
    rewrite <- (firstn_skipn n l). apply in_or_app. now left.
Qed.

Lemma sorted_impl {A : Type} (R S : A -> A -> Prop) (l : list A) :
  (forall a b, In a l -> In b l -> R a b -> S a b) ->
  StronglySorted R l -> StronglySorted S l.
Proof.
  intros H Hs. induction Hs as [|x l Hs IH Hx]; constructor.
  - apply IH. intros a b Ha Hb. apply H; now right.
  - rewrite Forall_forall in Hx |- *. intros y Hy.
    apply H; [now left | now right | now apply Hx].
Qed.

Section Comparator.
Context {A : Type}.
Variable cmp : A -> A -> num.
Variable P : A -> Prop.
Hypothesis flips :
  forall a b, P a -> P b -> sign (cmp a b) = CompOpp (sign (cmp b a)).
Hypothesis transitive :
  forall a b c, P a -> P b -> P c ->
    before cmp a b = true -> before cmp b c = true -> before cmp a c = true.

(** Inserting a row moves no row past a row it is tied with. *)
Lemma insertSorted_ties (x0 x : A) (l : list A) :
  P x0 -> P x -> Forall P l ->
  List.filter (fun y => sameSign (sign (cmp x0 y)) Eq) (insertSorted cmp x l)
  = List.filter (fun y => sameSign (sign (cmp x0 y)) Eq) (x :: l).
Proof.
  intros H0 Hx Hl. induction Hl as [|y l Hy Hl IH]; [reflexivity|].
  cbn [insertSorted]. destruct (sign (cmp x y)) eqn:E; try reflexivity.
  cbn [List.filter] in *. rewrite IH.
  destruct (sameSign (sign (cmp x0 y)) Eq) eqn:Ty;
    destruct (sameSign (sign (cmp x0 x)) Eq) eqn:Tx; try reflexivity.
  exfalso.
  assert (T1 : sign (cmp x0 y) = Eq) by (now destruct (sign (cmp x0 y))).
  assert (T2 : sign (cmp x0 x) = Eq) by (now destruct (sign (cmp x0 x))).
  pose proof (SortFacts.tie_sym cmp P flips x0 x H0 Hx T2) as T3.
  pose proof (SortFacts.tie_trans cmp P flips transitive x x0 y Hx H0 Hy
                T3 T1) as T4.
  congruence.
Qed.

(** The sort is stable: rows tied with a given row keep their order. *)
Lemma sort_ties (x0 : A) (l : list A) :
  P x0 -> Forall P l ->
  List.filter (fun y => sameSign (sign (cmp x0 y)) Eq) (sort cmp l)
  = List.filter (fun y => sameSign (sign (cmp x0 y)) Eq) l.
Proof.
  intros H0 Hl. induction Hl as [|x l Hx Hl IH]; [reflexivity|].
  unfold sort in *. cbn [fold_right].
  rewrite insertSorted_ties; auto.
  - cbn [List.filter]. now rewrite IH.
  - eapply Permutation_Forall;
      [apply Permutation_sym, (SortFacts.sort_perm cmp l) | exact Hl].
Qed.
End Comparator.

(** A comparator consistent on the rows in one order is consistent on them
    in the other. *)
Lemma consistent_desc (host : Host) (ci : nat) (rows : list row) :
  consistentOn (compareRows host asc ci) rows = true ->
  (forall a b, In a rows -> In b rows ->
     sign (compareRows host desc ci a b)
     = CompOpp (sign (compareRows host desc ci b a)))
  /\ (forall a b c, In a rows -> In b rows -> In c rows ->
        before (compareRows host desc ci) a b = true ->
        before (compareRows host desc ci) b c = true ->
        before (compareRows host desc ci) a c = true).
Proof.
  intros H. apply SortFacts.consistentOn_spec in H as [Hf Ht]. split.
  - intros a b Ha Hb. rewrite !SortFacts.compareRows_desc. now apply Hf.
  - intros a b c Ha Hb Hc. unfold before.
    rewrite !SortFacts.compareRows_desc. intros H1 H2.
    apply (Ht c b a Hc Hb Ha); assumption.
Qed.

Lemma consistent_order (host : Host) (o : order) (ci : nat)
  (rows : list row) :
  consistentOn (compareRows host asc ci) rows = true ->
  (forall a b, In a rows -> In b rows ->
     sign (compareRows host o ci a b)
     = CompOpp (sign (compareRows host o ci b a)))
  /\ (forall a b c, In a rows -> In b rows -> In c rows ->
        before (compareRows host o ci) a b = true ->
        before (compareRows host o ci) b c = true ->
        before (compareRows host o ci) a c = true).
Proof.
  destruct o; [apply SortFacts.consistentOn_spec | apply consistent_desc].
Qed.

Lemma sortData_returns (host : Host) (headers : list string)
  (rows : list row) (column : string) (o : order) (r : SortResult) :
  sortData host headers rows column o = Return r ->
  exists ci,
    findIndex (headerContains column) headers = Some ci
    /\ r = {| sortedRows := firstn 100 (sort (compareRows host o ci) rows);
              totalRows := List.length (sort (compareRows host o ci) rows);
              sortBy := (column, o) |}.
Proof.
  unfold sortData.
  destruct (findIndex (headerContains column) headers) as [ci|];
    [|discriminate].
  intros H. exists ci. split; [reflexivity | congruence].
Qed.

End StableFacts.

(** ** The scan of [validateData] *)

Module ValidateFacts.

Import Num JS ExcelTools EnhancedExcelAgent.
Local Open Scope list_scope.

Lemma nullCountOf_le (values : list cell) :
  nullCountOf values <= List.length values.
Proof. apply filter_length_le. Qed.

(** The null count of a column is 0 exactly when no row is blank there. *)
Lemma nullCountOf_zero (rows : list row) (index : nat) :
  nullCountOf (map (fun r => cellAt r index) rows) = 0
  <-> forall r, In r rows -> isBlank (cellAt r index) = false.
Proof.
  unfold nullCountOf. induction rows as [|r rows IH]; simpl.
  - split; [intros _ r [] | reflexivity].
  - destruct (isBlank (cellAt r index)) eqn:E; simpl.
    + split; [discriminate|]. intros H.
      specialize (H r (or_introl eq_refl)). congruence.
    + rewrite IH. split.
      * intros H x [<-|Hx]; [exact E | now apply H].
      * intros H x Hx. apply H. now right.
Qed.

Lemma scanHeaders_In (headers : list string) (base : nat) (rows : list row)
  (i : issue) :
  In i (scanHeaders headers base rows)
  <-> exists index header,
        nth_error headers index = Some header
        /\ 0 < nullCountOf (map (fun r => cellAt r (base + index)) rows)
        /\ i = NullReport header
                 (nullCountOf (map (fun r => cellAt r (base + index)) rows))
                 (percentage
                    (nullCountOf
                       (map (fun r => cellAt r (base + index)) rows))
                    (List.length rows)).
Proof.
  revert base i. induction headers as [|h hs IH]; intros base i.
  - simpl. split; [intros [] | intros ([|?] & ? & H & _); discriminate].
  - cbn [scanHeaders]. rewrite length_map.
    set (k := nullCountOf (map (fun r => cellAt r base) rows)).
    assert (Hhere : forall i0,
              (exists index header,
                 nth_error (h :: hs) index = Some header
                 /\ 0 < nullCountOf
                          (map (fun r => cellAt r (base + index)) rows)
                 /\ i0 = NullReport header
                           (nullCountOf
                              (map (fun r => cellAt r (base + index)) rows))
                           (percentage
                              (nullCountOf
                                 (map (fun r => cellAt r (base + index))
                                      rows))
                              (List.length rows)))
              <-> (0 < k /\ i0 = NullReport h k
                                   (percentage k (List.length rows)))
                  \/ In i0 (scanHeaders hs (S base) rows)).
    { intros i0. rewrite IH. split.
      - intros ([|index] & header & Hn & Hk & ->).
        + left. simpl in Hn. injection Hn as <-.
          rewrite Nat.add_0_r in *. now split.
        + right. exists index, header. simpl in Hn.
          replace (S base + index) with (base + S index) by lia.
          now repeat split.
      - intros [[Hk ->]|(index & header & Hn & Hk & ->)].
        + exists 0, h. rewrite Nat.add_0_r. now repeat split.
        + exists (S index), header.
          replace (base + S index) with (S base + index) by lia.
          now repeat split. }
    rewrite Hhere. destruct (Nat.ltb_spec 0 k) as [Hk|Hk].
    + simpl. split.
      * intros [<-|H]; [left; now split | now right].
      * intros [[_ ->]|H]; [now left | now right].
    + split; [now right|]. intros [[Hk' _]|H]; [lia | exact H].
Qed.

Lemma scanHeaders_length (headers : list string) (base : nat)
  (rows : list row) :
  List.length (scanHeaders headers base rows) <= List.length headers.
Proof.
  revert base. induction headers as [|h hs IH]; intros base; simpl; [lia|].
  destruct (Nat.ltb 0 _); simpl; specialize (IH (S base)); lia.
Qed.

(** The size of the [Set] of the values. *)
Lemma setOf_length (values seen : list cell) :
  List.length seen <= List.length (setOf values seen)
  /\ List.length (setOf values seen)
     <= List.length values + List.length seen.
Proof.
  revert seen. induction values as [|v vs IH]; intros seen; simpl; [lia|].
  destruct (existsb (sameValueZero v) seen).
  - specialize (IH seen). lia.
  - specialize (IH (seen ++ [v])). rewrite length_app in IH. simpl in IH. lia.
Qed.

Lemma setOf_nonempty (v : cell) (values : list cell) :
  1 <= List.length (setOf (v :: values) []).
Proof.
  simpl. pose proof (setOf_length values [v]) as [H _]. simpl in H. exact H.
Qed.

End ValidateFacts.

(** ** The loops of [mergeWorksheets] *)

Module MergeFacts.

Import JS MergeWorksheets.
Local Open Scope list_scope.

Lemma fetchAll_nil (db : string -> option Worksheet) (ids : list string) :
  fetchAll db ids = [] <-> forall id, In id ids -> db id = None.
Proof.
  induction ids as [|id ids IH]; simpl.
  - split; [intros _ ? [] | reflexivity].
  - destruct (db id) eqn:E.
    + split; [discriminate|]. intros H.
      specialize (H id (or_introl eq_refl)). congruence.
    + rewrite IH. split.
      * intros H x [<-|Hx]; [exact E | now apply H].
      * intros H x Hx. apply H. now right.
Qed.

Lemma fetchAll_In (db : string -> option Worksheet) (ids : list string)
  (ws : Worksheet) :
  In ws (fetchAll db ids) <-> exists id, In id ids /\ db id = Some ws.
Proof.
  induction ids as [|id ids IH]; simpl.
  - split; [intros [] | intros (? & [] & _)].
  - destruct (db id) eqn:E; simpl; rewrite ?IH.
    + split.
      * intros [<-|(x & Hx & Hd)]; [exists id; auto | exists x; auto].
      * intros (x & [<-|Hx] & Hd); [left; congruence | right; now exists x].
    + split.
      * intros (x & Hx & Hd). exists x; auto.
      * intros (x & [<-|Hx] & Hd); [congruence | now exists x].
Qed.

Lemma existsb_eqb (h : string) (seen : list string) :
  existsb (String.eqb h) seen = true <-> In h seen.
Proof.
  rewrite existsb_exists. split.
  - intros (x & Hx & E). apply String.eqb_eq in E. now subst.
  - intros H. exists h. split; [exact H | apply String.eqb_refl].
Qed.

Lemma addHeader_In (seen : list string) (h x : string) :
  In x (addHeader seen h) <-> In x seen \/ x = h.
Proof.
  unfold addHeader. destruct (existsb (String.eqb h) seen) eqn:E.
  - apply existsb_eqb in E. split; [now left|].
    intros [H | ->]; assumption.
  - rewrite in_app_iff. simpl. intuition.
Qed.

Lemma addHeader_NoDup (seen : list string) (h : string) :
  NoDup seen -> NoDup (addHeader seen h).
Proof.
  intros H. unfold addHeader. destruct (existsb (String.eqb h) seen) eqn:E;
    [exact H|].
  apply NoDup_app; [exact H | repeat constructor; intros [] |].
  intros x Hx [Hh|[]]. subst x.
  assert (existsb (String.eqb h) seen = true) by now apply existsb_eqb.
  congruence.
Qed.

Lemma addHeaders_In (hs seen : list string) (x : string) :
  In x (fold_left addHeader hs seen) <-> In x seen \/ In x hs.
Proof.
  revert seen. induction hs as [|h hs IH]; intros seen; simpl.
  - tauto.
  - rewrite IH, addHeader_In. intuition.
Qed.

Lemma addHeaders_NoDup (hs seen : list string) :
  NoDup seen -> NoDup (fold_left addHeader hs seen).
Proof.
  revert seen. induction hs as [|h hs IH]; intros seen H; simpl;
    [exact H|].
  now apply IH, addHeader_NoDup.
Qed.

Lemma collect_spec (wss : list Worksheet) :
  forall allHeaders allRows,
    NoDup allHeaders ->
    NoDup (fst (collect wss allHeaders allRows))
    /\ (forall x, In x (fst (collect wss allHeaders allRows))
                  <-> In x allHeaders
                      \/ exists ws, In ws wss /\ In x (headers ws))
    /\ snd (collect wss allHeaders allRows)
       = allRows ++ flat_map data wss.
Proof.
  induction wss as [|ws wss IH]; intros allHeaders allRows Hnd; simpl.
  - split; [exact Hnd|]. split; [|now rewrite app_nil_r].
    intros x. split; [now left | intros [H|(? & [] & _)]; exact H].
  - destruct (IH (fold_left addHeader (headers ws) allHeaders)
                 (allRows ++ data ws)
                 (addHeaders_NoDup _ _ Hnd)) as (N & I & R).
    split; [exact N|]. split; [|now rewrite R, app_assoc].
    intros x. rewrite I, addHeaders_In. split.
    + intros [[H|H]|(w & Hw & Hx)];
        [now left | right; exists ws; auto | right; exists w; auto].
    + intros [H|(w & [<-|Hw] & Hx)];
        [now left; left | now left; right | right; now exists w].
Qed.

End MergeFacts.

(** ** Properties of [ColumnMapper] *)

Module MapperProps.

Import Str ColumnMapper Slug.
Local Open Scope list_scope.

(** X1. [levenshteinDistance] is a metric on strings: it is zero exactly
    between equal strings, it is symmetric, and it satisfies the triangle
    inequality. *)
Theorem levenshtein_metric (a b c : string) :
  (levenshteinDistance a b = 0 <-> a = b)
  /\ levenshteinDistance a b = levenshteinDistance b a
  /\ levenshteinDistance a c
     <= levenshteinDistance a b + levenshteinDistance b c.
Proof.
  rewrite !LevenshteinFacts.levenshtein_distance. split; [split|split].
  - intros H.
    apply LevenshteinFacts.chars_inj, LevenshteinFacts.distance_zero, H.
  - intros ->. apply LevenshteinFacts.distance_refl.
  - apply LevenshteinFacts.distance_sym.
  - apply LevenshteinFacts.distance_triangle.
Qed.

(** X2. The distance to the empty string, either way, is the length of the
    string; the distance between two strings is at most the greater of
    their lengths and at least the difference of their lengths. *)
Theorem levenshtein_bounds (a b : string) :
  levenshteinDistance a "" = String.length a
  /\ levenshteinDistance "" b = String.length b
  /\ levenshteinDistance a b <= Nat.max (String.length a) (String.length b)
  /\ String.length a - String.length b <= levenshteinDistance a b
  /\ String.length b - String.length a <= levenshteinDistance a b.
Proof.
  rewrite !LevenshteinFacts.levenshtein_distance.
  rewrite <- (LevenshteinFacts.chars_length a),
          <- (LevenshteinFacts.chars_length b).
  split; [|split; [|split]].
  - simpl. now rewrite LevenshteinFacts.distance_nil_r.
  - reflexivity.
  - apply LevenshteinFacts.distance_upper.
  - apply LevenshteinFacts.distance_lower.
Qed.

(** X3. [findBestMatch] yields [undefined] only for an empty list of
    columns, and otherwise one of the columns. *)
Theorem findBestMatch_member (q : string) (H : list string) :
  (findBestMatch q H = None <-> H = [])
  /\ (forall h, findBestMatch q H = Some h -> In h H).
Proof.
  unfold findBestMatch. split; [split|].
  - intros E. apply MatchFacts.orElse_None, MatchFacts.orElse_None in E.
    destruct H as [|h0 H]; [reflexivity|].
    cbn [hd_error] in E.
    destruct (MatchFacts.fuzzyLoop_started (normalizeColumnName q)
                (h0 :: H) h0 None) as [r Hr].
    congruence.
  - intros ->. reflexivity.
  - intros h E.
    apply MatchFacts.orElse_Some in E as [E|E]; [now apply find_some in E|].
    apply MatchFacts.orElse_Some in E as [E|E]; [now apply find_some in E|].
    apply MatchFacts.fuzzyLoop_In in E as [E|E]; [|exact E].
    destruct H; [discriminate|]. injection E as ->. now left.
Qed.

(** X4. The second stage of [findBestMatch]: when no column has the
    normalized name of the query, the result is the first column whose
    normalized name contains the normalized query or is contained in it,
    provided that column is not the empty string. *)
Theorem findBestMatch_partial (q h : string) (before after : list string) :
  h <> "" ->
  (forall c, In c (before ++ h :: after) ->
     normalizeColumnName c <> normalizeColumnName q) ->
  (forall c, In c before ->
     includes (normalizeColumnName c) (normalizeColumnName q) = false
     /\ includes (normalizeColumnName q) (normalizeColumnName c) = false) ->
  (includes (normalizeColumnName h) (normalizeColumnName q)
   || includes (normalizeColumnName q) (normalizeColumnName h))%bool = true ->
  findBestMatch q (before ++ h :: after) = Some h.
Proof.
  intros Hh Hexact Hbefore Hpart. unfold findBestMatch.
  rewrite (MatchFacts.find_none_all
             (fun col => String.eqb (normalizeColumnName col)
                                    (normalizeColumnName q))).
  - rewrite (StageFacts.find_first
               (fun col =>
                  (includes (normalizeColumnName col) (normalizeColumnName q)
                   || includes (normalizeColumnName q)
                               (normalizeColumnName col))%bool)
               before after h).
    + cbn [orElse]. unfold truthy.
      destruct (String.eqb_spec h ""); [contradiction | reflexivity].
    + intros c Hc. destruct (Hbefore c Hc) as [-> ->]. reflexivity.
    + exact Hpart.
  - intros c Hc. apply String.eqb_neq. now apply Hexact.
Qed.

Lemma findBestMatch_partial_witness :
  findBestMatch "total" (["id"] ++ "Total Price" :: ["Totals"])
  = Some "Total Price".
Proof.
  apply (findBestMatch_partial "total" "Total Price" ["id"] ["Totals"]).
  - discriminate.
  - intros c [<-|[<-|[<-|[]]]]; vm_compute; discriminate.
  - intros c [<-|[]]. split; reflexivity.
  - reflexivity.
Defined.

(** X5. The last stage of [findBestMatch]: when the normalized query
    neither contains nor is contained in the normalized name of any column,
    the result is the first column whose normalized name has the least edit
    distance to the normalized query. *)
Theorem findBestMatch_fuzzy (q : string) (H : list string) :
  H <> [] ->
  (forall c, In c H ->
     includes (normalizeColumnName c) (normalizeColumnName q) = false
     /\ includes (normalizeColumnName q) (normalizeColumnName c) = false) ->
  exists h before after,
    H = before ++ h :: after
    /\ findBestMatch q H = Some h
    /\ Forall (fun c =>
                 levenshteinDistance (normalizeColumnName q)
                                     (normalizeColumnName h)
                 < levenshteinDistance (normalizeColumnName q)
                                       (normalizeColumnName c)) before
    /\ Forall (fun c =>
                 levenshteinDistance (normalizeColumnName q)
                                     (normalizeColumnName h)
                 <= levenshteinDistance (normalizeColumnName q)
                                        (normalizeColumnName c)) after.
Proof.
  intros Hne Hnone. unfold findBestMatch.
  set (nq := normalizeColumnName q) in *.
  assert (Hexact : find (fun col => String.eqb (normalizeColumnName col) nq) H
                   = None).
  { apply MatchFacts.find_none_all. intros c Hc.
    destruct (String.eqb (normalizeColumnName c) nq) eqn:E; [|reflexivity].
    apply String.eqb_eq in E. destruct (Hnone c Hc) as [H1 _].
    rewrite E, MatchFacts.includes_refl in H1. discriminate. }
  assert (Hpartial :
            find (fun col => (includes (normalizeColumnName col) nq
                              || includes nq (normalizeColumnName col))%bool)
                 H = None).
  { apply MatchFacts.find_none_all. intros c Hc.
    destruct (Hnone c Hc) as [-> ->]. reflexivity. }
  rewrite Hexact, Hpartial. cbn [orElse].
  destruct H as [|h0 H]; [now elim Hne|].
  cbn [hd_error fuzzyLoop].
  destruct (MatchFacts.fuzzyLoop_best nq H h0)
    as (r & pre & post & Hr & Hsplit & Hpre & Hpost).
  exists r, pre, post. repeat split; assumption.
Qed.

Lemma findBestMatch_fuzzy_witness :
  exists h before after,
    ["Size"; "Prize"; "Pride"] = before ++ h :: after
    /\ findBestMatch "prise" ["Size"; "Prize"; "Pride"] = Some h
    /\ Forall (fun c =>
                 levenshteinDistance (normalizeColumnName "prise")
                                     (normalizeColumnName h)
                 < levenshteinDistance (normalizeColumnName "prise")
                                       (normalizeColumnName c)) before
    /\ Forall (fun c =>
                 levenshteinDistance (normalizeColumnName "prise")
                                     (normalizeColumnName h)
                 <= levenshteinDistance (normalizeColumnName "prise")
                                        (normalizeColumnName c)) after.
Proof.
  apply (findBestMatch_fuzzy "prise" ["Size"; "Prize"; "Pride"]).
  - discriminate.
  - intros c [<-|[<-|[<-|[]]]]; split; reflexivity.
Defined.

(** X6. A normalized name consists of the characters [a-z0-9_] only
    (for names of code units below 256, as all strings here). *)
Theorem normalizeColumnName_alphabet (x : string) :
  allChars isSlugChar (normalizeColumnName x) = true.
Proof.
  unfold normalizeColumnName. destruct (String.eqb x ""); [reflexivity|].
  destruct (firstSynonym synonyms (clean x)) as [st|] eqn:E.
  - apply SlugFacts.firstSynonym_In in E.
    apply in_map_iff in E as (e & <- & He).
    pose proof SlugFacts.table_standard as T. rewrite forallb_forall in T.
    specialize (T e He). now apply andb_true_iff in T as [_ T].
  - apply SlugFacts.slug_chars.
Qed.

(** X7. Normalizing a normalized name changes nothing (for names of code
    units below 256, as all strings here). *)
Theorem normalizeColumnName_idempotent (x : string) :
  normalizeColumnName (normalizeColumnName x) = normalizeColumnName x.
Proof.
  unfold normalizeColumnName at 2 3.
  destruct (String.eqb x ""); [reflexivity|].
  destruct (firstSynonym synonyms (clean x)) as [st|] eqn:E.
  - apply SlugFacts.firstSynonym_In in E.
    apply in_map_iff in E as (e & <- & He).
    pose proof SlugFacts.table_standard as T. rewrite forallb_forall in T.
    specialize (T e He). apply andb_true_iff in T as [T _].
    now apply String.eqb_eq in T.
  - set (y := replaceSpaceRuns "_" (clean x)).
    assert (Hy : allChars isSlugChar y = true) by apply SlugFacts.slug_chars.
    unfold normalizeColumnName. destruct (String.eqb y "") eqn:Ey.
    + apply String.eqb_eq in Ey. now rewrite Ey.
    + rewrite (SlugFacts.slug_clean y Hy).
      assert (Hnone : firstSynonym synonyms y = None).
      { apply SlugFacts.firstSynonym_None. intros k syns syn Hk Hsyn.
        destruct (includes y syn) eqn:Ei; [|reflexivity].
        pose proof SlugFacts.table_synonyms as T. rewrite forallb_forall in T.
        specialize (T (k, syns) Hk). cbn [snd] in T.
        rewrite forallb_forall in T. specialize (T syn Hsyn).
        apply andb_true_iff in T as [Tplain Tne].
        apply negb_true_iff, String.eqb_neq in Tne.
        apply (SlugFacts.includes_runs syn (clean x) Tplain Tne false) in Ei.
        rewrite SlugFacts.firstSynonym_None in E.
        rewrite (E k syns syn Hk Hsyn) in Ei. discriminate. }
      rewrite Hnone. apply SlugFacts.slug_runs, Hy.
Qed.

End MapperProps.

(** ** Properties of [readWorksheet] and its callers *)

Module PreviewProps.

Import Num JS Numbers ReadWorksheet.
Local Open Scope list_scope.

(** X8. Whatever the limit, the preview of [readWorksheet] is a prefix of
    the rows, [previewRows] is its length and at most [totalRows], which is
    the number of rows; the headers come back unchanged. *)
Theorem readWorksheet_prefix (hs : list string) (rows : list row)
  (limit : option num) :
  headers (readWorksheet hs rows limit) = hs
  /\ totalRows (readWorksheet hs rows limit) = List.length rows
  /\ previewRows (readWorksheet hs rows limit)
     = List.length (preview (readWorksheet hs rows limit))
  /\ previewRows (readWorksheet hs rows limit) <= List.length rows
  /\ preview (readWorksheet hs rows limit)
     = firstn (previewRows (readWorksheet hs rows limit)) rows.
Proof.
  unfold readWorksheet. cbn [headers totalRows previewRows preview].
  destruct (PreviewFacts.sliceTo_firstn rows
              (toIntegerOrInfinity
                 match limit with Some l => l | None => ofZ 10 end))
    as (k & Hk & ->).
  rewrite length_firstn, Nat.min_l by exact Hk.
  repeat split; try reflexivity. exact Hk.
Qed.

(** X9. With an integer limit [k] of magnitude below 2^53: for [k >= 0] the
    preview has the first [min(k, n)] of the [n] rows; for [k < 0] it has
    all rows but the last [-k] (none when [-k >= n]), since [slice] counts
    a negative end from the end. Without a limit the preview has the first
    [min(10, n)] rows, with [NaN] none, with [+Infinity] all. *)
Theorem readWorksheet_limit (hs : list string) (rows : list row) (k : Z) :
  (Z.abs k < 2 ^ 53)%Z ->
  ((0 <= k)%Z ->
     preview (readWorksheet hs rows (Some (ofZ k)))
     = firstn (Nat.min (Z.to_nat k) (List.length rows)) rows
     /\ previewRows (readWorksheet hs rows (Some (ofZ k)))
        = Nat.min (Z.to_nat k) (List.length rows))
  /\ ((k < 0)%Z ->
        preview (readWorksheet hs rows (Some (ofZ k)))
        = firstn (List.length rows - Z.to_nat (- k)) rows
        /\ previewRows (readWorksheet hs rows (Some (ofZ k)))
           = List.length rows - Z.to_nat (- k))
  /\ previewRows (readWorksheet hs rows None)
     = Nat.min 10 (List.length rows)
  /\ preview (readWorksheet hs rows (Some NaN)) = []
  /\ preview (readWorksheet hs rows (Some POSITIVE_INFINITY)) = rows.
Proof.
  intros Hk. unfold readWorksheet. cbn [preview previewRows].
  rewrite PreviewFacts.toInteger_ofZ by exact Hk.
  split; [|split; [|split; [|split]]].
  - intros H0. rewrite PreviewFacts.sliceTo_nonneg by exact H0.
    rewrite length_firstn. split; [|reflexivity].
    destruct (Nat.le_ge_cases (Z.to_nat k) (List.length rows)) as [H|H].
    + now rewrite Nat.min_l.
    + rewrite Nat.min_r by exact H. rewrite firstn_all.
      now apply firstn_all2.
  - intros H0. rewrite PreviewFacts.sliceTo_negative by exact H0.
    rewrite length_firstn. split; [reflexivity | lia].
  - rewrite (PreviewFacts.toInteger_ofZ 10) by (simpl; lia).
    rewrite PreviewFacts.sliceTo_nonneg by lia.
    rewrite length_firstn. reflexivity.
  - change (toIntegerOrInfinity NaN) with (Finite 0).
    now rewrite PreviewFacts.sliceTo_nonneg by lia.
  - reflexivity.
Qed.

Lemma readWorksheet_limit_witness :
  (Z.abs (-1) < 2 ^ 53)%Z
  /\ preview (readWorksheet ["Amount"] (Examples.numberRows 0 3)
                (Some (ofZ (-1))))
     = [Examples.numberRow 0; Examples.numberRow 1].
Proof.
  split; [reflexivity|].
  destruct (readWorksheet_limit ["Amount"] (Examples.numberRows 0 3) (-1)
              eq_refl) as (_ & Hneg & _).
  destruct (Hneg eq_refl) as [Hp _]. rewrite Hp. reflexivity.
Defined.

(** X10. The callers choose the limit differently. The tool of
    [EnhancedExcelAgent] replaces a limit of 0 (and [NaN], and none) by 10,
    so that an empty preview cannot be asked of it, and passes every other
    limit on; the tool of [ExcelAgent] passes every limit on, so that 0
    gives an empty preview, and uses 10 when there is none. The preview
    route returns what [readWorksheet] returns without a limit. *)
Theorem readWorksheet_callers (hs : list string) (rows : list row) :
  enhancedAgentTool hs rows (Some zero) = readWorksheet hs rows None
  /\ enhancedAgentTool hs rows (Some NaN) = readWorksheet hs rows None
  /\ enhancedAgentTool hs rows None = readWorksheet hs rows None
  /\ (forall l, truthy l = true ->
        enhancedAgentTool hs rows (Some l) = readWorksheet hs rows (Some l))
  /\ preview (excelAgentTool hs rows (Some zero)) = []
  /\ (forall l,
        excelAgentTool hs rows (Some l) = readWorksheet hs rows (Some l))
  /\ excelAgentTool hs rows None = readWorksheet hs rows None
  /\ routePreview hs rows = readWorksheet hs rows None.
Proof.
  split; [reflexivity|]. split; [reflexivity|]. split; [reflexivity|].
  split.
  { intros l Hl. unfold enhancedAgentTool. now rewrite Hl. }
  split.
  { unfold excelAgentTool, readWorksheet. cbn [preview].
    change (toIntegerOrInfinity zero) with (Finite 0).
    now rewrite PreviewFacts.sliceTo_nonneg by lia. }
  split; [reflexivity|]. split; [reflexivity|].
  unfold routePreview, readWorksheet.
  rewrite (PreviewFacts.toInteger_ofZ 10) by (simpl; lia).
  rewrite PreviewFacts.sliceTo_nonneg by lia.
  rewrite length_firstn.
  change (Z.to_nat 10) with 10.
  f_equal. destruct (Nat.le_ge_cases 10 (List.length rows)) as [H|H].
  - now rewrite Nat.min_l.
  - rewrite Nat.min_r by exact H. rewrite firstn_all. symmetry.
    now apply firstn_all2.
Qed.

End PreviewProps.

(** ** Properties of [ExcelTools] *)

Module TableProps.

Import Num JS ExcelTools.
Local Open Scope list_scope.

Section WithHost.
Variable host : Host.

(** X11. The empty column name is contained in every header, so with at
    least one header no operation fails on it: each works on the first
    column. An empty [groupBy] is no grouping at all, and an empty
    [column] of [validateData] scans all columns. *)
Theorem empty_name_first_column (h : string) (hs : list string)
  (rows : list row) (operator operation : string) (value : cell)
  (o : order) :
  filterData host (h :: hs) rows "" operator value
  = Return {| filteredRows :=
                firstn 100 (List.filter (keeps host operator value 0) rows);
              totalMatches :=
                List.length (List.filter (keeps host operator value 0) rows);
              ExcelTools.filter := ("", operator, value) |}
  /\ aggregateData host (h :: hs) rows "" operation None
     = Return (Simple operation ""
                 (reduce operation (numericValues host 0 rows))
                 (List.length (numericValues host 0 rows)))
  /\ sortData host (h :: hs) rows "" o
     = Return {| sortedRows := firstn 100 (sort (compareRows host o 0) rows);
                 totalRows := List.length (sort (compareRows host o 0) rows);
                 sortBy := ("", o) |}
  /\ (forall column,
        aggregateData host (h :: hs) rows column operation (Some "")
        = aggregateData host (h :: hs) rows column operation None)
  /\ EnhancedExcelAgent.validateData (h :: hs) rows (Some "")
     = EnhancedExcelAgent.validateData (h :: hs) rows None.
Proof.
  unfold filterData, aggregateData, sortData, findIndex.
  cbn [findIndexFrom].
  rewrite FirstFacts.containsEitherWay_nil, FirstFacts.headerContains_nil.
  repeat split.
Qed.

(** X12. The column of an operation is the first header that contains the
    name, whether or not a later header equals the name: when the header at
    position [i] equals the name up to case, [aggregateData] works on the
    position [j <= i] of the first header that contains the name (no header
    before [j] contains it), which is [i] itself only when no header before
    [i] contains the name. *)
Theorem first_containing_header (headers : list string) (rows : list row)
  (column operation h : string) (i : nat) :
  nth_error headers i = Some h ->
  Str.toLowerCase h = Str.toLowerCase column ->
  exists j h',
    j <= i
    /\ nth_error headers j = Some h'
    /\ headerContains column h' = true
    /\ existsb (headerContains column) (firstn j headers) = false
    /\ (existsb (headerContains column) (firstn i headers) = false -> j = i)
    /\ aggregateData host headers rows column operation None
       = Return (Simple operation column
                   (reduce operation (numericValues host j rows))
                   (List.length (numericValues host j rows))).
Proof.
  intros Hi Hh.
  assert (Hp : headerContains column h = true).
  { unfold headerContains. rewrite Hh. apply MatchFacts.includes_refl. }
  destruct (FirstFacts.findIndex_first (headerContains column) headers i h
              Hi Hp) as (j & Hj & E & Hfirst).
  destruct (LookupFacts.findIndex_Some _ _ _ E) as (h' & Hh' & Hph' & Hnone).
  exists j, h'. repeat split; try assumption.
  unfold aggregateData. now rewrite E.
Qed.

(** X13. What [filterData] returns is a part of the table: the returned
    rows are the first [min(100, totalMatches)] matching rows, each a row
    of the table, and [totalMatches] is at most the number of rows. The
    filter is idempotent: the same filter applied to the returned rows
    returns them all. *)
Theorem filterData_rows (headers : list string) (rows : list row)
  (column operator : string) (value : cell) (r : FilterResult) :
  filterData host headers rows column operator value = Return r ->
  List.length (filteredRows r) = Nat.min 100 (totalMatches r)
  /\ totalMatches r <= List.length rows
  /\ (forall x, In x (filteredRows r) -> In x rows)
  /\ ExcelTools.filter r = (column, operator, value)
  /\ filterData host headers (filteredRows r) column operator value
     = Return {| filteredRows := filteredRows r;
                 totalMatches := List.length (filteredRows r);
                 ExcelTools.filter := ExcelTools.filter r |}.
Proof.
  intros H.
  destruct (FilterFacts.filterData_returns _ _ _ _ _ _ _ H) as (ci & Hci & ->).
  cbn [filteredRows totalMatches ExcelTools.filter].
  split; [apply length_firstn|]. split; [apply filter_length_le|].
  split; [|split; [reflexivity|]].
  - intros x Hx. apply FilterFacts.In_firstn in Hx.
    now apply filter_In in Hx.
  - unfold filterData. rewrite Hci.
    rewrite FilterFacts.filter_firstn_filter.
    now rewrite FilterFacts.firstn_firstn_same.
Qed.

(** X14. Complementary operators split the table. The matches of [=] and
    of [!=] add up to the number of rows. When the value is a number, the
    matches of [>] and of [<=], and those of [<] and of [>=], add up to the
    count of the numbers in the column: a row whose cell is not a number
    matches neither. *)
Theorem filterData_complements (headers : list string) (rows : list row)
  (column : string) (value : cell) (ci : nat) :
  findIndex (containsEitherWay column) headers = Some ci ->
  (forall r1 r2,
     filterData host headers rows column "=" value = Return r1 ->
     filterData host headers rows column "!=" value = Return r2 ->
     totalMatches r1 + totalMatches r2 = List.length rows)
  /\ (isNaN (Number host value) = false ->
      forall op1 op2 r1 r2,
        (op1 = ">" /\ op2 = "<=") \/ (op1 = "<" /\ op2 = ">=") ->
        filterData host headers rows column op1 value = Return r1 ->
        filterData host headers rows column op2 value = Return r2 ->
        totalMatches r1 + totalMatches r2
        = List.length (numericValues host ci rows)).
Proof.
  intros Hci. split.
  - intros r1 r2 H1 H2.
    destruct (FilterFacts.filterData_returns _ _ _ _ _ _ _ H1)
      as (c1 & Hc1 & ->).
    destruct (FilterFacts.filterData_returns _ _ _ _ _ _ _ H2)
      as (c2 & Hc2 & ->).
    assert (c2 = c1) by congruence. subst c2. cbn [totalMatches].
    apply (FilterFacts.filter_split_length (keeps host "=" value c1)).
  - intros Hv op1 op2 r1 r2 Hops H1 H2.
    destruct (FilterFacts.filterData_returns _ _ _ _ _ _ _ H1)
      as (c1 & Hc1 & ->).
    destruct (FilterFacts.filterData_returns _ _ _ _ _ _ _ H2)
      as (c2 & Hc2 & ->).
    assert (c1 = ci) by congruence. assert (c2 = ci) by congruence.
    subst c1 c2. cbn [totalMatches].
    rewrite FilterFacts.numericValues_length.
    apply FilterFacts.filter_split_within.
    + intros x Hx. unfold numeric in Hx. apply negb_true_iff in Hx.
      destruct Hops as [[-> ->]|[-> ->]]; unfold keeps;
        cbn -[ltb leb gtb geb].
      * now apply FilterFacts.gtb_not_leb.
      * now apply FilterFacts.ltb_not_geb.
    + intros x Hx. unfold numeric in Hx. apply negb_false_iff in Hx.
      assert (Hno : forall op, In op [">"; "<"; ">="; "<="] ->
                      keeps host op value ci x = false).
      { intros op Hop. destruct (keeps host op value ci x) eqn:E;
          [|reflexivity].
        apply (FilterFacts.keeps_numbers host op value ci Hop) in E as [E _].
        congruence. }
      destruct Hops as [[-> ->]|[-> ->]]; split; apply Hno; simpl; tauto.
Qed.

(** X15. The numeric operators never return a row whose cell is not a
    number, and return nothing when the value is not a number. *)
Theorem filterData_numeric (headers : list string) (rows : list row)
  (column operator : string) (value : cell) (ci : nat) :
  findIndex (containsEitherWay column) headers = Some ci ->
  In operator [">"; "<"; ">="; "<="] ->
  (forall r x,
     filterData host headers rows column operator value = Return r ->
     In x (filteredRows r) -> isNaN (Number host (cellAt x ci)) = false)
  /\ (isNaN (Number host value) = true ->
      filterData host headers rows column operator value
      = Return {| filteredRows := []; totalMatches := 0;
                  ExcelTools.filter := (column, operator, value) |}).
Proof.
  intros Hci Hop.
  pose proof (FilterFacts.keeps_numbers host operator value ci Hop) as Hnum.
  split.
  - intros r x H Hx.
    destruct (FilterFacts.filterData_returns _ _ _ _ _ _ _ H)
      as (cj & Hcj & ->).
    assert (cj = ci) by congruence. subst cj.
    cbn [filteredRows] in Hx.
    apply FilterFacts.In_firstn in Hx.
    apply filter_In in Hx as [_ Hx]. now apply Hnum in Hx.
  - intros Hv. unfold filterData. rewrite Hci.
    rewrite (FilterFacts.filter_none (keeps host operator value ci) rows).
    + reflexivity.
    + intros x _. destruct (keeps host operator value ci x) eqn:E;
        [|reflexivity].
      apply Hnum in E as [_ E]. congruence.
Qed.

(** X16. An operator that is none of the seven matches every row, and so
    does [contains] with the empty string: the result has the first 100
    rows and [totalMatches] is the number of rows. *)
Theorem filterData_matches_all (headers : list string) (rows : list row)
  (column operator : string) (value : cell) (ci : nat) :
  findIndex (containsEitherWay column) headers = Some ci ->
  (~ In operator [">"; "<"; ">="; "<="; "="; "!="; "contains"]
   \/ (operator = "contains" /\ value = CStr "")) ->
  filterData host headers rows column operator value
  = Return {| filteredRows := firstn 100 rows;
              totalMatches := List.length rows;
              ExcelTools.filter := (column, operator, value) |}.
Proof.
  intros Hci Hop. unfold filterData. rewrite Hci.
  rewrite (FilterFacts.filter_all (keeps host operator value ci) rows);
    [reflexivity|].
  intros x _. unfold keeps. destruct Hop as [Hop|[-> ->]].
  - repeat match goal with
           | |- context [String.eqb operator ?s] =>
               destruct (String.eqb_spec operator s) as [->|_];
               [exfalso; apply Hop; simpl; tauto|]
           end.
    reflexivity.
  - cbn. apply StrFacts.includes_nil.
Qed.

(** X17. On a column without a number (so on a table without rows) the
    aggregation does not fail: the sum is 0, the count 0, the average
    [NaN], the minimum [+Infinity] and the maximum [-Infinity]; and a
    grouped aggregation has no groups. *)
Theorem aggregateData_no_numbers (headers : list string) (rows : list row)
  (column : string) (ci : nat) :
  findIndex (headerContains column) headers = Some ci ->
  numericValues host ci rows = [] ->
  aggregateData host headers rows column "sum" None
  = Return (Simple "sum" column zero 0)
  /\ aggregateData host headers rows column "count" None
     = Return (Simple "count" column zero 0)
  /\ aggregateData host headers rows column "avg" None
     = Return (Simple "avg" column NaN 0)
  /\ aggregateData host headers rows column "min" None
     = Return (Simple "min" column POSITIVE_INFINITY 0)
  /\ aggregateData host headers rows column "max" None
     = Return (Simple "max" column NEGATIVE_INFINITY 0)
  /\ (forall operation g gi,
        given (Some g) = Some g ->
        findIndex (headerContains g) headers = Some gi ->
        aggregateData host headers rows column operation (Some g)
        = Return (Grouped operation column g [])).
Proof.
  intros Hci Hno. unfold aggregateData. rewrite Hci. cbn [given].
  rewrite Hno. repeat split.
  intros operation g gi Hg Hgi. rewrite Hg, Hgi.
  assert (H : forall groups,
            groupRows host gi ci rows groups = Return groups).
  { unfold numericValues in Hno. clear Hci.
    induction rows as [|r rs IH]; intros groups; [reflexivity|].
    simpl in *. destruct (isNaN (Number host (cellAt r ci))); simpl in *;
      [now apply IH | discriminate]. }
  now rewrite H.
Qed.

(** X18. The counts of the groups add up to the count of the aggregation
    without grouping: every number of the column is in exactly one
    group. *)
Theorem aggregateData_counts_add_up (headers : list string)
  (rows : list row) (column operation g : string)
  (op1 c1 g1 op2 c2 : string) (results : list GroupResult)
  (whole : num) (n : nat) :
  aggregateData host headers rows column operation (Some g)
  = Return (Grouped op1 c1 g1 results) ->
  aggregateData host headers rows column operation None
  = Return (Simple op2 c2 whole n) ->
  list_sum (map count results) = n.
Proof.
  unfold aggregateData.
  destruct (findIndex (headerContains column) headers) as [ci|];
    [|discriminate].
  cbn [given]. destruct (String.eqb g ""); [discriminate|].
  destruct (findIndex (headerContains g) headers) as [gi|]; [|discriminate].
  destruct (groupRows host gi ci rows []) as [groups|] eqn:E; [|discriminate].
  intros [= _ _ _ <-] [= _ _ _ <-].
  rewrite map_map. cbn [count].
  rewrite (Permutation_list_sum
             (Permutation_map (fun e => List.length (snd e))
                (GroupFacts.entries_perm groups))).
  rewrite CountFacts.list_sum_lengths.
  rewrite (CountFacts.groupRows_size _ _ _ _ _ _ E). simpl. lia.
Qed.

(** X19. On a column of integers of magnitude below 2^53, at least one,
    [min] and [max] are exact: the results are the numbers of the least and
    of the greatest integer of the column (for a column within the engine's
    limit on the number of arguments of one call). *)
Theorem aggregateData_min_max_integers (headers : list string)
  (rows : list row) (column : string) (ci : nat) (zs : list Z) :
  findIndex (headerContains column) headers = Some ci ->
  Forall2 (fun r z => Number host (cellAt r ci) = ofZ z) rows zs ->
  (forall z, In z zs -> (Z.abs z < 2 ^ 53)%Z) ->
  zs <> [] ->
  exists least greatest,
    In least zs /\ In greatest zs
    /\ (forall z, In z zs -> (least <= z <= greatest)%Z)
    /\ aggregateData host headers rows column "min" None
       = Return (Simple "min" column (ofZ least) (List.length zs))
    /\ aggregateData host headers rows column "max" None
       = Return (Simple "max" column (ofZ greatest) (List.length zs)).
Proof.
  intros Hci Hrows Hsmall Hne.
  destruct zs as [|z zs]; [contradiction|].
  destruct (OrderFacts.least_spec zs z) as [Lin Lle].
  destruct (OrderFacts.greatest_spec zs z) as [Gin Gle].
  exists (fold_left Z.min zs z), (fold_left Z.max zs z).
  split; [exact Lin|]. split; [exact Gin|]. split.
  - intros y Hy. split; [now apply Lle | now apply Gle].
  - unfold aggregateData. rewrite Hci. cbn [given].
    rewrite (GroupFacts.numericValues_integers host ci rows (z :: zs) Hrows
               Hsmall).
    rewrite length_map. unfold reduce. cbn [String.eqb Ascii.eqb Bool.eqb].
    rewrite OrderFacts.mathMin_ofZ, OrderFacts.mathMax_ofZ by exact Hsmall.
    now split.
Qed.

(** X20. When both columns are found, a grouped aggregation and a pivot
    table throw exactly when a row with a number belongs to a group named
    like a property of [Object.prototype] ([constructor], [toString],
    ...), and what they throw then is a [TypeError]. *)
Theorem grouping_throws_iff (headers : list string) (rows : list row)
  (column operation g : string) (ci gi : nat) :
  findIndex (headerContains column) headers = Some ci ->
  findIndex (headerContains g) headers = Some gi ->
  given (Some g) = Some g ->
  (collides host gi ci rows = true ->
     aggregateData host headers rows column operation (Some g)
     = Throw TypeError
     /\ createPivotTable host headers rows g column operation
        = Throw TypeError)
  /\ (collides host gi ci rows = false ->
        (exists r, aggregateData host headers rows column operation (Some g)
                   = Return r)
        /\ (exists p, createPivotTable host headers rows g column operation
                      = Return p)).
Proof.
  intros Hci Hgi Hg. unfold aggregateData, createPivotTable.
  rewrite Hci, Hg. cbv beta iota. rewrite Hgi. split.
  - intros Hc.
    rewrite (CountFacts.groupRows_collides host gi ci rows []);
      [now split | intros k _; reflexivity | exact Hc].
  - intros Hc.
    destruct (GroupFacts.groupRows_returns host gi ci rows [] Hc)
      as (groups & ->).
    split; eexists; reflexivity.
Qed.

(** X21. For [sum], [count] and [avg] the pivot table holds what the
    grouped aggregation holds: one record for each of its results, in the
    same order, made of the group, the result and the count. For any other
    operation (also [min] and [max]) the value of every record is 0. *)
Theorem createPivotTable_agrees (headers : list string) (rows : list row)
  (rowField valueField operation : string) :
  given (Some rowField) = Some rowField ->
  (In operation ["sum"; "count"; "avg"] ->
   forall results,
     aggregateData host headers rows valueField operation (Some rowField)
     = Return (Grouped operation valueField rowField results) ->
     createPivotTable host headers rows rowField valueField operation
     = Return {| pivotTable :=
                   map (fun e =>
                          setProp
                            (setProp [(rowField, PStr (group e))] operation
                               (PNum (result e)))
                            "count" (PNum (ofNat (count e))))
                       results;
                 ExcelTools.rowField := rowField;
                 ExcelTools.valueField := valueField;
                 pivotOperation := operation;
                 totalGroups := List.length results |})
  /\ (~ In operation ["sum"; "count"; "avg"] ->
      forall p rec,
        createPivotTable host headers rows rowField valueField operation
        = Return p ->
        In rec (pivotTable p) -> getProp rec operation = Some (PNum zero)).
Proof.
  intros Hg. split.
  - intros Hop results. unfold aggregateData, createPivotTable.
    destruct (findIndex (headerContains valueField) headers) as [vi|];
      [|discriminate].
    rewrite Hg.
    destruct (findIndex (headerContains rowField) headers) as [ri|];
      [|discriminate].
    destruct (groupRows host ri vi rows []) as [groups|];
      [|discriminate].
    intros [= <-]. rewrite !map_map, !length_map. f_equal. f_equal.
    apply map_ext. intros e. unfold pivotRecord. cbn [group result count].
    destruct Hop as [<-|[<-|[<-|[]]]]; reflexivity.
  - intros Hop p rec. unfold createPivotTable.
    destruct (findIndex (headerContains rowField) headers) as [ri|];
      [|discriminate].
    destruct (findIndex (headerContains valueField) headers) as [vi|];
      [|discriminate].
    destruct (groupRows host ri vi rows []) as [groups|];
      [|discriminate].
    intros [= <-]. cbn [pivotTable]. intros Hin.
    apply in_map_iff in Hin as (e & <- & _). unfold pivotRecord.
    assert (Hred : reducePivot operation (snd e) = zero).
    { unfold reducePivot.
      repeat match goal with
             | |- context [String.eqb operation ?s] =>
                 destruct (String.eqb_spec operation s) as [->|_];
                 [exfalso; apply Hop; simpl; tauto|]
             end.
      reflexivity. }
    rewrite Hred.
    rewrite CountFacts.getProp_setProp_other
      by (intros <-; apply Hop; simpl; tauto).
    apply CountFacts.getProp_setProp_same.
Qed.

(** X22. [sortData] loses and invents no row: [totalRows] is the number of
    rows and there are [min(100, totalRows)] returned rows; when the
    comparator is consistent on the rows (where the language fixes what
    [sort] returns), the returned rows are the first 100 of a rearrangement
    of the table, and a table of at most 100 rows comes back rearranged as
    a whole. *)
Theorem sortData_rearranges (headers : list string) (rows : list row)
  (column : string) (o : order) (ci : nat) (r : SortResult) :
  findIndex (headerContains column) headers = Some ci ->
  sortData host headers rows column o = Return r ->
  totalRows r = List.length rows
  /\ List.length (sortedRows r) = Nat.min 100 (List.length rows)
  /\ sortBy r = (column, o)
  /\ (consistentOn (compareRows host asc ci) rows = true ->
      (exists all, Permutation all rows /\ sortedRows r = firstn 100 all)
      /\ (List.length rows <= 100 -> Permutation (sortedRows r) rows)).
Proof.
  intros Hci H.
  destruct (StableFacts.sortData_returns _ _ _ _ _ _ H) as (cj & Hcj & ->).
  cbn [sortedRows totalRows sortBy].
  pose proof (SortFacts.sort_perm (compareRows host o cj) rows) as Hp.
  pose proof (SortFacts.sort_length (compareRows host o cj) rows) as Hl.
  split; [exact Hl|]. split; [now rewrite length_firstn, Hl|].
  split; [reflexivity|]. intros _.
  split; [eexists; split; [exact Hp | reflexivity]|].
  intros Hle. rewrite firstn_all2 by lia. exact Hp.
Qed.

(** X23. When the comparator is consistent on the rows, the returned rows
    are in order: the comparator asks for no returned row to come after a
    row that follows it. *)
Theorem sortData_sorted (headers : list string) (rows : list row)
  (column : string) (o : order) (ci : nat) (r : SortResult) :
  findIndex (headerContains column) headers = Some ci ->
  consistentOn (compareRows host asc ci) rows = true ->
  sortData host headers rows column o = Return r ->
  StronglySorted (fun a b => before (compareRows host o ci) a b = true)
                 (sortedRows r).
Proof.
  intros Hci Hc H.
  destruct (StableFacts.sortData_returns _ _ _ _ _ _ H) as (cj & Hcj & ->).
  assert (cj = ci) by congruence. subst cj. cbn [sortedRows].
  destruct (StableFacts.consistent_order host o ci rows Hc) as [Hf Ht].
  apply StableFacts.sorted_firstn.
  apply (SortFacts.sort_sorted (compareRows host o ci)
           (fun x => In x rows) Hf Ht).
  now apply Forall_forall.
Qed.

(** X24. On a column of integers of magnitude below 2^52 the returned rows
    are in the order of the integers: ascending for [asc], descending for
    [desc]. *)
Theorem sortData_integers (headers : list string) (rows : list row)
  (column : string) (o : order) (ci : nat) (key : row -> Z)
  (r : SortResult) :
  findIndex (headerContains column) headers = Some ci ->
  (forall x, In x rows ->
     Number host (cellAt x ci) = ofZ (key x) /\ (Z.abs (key x) < 2 ^ 52)%Z) ->
  sortData host headers rows column o = Return r ->
  StronglySorted
    (fun a b => match o with
                | asc => (key a <= key b)%Z
                | desc => (key b <= key a)%Z
                end)
    (sortedRows r).
Proof.
  intros Hci Hkey H.
  assert (Hc : consistentOn (compareRows host asc ci) rows = true).
  { apply SortFacts.integers_consistent. intros x Hx.
    exists (key x). now apply Hkey. }
  destruct (StableFacts.sortData_returns _ _ _ _ _ _ H) as (cj & Hcj & ->).
  assert (cj = ci) by congruence. subst cj. cbn [sortedRows].
  destruct (StableFacts.consistent_order host o ci rows Hc) as [Hf Ht].
  apply StableFacts.sorted_firstn.
  pose proof (SortFacts.sort_perm (compareRows host o ci) rows) as Hp.
  eapply StableFacts.sorted_impl;
    [|apply (SortFacts.sort_sorted (compareRows host o ci)
               (fun x => In x rows) Hf Ht); now apply Forall_forall].
  intros a b Ha Hb.
  apply (Permutation_in _ Hp) in Ha. apply (Permutation_in _ Hp) in Hb.
  destruct (Hkey a Ha) as [Ea Sa]. destruct (Hkey b Hb) as [Eb Sb].
  unfold before. destruct o.
  - rewrite (SortFacts.compareRows_integers host ci a b _ _ Ea Eb Sa Sb).
    destruct (Z.compare_spec (key a) (key b)); intros; try lia; discriminate.
  - rewrite SortFacts.compareRows_desc.
    rewrite (SortFacts.compareRows_integers host ci b a _ _ Eb Ea Sb Sa).
    destruct (Z.compare_spec (key b) (key a)); intros; try lia; discriminate.
Qed.

(** X25. The sort is stable: when the comparator is consistent on the rows
    of a table of at most 100 rows, the rows that tie with a given row come
    back in the order they had in the table. *)
Theorem sortData_stable (headers : list string) (rows : list row)
  (column : string) (o : order) (ci : nat) (r : SortResult) (x : row) :
  findIndex (headerContains column) headers = Some ci ->
  consistentOn (compareRows host asc ci) rows = true ->
  List.length rows <= 100 ->
  In x rows ->
  sortData host headers rows column o = Return r ->
  List.filter (fun y => sameSign (sign (compareRows host o ci x y)) Eq)
              (sortedRows r)
  = List.filter (fun y => sameSign (sign (compareRows host o ci x y)) Eq)
                rows.
Proof.
  intros Hci Hc Hle Hx H.
  destruct (StableFacts.sortData_returns _ _ _ _ _ _ H) as (cj & Hcj & ->).
  assert (cj = ci) by congruence. subst cj. cbn [sortedRows].
  destruct (StableFacts.consistent_order host o ci rows Hc) as [Hf Ht].
  rewrite firstn_all2
    by (rewrite (SortFacts.sort_length (compareRows host o ci) rows); lia).
  apply (StableFacts.sort_ties (compareRows host o ci)
           (fun y => In y rows) Hf Ht x rows Hx).
  now apply Forall_forall.
Qed.

End WithHost.

Lemma first_containing_header_witness :
  nth_error ["Unit Price"; "Price"] 1 = Some "Price"
  /\ Str.toLowerCase "Price" = Str.toLowerCase "price"
  /\ aggregateData RefHost.host ["Unit Price"; "Price"]
       [[CNum (ofZ 3); CNum (ofZ 4)]] "price" "sum" None
     = Return (Simple "sum" "price" (ofZ 3) 1).
Proof.
  split; [reflexivity|]. split; [reflexivity|].
  destruct (first_containing_header RefHost.host ["Unit Price"; "Price"]
              [[CNum (ofZ 3); CNum (ofZ 4)]] "price" "sum" "Price" 1
              eq_refl eq_refl)
    as (j & h' & Hj & _ & _ & Hnone & _ & Hres).
  destruct j as [|[|j]].
  - rewrite Hres. reflexivity.
  - vm_compute in Hnone. discriminate.
  - lia.
Defined.

Lemma filterData_rows_witness :
  exists r,
    filterData RefHost.host ["Customer"; "Amount"] Examples.orders
               "amount" ">" (CNum (ofZ 1)) = Return r
    /\ List.length (filteredRows r) = Nat.min 100 (totalMatches r)
    /\ totalMatches r <= List.length Examples.orders
    /\ (forall x, In x (filteredRows r) -> In x Examples.orders)
    /\ ExcelTools.filter r = ("amount", ">", CNum (ofZ 1))
    /\ filterData RefHost.host ["Customer"; "Amount"] (filteredRows r)
                  "amount" ">" (CNum (ofZ 1))
       = Return {| filteredRows := filteredRows r;
                   totalMatches := List.length (filteredRows r);
                   ExcelTools.filter := ExcelTools.filter r |}.
Proof.
  eexists. split; [reflexivity|].
  exact (filterData_rows RefHost.host ["Customer"; "Amount"] Examples.orders
           "amount" ">" (CNum (ofZ 1)) _ eq_refl).
Defined.

Lemma filterData_complements_witness :
  findIndex (containsEitherWay "amount") ["Customer"; "Amount"] = Some 1
  /\ forall r1 r2,
       filterData RefHost.host ["Customer"; "Amount"] Examples.sales
                  "amount" "=" (CNum (ofZ 5)) = Return r1 ->
       filterData RefHost.host ["Customer"; "Amount"] Examples.sales
                  "amount" "!=" (CNum (ofZ 5)) = Return r2 ->
       totalMatches r1 + totalMatches r2 = List.length Examples.sales.
Proof.
  split; [reflexivity|].
  exact (proj1 (filterData_complements RefHost.host ["Customer"; "Amount"]
                  Examples.sales "amount" (CNum (ofZ 5)) 1 eq_refl)).
Defined.

Lemma filterData_numeric_witness :
  isNaN (Number RefHost.host (CStr "many")) = true
  /\ filterData RefHost.host ["Customer"; "Amount"] Examples.sales
                "amount" ">=" (CStr "many")
     = Return {| filteredRows := []; totalMatches := 0;
                 ExcelTools.filter := ("amount", ">=", CStr "many") |}.
Proof.
  split; [reflexivity|].
  apply (filterData_numeric RefHost.host ["Customer"; "Amount"] Examples.sales
           "amount" ">=" (CStr "many") 1 eq_refl).
  - simpl. tauto.
  - reflexivity.
Defined.

Lemma filterData_matches_all_witness :
  filterData RefHost.host ["Customer"; "Amount"] Examples.sales
             "customer" "like" (CStr "e")
  = Return {| filteredRows := firstn 100 Examples.sales;
              totalMatches := List.length Examples.sales;
              ExcelTools.filter := ("customer", "like", CStr "e") |}.
Proof.
  apply (filterData_matches_all RefHost.host ["Customer"; "Amount"]
           Examples.sales "customer" "like" (CStr "e") 0 eq_refl).
  left. intros [H|[H|[H|[H|[H|[H|[H|[]]]]]]]]; discriminate.
Defined.

Lemma aggregateData_no_numbers_witness :
  numericValues RefHost.host 0 [[CStr "east"]; [CStr "west"]] = []
  /\ aggregateData RefHost.host ["Region"] [[CStr "east"]; [CStr "west"]]
       "region" "min" None
     = Return (Simple "min" "region" POSITIVE_INFINITY 0).
Proof.
  split; [reflexivity|].
  apply (aggregateData_no_numbers RefHost.host ["Region"]
           [[CStr "east"]; [CStr "west"]] "region" 0 eq_refl eq_refl).
Defined.

Lemma aggregateData_counts_add_up_witness :
  exists results whole,
    aggregateData RefHost.host ["Region"; "Amount"] Examples.sales
                  "amount" "sum" (Some "region")
    = Return (Grouped "sum" "amount" "region" results)
    /\ aggregateData RefHost.host ["Region"; "Amount"] Examples.sales
                     "amount" "sum" None
       = Return (Simple "sum" "amount" whole 4)
    /\ list_sum (map count results) = 4.
Proof.
  do 2 eexists.
  assert (H1 : aggregateData RefHost.host ["Region"; "Amount"] Examples.sales
                 "amount" "sum" (Some "region")
               = Return (Grouped "sum" "amount" "region"
                           [{| group := "east"; result := ofZ 5; count := 2 |};
                            {| group := "west"; result := ofZ 5;
                               count := 2 |}]))
    by (vm_compute; reflexivity).
  assert (H2 : aggregateData RefHost.host ["Region"; "Amount"] Examples.sales
                 "amount" "sum" None
               = Return (Simple "sum" "amount" (ofZ 10) 4))
    by (vm_compute; reflexivity).
  split; [exact H1|]. split; [exact H2|].
  exact (aggregateData_counts_add_up RefHost.host _ _ _ _ _ _ _ _ _ _ _ _ _
           H1 H2).
Defined.

Lemma aggregateData_min_max_integers_witness :
  exists least greatest,
    In least [10; 2; 1; 2]%Z /\ In greatest [10; 2; 1; 2]%Z
    /\ (forall z, In z [10; 2; 1; 2]%Z -> (least <= z <= greatest)%Z)
    /\ aggregateData RefHost.host ["Customer"; "Amount"] Examples.orders
                     "amount" "min" None
       = Return (Simple "min" "amount" (ofZ least) 4)
    /\ aggregateData RefHost.host ["Customer"; "Amount"] Examples.orders
                     "amount" "max" None
       = Return (Simple "max" "amount" (ofZ greatest) 4).
Proof.
  apply (aggregateData_min_max_integers RefHost.host ["Customer"; "Amount"]
           Examples.orders "amount" 1 [10; 2; 1; 2]%Z eq_refl).
  - repeat constructor.
  - intros z [<-|[<-|[<-|[<-|[]]]]]; reflexivity.
  - discriminate.
Defined.

Lemma grouping_throws_iff_witness :
  collides RefHost.host 0 1 [[CStr "constructor"; CNum (ofZ 1)]] = true
  /\ aggregateData RefHost.host ["Name"; "Amount"]
       [[CStr "constructor"; CNum (ofZ 1)]] "amount" "sum" (Some "name")
     = Throw TypeError
  /\ createPivotTable RefHost.host ["Name"; "Amount"]
       [[CStr "constructor"; CNum (ofZ 1)]] "name" "amount" "sum"
     = Throw TypeError.
Proof.
  split; [reflexivity|].
  apply (grouping_throws_iff RefHost.host ["Name"; "Amount"]
           [[CStr "constructor"; CNum (ofZ 1)]] "amount" "sum" "name" 1 0
           eq_refl eq_refl eq_refl).
  reflexivity.
Defined.

Lemma createPivotTable_agrees_witness :
  given (Some "region") = Some "region"
  /\ forall p rec,
       createPivotTable RefHost.host ["Region"; "Amount"] Examples.sales
                        "region" "amount" "max" = Return p ->
       In rec (pivotTable p) -> getProp rec "max" = Some (PNum zero).
Proof.
  split; [reflexivity|].
  apply (createPivotTable_agrees RefHost.host ["Region"; "Amount"]
           Examples.sales "region" "amount" "max" eq_refl).
  intros [H|[H|[H|[]]]]; discriminate.
Defined.

Lemma sortData_rearranges_witness :
  exists r,
    sortData RefHost.host ["Customer"; "Amount"] Examples.orders
             "amount" desc = Return r
    /\ totalRows r = 4
    /\ Permutation (sortedRows r) Examples.orders.
Proof.
  eexists. split; [reflexivity|].
  destruct (sortData_rearranges RefHost.host ["Customer"; "Amount"]
              Examples.orders "amount" desc 1 _ eq_refl eq_refl)
    as (Ht & _ & _ & Hc).
  split; [exact Ht|].
  destruct (Hc ltac:(vm_compute; reflexivity)) as [_ Hp].
  apply Hp. simpl. lia.
Defined.

Lemma sortData_sorted_witness :
  exists r,
    sortData RefHost.host ["Customer"; "Amount"] Examples.orders
             "amount" asc = Return r
    /\ StronglySorted
         (fun a b => before (compareRows RefHost.host asc 1) a b = true)
         (sortedRows r).
Proof.
  eexists. split; [reflexivity|].
  exact (sortData_sorted RefHost.host ["Customer"; "Amount"] Examples.orders
           "amount" asc 1 _ eq_refl ltac:(vm_compute; reflexivity) eq_refl).
Defined.

Lemma sortData_integers_witness :
  exists r,
    sortData RefHost.host ["Amount"] (Examples.numberRows 5 3)
             "amount" desc = Return r
    /\ StronglySorted
         (fun a b =>
            (match RefHost.toInteger (Number RefHost.host (cellAt b 0)) with
             | Some z => z
             | None => 0
             end
             <= match RefHost.toInteger
                        (Number RefHost.host (cellAt a 0)) with
                | Some z => z
                | None => 0
                end)%Z)
         (sortedRows r).
Proof.
  eexists. split; [reflexivity|].
  apply (sortData_integers RefHost.host ["Amount"] (Examples.numberRows 5 3)
           "amount" desc 0
           (fun x => match RefHost.toInteger
                             (Number RefHost.host (cellAt x 0)) with
                     | Some z => z
                     | None => 0%Z
                     end) _ eq_refl).
  - intros x [<-|[<-|[<-|[]]]]; split; reflexivity.
  - reflexivity.
Defined.

Lemma sortData_stable_witness :
  exists r,
    sortData RefHost.host ["Customer"; "Amount"] Examples.orders
             "amount" asc = Return r
    /\ List.filter
         (fun y => sameSign
                     (sign (compareRows RefHost.host asc 1
                              [CStr "b"; CNum (ofZ 2)] y)) Eq)
         (sortedRows r)
       = [[CStr "b"; CNum (ofZ 2)]; [CStr "d"; CNum (ofZ 2)]].
Proof.
  eexists. split; [reflexivity|].
  rewrite (sortData_stable RefHost.host ["Customer"; "Amount"]
             Examples.orders "amount" asc 1 _ [CStr "b"; CNum (ofZ 2)]
             eq_refl ltac:(vm_compute; reflexivity)
             ltac:(simpl; lia) ltac:(simpl; tauto) eq_refl).
  reflexivity.
Defined.

End TableProps.

(** ** Properties of [validateData] and [mergeWorksheets] *)

Module AgentProps.

Import Num JS ExcelTools EnhancedExcelAgent.
Local Open Scope list_scope.

(** X26. Without a column, [validateData] reports exactly the headers that
    have a blank cell ([null], [undefined], the empty string, or no cell at
    all in a short row): an issue is reported if and only if it is the
    report of a header position with a positive null count, with that
    count and its percentage; no count exceeds the number of rows and there
    are at most as many issues as headers. *)
Theorem validateData_reports (headers : list string) (rows : list row) :
  (forall i,
     In i (validationIssues (validateData headers rows None))
     <-> exists index header,
           nth_error headers index = Some header
           /\ 0 < nullCountOf (map (fun r => cellAt r index) rows)
                <= List.length rows
           /\ i = NullReport header
                    (nullCountOf (map (fun r => cellAt r index) rows))
                    (percentage
                       (nullCountOf (map (fun r => cellAt r index) rows))
                       (List.length rows)))
  /\ totalIssues (validateData headers rows None)
     = List.length (validationIssues (validateData headers rows None))
  /\ totalIssues (validateData headers rows None) <= List.length headers.
Proof.
  unfold validateData. cbn [given validationIssues totalIssues].
  split; [|split; [reflexivity | apply ValidateFacts.scanHeaders_length]].
  intros i. rewrite ValidateFacts.scanHeaders_In. cbn [Nat.add].
  split; intros (index & header & Hn & Hk & ->); exists index, header;
    (split; [exact Hn|]); (split; [|reflexivity]).
  - split; [exact Hk|].
    pose proof (ValidateFacts.nullCountOf_le
                  (map (fun r => cellAt r index) rows)) as H.
    now rewrite length_map in H.
  - apply Hk.
Qed.

(** X27. Without a column, [validateData] reports no issue exactly when no
    row has a blank cell under a header. *)
Theorem validateData_clean (headers : list string) (rows : list row) :
  totalIssues (validateData headers rows None) = 0
  <-> forall r index,
        In r rows -> index < List.length headers ->
        isBlank (cellAt r index) = false.
Proof.
  unfold validateData. cbn [given validationIssues totalIssues].
  rewrite length_zero_iff_nil. split.
  - intros Hnil r index Hr Hi.
    destruct (nth_error headers index) as [h|] eqn:Hn;
      [|apply nth_error_None in Hn; lia].
    destruct (isBlank (cellAt r index)) eqn:E; [|reflexivity].
    exfalso.
    assert (Hk : 0 < nullCountOf (map (fun r => cellAt r index) rows)).
    { destruct (nullCountOf (map (fun r => cellAt r index) rows)) eqn:Z;
        [|lia].
      apply ValidateFacts.nullCountOf_zero with (r := r) in Z; [|exact Hr].
      congruence. }
    assert (Hin : In (NullReport h
                        (nullCountOf (map (fun r => cellAt r index) rows))
                        (percentage
                           (nullCountOf
                              (map (fun r => cellAt r index) rows))
                           (List.length rows)))
                     (scanHeaders headers 0 rows)).
    { apply ValidateFacts.scanHeaders_In. exists index, h.
      cbn [Nat.add]. now repeat split. }
    rewrite Hnil in Hin. exact Hin.
  - intros H. destruct (scanHeaders headers 0 rows) as [|i l] eqn:E;
      [reflexivity|]. exfalso.
    assert (Hin : In i (scanHeaders headers 0 rows))
      by (rewrite E; now left).
    apply ValidateFacts.scanHeaders_In in Hin
      as (index & header & Hn & Hk & _). cbn [Nat.add] in Hk.
    assert (Hz : nullCountOf (map (fun r => cellAt r index) rows) = 0).
    { apply ValidateFacts.nullCountOf_zero. intros r Hr. apply H; [exact Hr|].
      apply nth_error_Some. congruence. }
    lia.
Qed.

(** X28. With a column that is found, [validateData] reports exactly one
    issue, under the name that was asked for: its total count is the number
    of rows, its null count is the number of rows with a blank cell in the
    column, its null count and its count of distinct values are at most the
    total count, and a table with a row has at least one distinct value. *)
Theorem validateData_column (headers : list string) (rows : list row)
  (column : string) (ci : nat) :
  given (Some column) = Some column ->
  findIndex (headerContains column) headers = Some ci ->
  exists nullCount uniqueCount percent,
    validateData headers rows (Some column)
    = {| validationIssues :=
           [ColumnReport column nullCount uniqueCount (List.length rows)
              percent];
         totalIssues := 1 |}
    /\ nullCount
       = List.length (List.filter (fun r => isBlank (cellAt r ci)) rows)
    /\ nullCount <= List.length rows
    /\ uniqueCount <= List.length rows
    /\ (rows <> [] -> 1 <= uniqueCount)
    /\ percent = percentage nullCount (List.length rows).
Proof.
  intros Hg Hci. unfold validateData. rewrite Hg, Hci.
  cbn [List.length]. rewrite !length_map.
  do 3 eexists. split; [reflexivity|].
  split; [|split; [|split; [|split]]].
  - unfold nullCountOf. clear. induction rows as [|r rs IH];
      [reflexivity|].
    simpl. destruct (isBlank (cellAt r ci)); simpl; now rewrite IH.
  - pose proof (ValidateFacts.nullCountOf_le
                  (map (fun r => cellAt r ci) rows)) as H.
    now rewrite length_map in H.
  - unfold uniqueCountOf.
    pose proof (ValidateFacts.setOf_length
                  (map (fun r => cellAt r ci) rows) []) as [_ H].
    rewrite length_map in H. simpl in H. lia.
  - intros Hne. destruct rows as [|r rs]; [contradiction|].
    apply ValidateFacts.setOf_nonempty.
  - reflexivity.
Qed.

Lemma validateData_column_witness :
  exists percent,
    validateData ["Region"; "Amount"] Examples.sales (Some "amount")
    = {| validationIssues := [ColumnReport "amount" 1 4 4 percent];
         totalIssues := 1 |}.
Proof.
  destruct (validateData_column ["Region"; "Amount"] Examples.sales
              "amount" 1 eq_refl eq_refl)
    as (nullCount & uniqueCount & percent & Hres & _).
  exists percent. rewrite Hres. vm_compute in Hres.
  injection Hres as <- <- <-. reflexivity.
Defined.

End AgentProps.

Module MergeProps.

Import JS MergeWorksheets.
Local Open Scope list_scope.

(** X29. [mergeWorksheets] throws exactly when no id is found in the
    database, and then the error [No worksheets found]; when some id is
    found it returns, and the ids that are not found are skipped. *)
Theorem mergeWorksheets_throws_iff (db : string -> option Worksheet)
  (ids : list string) (mt : mergeType) :
  ((forall id, In id ids -> db id = None)
   <-> mergeWorksheets db ids mt = Throw (Error "No worksheets found"))
  /\ ((exists id, In id ids /\ db id <> None)
      <-> exists r, mergeWorksheets db ids mt = Return r).
Proof.
  unfold mergeWorksheets.
  destruct (fetchAll db ids) as [|ws wss] eqn:E.
  - pose proof (proj1 (MergeFacts.fetchAll_nil db ids) E) as Hnone.
    split; [tauto|]. split.
    + intros (id & Hid & Hd). elim Hd. now apply Hnone.
    + intros (r & Hr). discriminate.
  - assert (Hsome : exists id, In id ids /\ db id = Some ws).
    { apply MergeFacts.fetchAll_In. rewrite E. now left. }
    destruct Hsome as (id & Hid & Hd).
    destruct (collect (ws :: wss) [] []) as [hs rs]. split; split.
    + intros H. specialize (H id Hid). congruence.
    + discriminate.
    + intros _. eexists. reflexivity.
    + intros _. exists id. split; [exact Hid | congruence].
Qed.

(** X30. What [mergeWorksheets] returns: the rows of the worksheets found,
    one worksheet after the other in the order of the ids; each header of a
    worksheet found, once; and the names of the worksheets. The merge type
    is only copied into the result: [intersection] merges as [union]
    does. (Worksheets within the engine's limit on the number of arguments
    of one call, which [push(...ws.data)] is subject to.) *)
Theorem mergeWorksheets_result (db : string -> option Worksheet)
  (ids : list string) (mt : mergeType) (r : MergeResult) :
  mergeWorksheets db ids mt = Return r ->
  mergedRows r = flat_map data (fetchAll db ids)
  /\ NoDup (mergedHeaders r)
  /\ (forall h, In h (mergedHeaders r)
                <-> exists ws, In ws (fetchAll db ids) /\ In h (headers ws))
  /\ sourceWorksheets r = map name (fetchAll db ids)
  /\ mergeTypeUsed r = mt
  /\ (forall mt',
        mergeWorksheets db ids mt'
        = Return {| mergedHeaders := mergedHeaders r;
                    mergedRows := mergedRows r;
                    sourceWorksheets := sourceWorksheets r;
                    mergeTypeUsed := mt' |}).
Proof.
  unfold mergeWorksheets.
  destruct (fetchAll db ids) as [|ws wss] eqn:E; [discriminate|].
  destruct (MergeFacts.collect_spec (ws :: wss) [] [] (NoDup_nil _))
    as (N & I & R).
  destruct (collect (ws :: wss) [] []) as [hs rs]. cbn [fst snd] in *.
  intros [= <-]. cbn [mergedRows mergedHeaders sourceWorksheets mergeTypeUsed].
  split; [exact R|]. split; [exact N|]. split.
  - intros h. rewrite I. split; [intros [[]|H]; exact H | now right].
  - repeat split.
Qed.

Lemma mergeWorksheets_result_witness :
  exists r,
    mergeWorksheets
      (fun id =>
         if String.eqb id "w1"
         then Some {| name := "Jan"; headers := ["Region"; "Amount"];
                      data := [[CStr "east"; CNull]] |}
         else if String.eqb id "w2"
              then Some {| name := "Feb"; headers := ["Amount"; "Units"];
                           data := [[CNull; CNull]] |}
              else None)
      ["w1"; "missing"; "w2"] intersection = Return r
    /\ mergedHeaders r = ["Region"; "Amount"; "Units"]
    /\ mergedRows r = [[CStr "east"; CNull]; [CNull; CNull]]
    /\ sourceWorksheets r = ["Jan"; "Feb"].
Proof.
  eexists. split; [reflexivity|].
  destruct (mergeWorksheets_result
              (fun id =>
                 if String.eqb id "w1"
                 then Some {| name := "Jan"; headers := ["Region"; "Amount"];
                              data := [[CStr "east"; CNull]] |}
                 else if String.eqb id "w2"
                      then Some {| name := "Feb";
                                   headers := ["Amount"; "Units"];
                                   data := [[CNull; CNull]] |}
                      else None)
              ["w1"; "missing"; "w2"] intersection _ eq_refl)
    as (Hrows & _ & _ & Hnames & _).
  split; [reflexivity|]. split; [exact Hrows | exact Hnames].
Defined.

End MergeProps.
